(** * The consensus directory subsystem of tor_android, embedded in Rocq

    A shallow embedding of the parts of [src/or/networkstatus.c] and of the
    microdescriptor cache ([microdesc.c]) that the specification talks
    about: the quorum checker, the consensus fetch-time scheduler, the
    install protocol of [networkstatus_set_current_consensus], the v2
    status cache and the rebuild of the microdescriptor cache.

    Conventions.
    - [time_t], [long] and [int] values are integers in [Z]; C division is
      [Z.quot] (it truncates toward zero).  Signed arithmetic is taken not
      to overflow, which C leaves undefined; the cast to [int] and the
      arithmetic in [size_t] wrap around, as C defines them.
    - Byte arrays (digests, keys, document bodies) and C strings are
      [string]s.
    - [tor_assert] aborts the process: a function that can hit one returns
      an [option], and [None] is the abort.
    - Calls into other modules of the program (control port, node list,
      certificate fetcher, download-status records, ...) are recorded, in
      order, in a trace of [event]s; what those modules answer is read from
      an environment record.  Log messages are not part of the model.
    - The file system is a finite map from file names (relative to the data
      directory) to contents. *)

From Stdlib Require Import ZArith Lia.
From stdpp Require Import base numbers option strings list gmap.

Local Open Scope Z_scope.

(** ** Documents, voters, signatures, certificates *)

Inductive digest_algorithm_t := DIGEST_SHA1 | DIGEST_SHA256.

Definition DIGEST_LEN : Z := 20.
Definition DIGEST256_LEN : Z := 32.

(** [digests_t]: one digest per supported algorithm. *)
Record digests_t := mk_digests {
  d_sha1 : string;
  d_sha256 : string
}.

Definition digests_get (d : digests_t) (a : digest_algorithm_t) : string :=
  match a with
  | DIGEST_SHA1 => d_sha1 d
  | DIGEST_SHA256 => d_sha256 d
  end.

(** [tor_memeq] over a whole [digests_t]. *)
Definition digests_eqb (a b : digests_t) : bool :=
  bool_decide (d_sha1 a = d_sha1 b) && bool_decide (d_sha256 a = d_sha256 b).

Record document_signature_t := mk_sig {
  sig_identity_digest : string;
  signing_key_digest : string;
  alg : digest_algorithm_t;
  good_signature : bool;
  bad_signature : bool;
  signature : option string          (* NULL or the signature bytes *)
}.

Record networkstatus_voter_info_t := mk_voter {
  identity_digest : string;
  nickname : string;
  sigs : list document_signature_t
}.

Inductive networkstatus_type_t := NS_TYPE_VOTE | NS_TYPE_CONSENSUS | NS_TYPE_OPINION.

Inductive consensus_flavor_t := FLAV_NS | FLAV_MICRODESC.

Definition flavor_eqb (a b : consensus_flavor_t) : bool :=
  match a, b with
  | FLAV_NS, FLAV_NS | FLAV_MICRODESC, FLAV_MICRODESC => true
  | _, _ => false
  end.

(** The fields of [networkstatus_t] that the modelled functions read.  The
    router entries are not carried. *)
Record networkstatus_t := mk_ns {
  ns_type : networkstatus_type_t;
  flavor : consensus_flavor_t;
  valid_after : Z;
  fresh_until : Z;
  valid_until : Z;
  digests : digests_t;
  voters : list networkstatus_voter_info_t
}.

Record authority_cert_t := mk_cert {
  cert_identity_digest : string;     (* cache_info.identity_digest *)
  signing_key : string;
  expires : Z
}.

(** ** The environment: what the collaborators answer *)

Record Env := mk_env {
  (* the clock: time(NULL) *)
  now : Z;
  (* routerlist.c: the recognized v3 authorities and the certificate store *)
  v3_authorities : list string;
  authority_cert_get_by_digests : string -> string -> option authority_cert_t;
  authority_cert_dl_looks_uncertain : string -> bool;
  (* crypto.c: None is a negative return value *)
  crypto_pk_get_digest : string -> option string;
  crypto_pk_public_checksig : string -> string -> option string;
  (* routerparse.c *)
  networkstatus_parse_vote_from_string : string -> option networkstatus_t;
  (* dirserv.c: digests and publication time of a cached consensus *)
  dirserv_get_consensus : string -> option (digests_t * Z);
  (* configuration, as the option accessors report it *)
  usable_consensus_flavor : consensus_flavor_t;
  directory_caches_dir_info : bool;
  authdir_mode_v3 : bool;
  FetchUselessDescriptors : bool;
  FetchDirInfoExtraEarly : bool;
  directory_fetches_dir_info_early : bool;
  directory_fetches_dir_info_later : bool;
  (* directory.c: is the download status of this flavor's consensus ready
     for another try, and is a fetch of this resource in progress *)
  download_status_is_ready : consensus_flavor_t -> bool;
  connection_dir_get_by_purpose_and_resource : string -> bool;
  (* or.h *)
  OLD_ROUTER_DESC_MAX_AGE : Z;
  (* crypto_rand_int: the value drawn for a given bound *)
  crypto_rand_int : Z -> Z
}.

(** Modelled from the spec: [get_n_authorities(V3_DIRINFO)] and
    [trusteddirserver_get_by_v3_auth_digest] live in routerlist.c, which is
    not among the sources.  The spec's set [A] of recognized v3 authorities
    is the list [v3_authorities]; the first is its size, the second is
    membership of an identity digest. *)
Definition get_n_authorities (E : Env) : Z := Z.of_nat (length (v3_authorities E)).

Definition trusteddirserver_get_by_v3_auth_digest (E : Env) (d : string) : bool :=
  bool_decide (d ∈ v3_authorities E).

(** ** Quorum checker *)

Module Quorum.

(** [networkstatus_check_document_signature]: [None] is the return value
    -1 (the certificate does not match the signature's keys); otherwise the
    signature comes back with one of its two flags set. *)
Definition networkstatus_check_document_signature (E : Env)
    (consensus : networkstatus_t) (sig : document_signature_t)
    (cert : authority_cert_t) : option document_signature_t :=
  let dlen := match alg sig with DIGEST_SHA1 => DIGEST_LEN | _ => DIGEST256_LEN end in
  match crypto_pk_get_digest E (signing_key cert) with
  | None => None
  | Some key_digest =>
    if bool_decide (signing_key_digest sig ≠ key_digest)
       || bool_decide (sig_identity_digest sig ≠ cert_identity_digest cert)
    then None
    else
      let bad :=
        match crypto_pk_public_checksig E (signing_key cert) (default EmptyString (signature sig)) with
        | None => true
        | Some signed_digest =>
          (Z.of_nat (String.length signed_digest) <? dlen)
          || bool_decide (String.substring 0 (Z.to_nat dlen) signed_digest
                          ≠ String.substring 0 (Z.to_nat dlen) (digests_get (digests consensus) (alg sig)))
        end in
      if bad
      then Some (mk_sig (sig_identity_digest sig) (signing_key_digest sig) (alg sig)
                        (good_signature sig) true (signature sig))
      else Some (mk_sig (sig_identity_digest sig) (signing_key_digest sig) (alg sig)
                        true (bad_signature sig) (signature sig))
  end.

(** The per-voter tallies of the inner loop. *)
Record sig_tally := mk_tally {
  good_here : Z;
  bad_here : Z;
  unknown_here : Z;
  missing_key_here : Z;
  dl_failed_key_here : Z
}.

Definition tally0 : sig_tally := mk_tally 0 0 0 0 0.

Definition tally_unknown (t : sig_tally) : sig_tally :=
  mk_tally (good_here t) (bad_here t) (unknown_here t + 1) (missing_key_here t)
           (dl_failed_key_here t).

Definition tally_missing (E : Env) (sig : document_signature_t) (t : sig_tally) : sig_tally :=
  mk_tally (good_here t) (bad_here t) (unknown_here t) (missing_key_here t + 1)
           (if authority_cert_dl_looks_uncertain E (sig_identity_digest sig)
            then dl_failed_key_here t + 1 else dl_failed_key_here t).

(** The tail of the loop body: count the signature by its flags. *)
Definition tally_flags (sig : document_signature_t) (t : sig_tally) : sig_tally :=
  if good_signature sig
  then mk_tally (good_here t + 1) (bad_here t) (unknown_here t) (missing_key_here t)
                (dl_failed_key_here t)
  else if bad_signature sig
  then mk_tally (good_here t) (bad_here t + 1) (unknown_here t) (missing_key_here t)
                (dl_failed_key_here t)
  else t.

(** One turn of the loop over [voter->sigs].  [None]: the assertion that the
    signature carries its voter's identity failed. *)
Definition check_one_signature (E : Env) (consensus : networkstatus_t)
    (voter : networkstatus_voter_info_t) (sig : document_signature_t)
    (t : sig_tally) : option (sig_tally * document_signature_t) :=
  if negb (good_signature sig) && negb (bad_signature sig)
     && bool_decide (is_Some (signature sig))
  then
    let is_v3_auth := trusteddirserver_get_by_v3_auth_digest E (sig_identity_digest sig) in
    let cert := authority_cert_get_by_digests E (sig_identity_digest sig)
                                              (signing_key_digest sig) in
    if negb (bool_decide (sig_identity_digest sig = identity_digest voter))
    then None
    else if negb is_v3_auth
    then Some (tally_unknown t, sig)
    else
      match cert with
      | None => Some (tally_missing E sig t, sig)
      | Some cert =>
        if expires cert <? now E
        then Some (tally_missing E sig t, sig)
        else
          match networkstatus_check_document_signature E consensus sig cert with
          | None => Some (tally_missing E sig t, sig)
          | Some sig' => Some (tally_flags sig' t, sig')
          end
      end
  else Some (tally_flags sig t, sig).

Fixpoint check_voter_sigs (E : Env) (consensus : networkstatus_t)
    (voter : networkstatus_voter_info_t) (l : list document_signature_t)
    (t : sig_tally) : option (sig_tally * list document_signature_t) :=
  match l with
  | [] => Some (t, [])
  | sig :: rest =>
    match check_one_signature E consensus voter sig t with
    | None => None
    | Some (t1, sig1) =>
      match check_voter_sigs E consensus voter rest t1 with
      | None => None
      | Some (t2, rest1) => Some (t2, sig1 :: rest1)
      end
    end
  end.

(** The counters of the outer loop. *)
Record counters := mk_counters {
  n_good : Z;
  n_bad : Z;
  n_missing_key : Z;
  n_dl_failed_key : Z;
  n_unknown : Z;
  n_no_signature : Z
}.

Definition counters0 : counters := mk_counters 0 0 0 0 0 0.

(** The if-chain that closes the body of the loop over the voters. *)
Definition count_voter (t : sig_tally) (n : counters) : counters :=
  if negb (good_here t =? 0)
  then mk_counters (n_good n + 1) (n_bad n) (n_missing_key n) (n_dl_failed_key n)
                   (n_unknown n) (n_no_signature n)
  else if negb (bad_here t =? 0)
  then mk_counters (n_good n) (n_bad n + 1) (n_missing_key n) (n_dl_failed_key n)
                   (n_unknown n) (n_no_signature n)
  else if negb (missing_key_here t =? 0)
  then mk_counters (n_good n) (n_bad n) (n_missing_key n + 1)
                   (if negb (dl_failed_key_here t =? 0)
                    then n_dl_failed_key n + 1 else n_dl_failed_key n)
                   (n_unknown n) (n_no_signature n)
  else if negb (unknown_here t =? 0)
  then mk_counters (n_good n) (n_bad n) (n_missing_key n) (n_dl_failed_key n)
                   (n_unknown n + 1) (n_no_signature n)
  else mk_counters (n_good n) (n_bad n) (n_missing_key n) (n_dl_failed_key n)
                   (n_unknown n) (n_no_signature n + 1).

Fixpoint check_voters (E : Env) (consensus : networkstatus_t)
    (l : list networkstatus_voter_info_t) (n : counters)
    : option (counters * list networkstatus_voter_info_t) :=
  match l with
  | [] => Some (n, [])
  | voter :: rest =>
    match check_voter_sigs E consensus voter (sigs voter) tally0 with
    | None => None
    | Some (t, sigs1) =>
      match check_voters E consensus rest (count_voter t n) with
      | None => None
      | Some (n1, rest1) =>
        Some (n1, mk_voter (identity_digest voter) (nickname voter) sigs1 :: rest1)
      end
    end
  end.

Inductive log_severity := LOG_INFO | LOG_WARN.

Definition n_required (E : Env) : Z := Z.quot (get_n_authorities E) 2 + 1.

(** The severity chosen for the diagnostics: the one place where the
    count of failed certificate downloads is read. *)
Definition signature_log_severity (E : Env) (warn : Z) (n : counters) : log_severity :=
  if (warn >? 1)
     || ((warn >=? 0) && (n_good n + n_missing_key n - n_dl_failed_key n <? n_required E))
  then LOG_WARN else LOG_INFO.

(** The return statement. *)
Definition signature_verdict (E : Env) (n : counters) : Z :=
  if n_good n =? get_n_authorities E then 1
  else if n_good n >=? n_required E then 0
  else if n_good n + n_missing_key n >=? n_required E then -1
  else -2.

Record check_result := mk_check {
  verdict : Z;
  tallied : counters;
  severity : log_severity;
  checked : networkstatus_t         (* the consensus, signature flags updated *)
}.

Definition networkstatus_check_consensus_signature (E : Env)
    (consensus : networkstatus_t) (warn : Z) : option check_result :=
  match ns_type consensus with
  | NS_TYPE_CONSENSUS =>
    match check_voters E consensus (voters consensus) counters0 with
    | None => None
    | Some (n, voters1) =>
      Some (mk_check (signature_verdict E n) n (signature_log_severity E warn n)
                     (mk_ns (ns_type consensus) (flavor consensus) (valid_after consensus)
                            (fresh_until consensus) (valid_until consensus)
                            (digests consensus) voters1))
    end
  | _ => None
  end.

End Quorum.

(** ** The module-level stores of networkstatus.c *)

(** Calls into the rest of the program, in the order they are made. *)
Inductive event :=
| EvParseConsensus (body : string)
    (* networkstatus_parse_vote_from_string was called on these bytes *)
| EvControlClientStatus (msg : string)
| EvControlGeneralStatus (msg : string) (delta : Z)
| EvNotifyControlNetworkstatusChanged (old_c : option networkstatus_t) (new_c : networkstatus_t)
| EvCertsFetchMissing (c : networkstatus_t) (at_time : Z)
| EvDownloadStatusReset (flav : consensus_flavor_t)
| EvDownloadStatusFailed (flav : consensus_flavor_t) (status_code : Z)
| EvDirservSetCachedConsensus (flavor_name : string) (d : digests_t) (published : Z)
| EvDirectoryGetFromDirserver (resource : string)
    (* a consensus fetch was launched *)
| EvCall (fn : string).

(** [consensus_waiting_for_certs_t] *)
Record consensus_waiting_for_certs_t := mk_waiting {
  w_consensus : option networkstatus_t;
  w_body : option string;
  set_at : Z;
  dl_failed : bool
}.

Definition waiting_empty : consensus_waiting_for_certs_t := mk_waiting None None 0 false.

(** The two-element arrays indexed by flavor are pairs of fields. *)
Record dir_state := mk_state {
  current_ns_consensus : option networkstatus_t;
  current_md_consensus : option networkstatus_t;
  waiting_ns : consensus_waiting_for_certs_t;      (* consensus_waiting_for_certs[FLAV_NS] *)
  waiting_md : consensus_waiting_for_certs_t;      (* consensus_waiting_for_certs[FLAV_MICRODESC] *)
  next_download_ns : Z;                            (* time_to_download_next_consensus[FLAV_NS] *)
  next_download_md : Z;
  datadir : gmap string string;
  trace : list event
}.

Definition initial_state : dir_state :=
  mk_state None None waiting_empty waiting_empty 0 0 ∅ [].

Definition networkstatus_get_latest_consensus_by_flavor (st : dir_state)
    (f : consensus_flavor_t) : option networkstatus_t :=
  match f with
  | FLAV_NS => current_ns_consensus st
  | FLAV_MICRODESC => current_md_consensus st
  end.

(** The macro [current_consensus]: the consensus of the flavor we use for
    our own circuits, which is the flavor [usable_consensus_flavor]
    reports. *)
Definition current_consensus (E : Env) (st : dir_state) : option networkstatus_t :=
  networkstatus_get_latest_consensus_by_flavor st (usable_consensus_flavor E).

Definition get_waiting (st : dir_state) (f : consensus_flavor_t) : consensus_waiting_for_certs_t :=
  match f with
  | FLAV_NS => waiting_ns st
  | FLAV_MICRODESC => waiting_md st
  end.

Definition time_to_download_next_consensus (st : dir_state) (f : consensus_flavor_t) : Z :=
  match f with
  | FLAV_NS => next_download_ns st
  | FLAV_MICRODESC => next_download_md st
  end.

Definition set_current (f : consensus_flavor_t) (c : option networkstatus_t)
    (st : dir_state) : dir_state :=
  match f with
  | FLAV_NS =>
    mk_state c (current_md_consensus st) (waiting_ns st) (waiting_md st)
             (next_download_ns st) (next_download_md st) (datadir st) (trace st)
  | FLAV_MICRODESC =>
    mk_state (current_ns_consensus st) c (waiting_ns st) (waiting_md st)
             (next_download_ns st) (next_download_md st) (datadir st) (trace st)
  end.

Definition set_waiting (f : consensus_flavor_t) (w : consensus_waiting_for_certs_t)
    (st : dir_state) : dir_state :=
  match f with
  | FLAV_NS =>
    mk_state (current_ns_consensus st) (current_md_consensus st) w (waiting_md st)
             (next_download_ns st) (next_download_md st) (datadir st) (trace st)
  | FLAV_MICRODESC =>
    mk_state (current_ns_consensus st) (current_md_consensus st) (waiting_ns st) w
             (next_download_ns st) (next_download_md st) (datadir st) (trace st)
  end.

Definition set_next_download (f : consensus_flavor_t) (t : Z) (st : dir_state) : dir_state :=
  match f with
  | FLAV_NS =>
    mk_state (current_ns_consensus st) (current_md_consensus st) (waiting_ns st)
             (waiting_md st) t (next_download_md st) (datadir st) (trace st)
  | FLAV_MICRODESC =>
    mk_state (current_ns_consensus st) (current_md_consensus st) (waiting_ns st)
             (waiting_md st) (next_download_ns st) t (datadir st) (trace st)
  end.

Definition emit (e : event) (st : dir_state) : dir_state :=
  mk_state (current_ns_consensus st) (current_md_consensus st) (waiting_ns st)
           (waiting_md st) (next_download_ns st) (next_download_md st) (datadir st)
           (trace st ++ [e]).

(** [write_str_to_file] and [unlink] on a path under the data directory. *)
Definition write_str_to_file (fname content : string) (st : dir_state) : dir_state :=
  mk_state (current_ns_consensus st) (current_md_consensus st) (waiting_ns st)
           (waiting_md st) (next_download_ns st) (next_download_md st)
           (<[fname := content]> (datadir st)) (trace st).

Definition unlink (fname : string) (st : dir_state) : dir_state :=
  mk_state (current_ns_consensus st) (current_md_consensus st) (waiting_ns st)
           (waiting_md st) (next_download_ns st) (next_download_md st)
           (delete fname (datadir st)) (trace st).

Definition when (b : bool) (f : dir_state -> dir_state) (st : dir_state) : dir_state :=
  if b then f st else st.

Definition N_CONSENSUS_FLAVORS : Z := 2.

Definition flavor_to_int (f : consensus_flavor_t) : Z :=
  match f with FLAV_NS => 0 | FLAV_MICRODESC => 1 end.

Definition networkstatus_get_flavor_name (f : consensus_flavor_t) : string :=
  match f with FLAV_NS => "ns" | FLAV_MICRODESC => "microdesc" end.

(** [None] is the return value -1: the flavor is not recognized. *)
Definition networkstatus_parse_flavor_name (flavname : string) : option consensus_flavor_t :=
  if bool_decide (flavname = "ns") then Some FLAV_NS
  else if bool_decide (flavname = "microdesc") then Some FLAV_MICRODESC
  else None.

(** A consensus is live at [t]. *)
Definition is_live (c : networkstatus_t) (t : Z) : bool :=
  (valid_after c <=? t) && (t <=? valid_until c).

(** ** Download scheduler: when to replace the current consensus *)

Module Scheduler.

Definition CONSENSUS_MIN_SECONDS_BEFORE_CACHING : Z := 120.

Definition we_want_to_fetch_flavor (E : Env) (flavor : Z) : bool :=
  if (flavor <? 0) || (flavor >? N_CONSENSUS_FLAVORS) then false
  else if authdir_mode_v3 E || directory_caches_dir_info E then true
  else if FetchUselessDescriptors E then true
  else flavor =? flavor_to_int (usable_consensus_flavor E).

(** The cast [(int)dl_interval] on a platform with 32-bit [int]. *)
Definition int_of_long (x : Z) : Z := (x + 2 ^ 31) mod 2 ^ 32 - 2 ^ 31.

(** The computation of [start] and [dl_interval] for a live consensus [c],
    up to and including the clamp [dl_interval >= 1]. *)
Definition fetch_window (E : Env) (c : networkstatus_t) : Z * Z :=
  let interval := fresh_until c - valid_after c in
  let min_sec_before_caching :=
    if CONSENSUS_MIN_SECONDS_BEFORE_CACHING >? interval ÷ 16
    then interval ÷ 16 else CONSENSUS_MIN_SECONDS_BEFORE_CACHING in
  let '(start, dl_interval) :=
    if directory_fetches_dir_info_early E then
      (fresh_until c + min_sec_before_caching,
       if FetchDirInfoExtraEarly E || authdir_mode_v3 E
       then (if min_sec_before_caching + 60 >? interval then interval ÷ 2 else 60)
       else interval ÷ 2)
    else
      let start := fresh_until c + (interval * 3) ÷ 4 in
      let dl_interval := ((valid_until c - start) * 7) ÷ 8 in
      if directory_fetches_dir_info_later E then
        let start1 := start + dl_interval + min_sec_before_caching in
        (start1, (valid_until c - start1) - min_sec_before_caching)
      else (start, dl_interval) in
  (start, if dl_interval <? 1 then 1 else dl_interval).

(** [update_consensus_networkstatus_fetch_time_impl].  [None]: one of the
    two assertions on the window failed. *)
Definition update_consensus_networkstatus_fetch_time_impl (E : Env) (t : Z)
    (flav : consensus_flavor_t) (st : dir_state) : option dir_state :=
  let c := networkstatus_get_latest_consensus_by_flavor st flav in
  if negb (we_want_to_fetch_flavor E (flavor_to_int flav)) then Some st
  else
    match c with
    | Some c =>
      if is_live c t then
        let '(start, dl_interval) := fetch_window E c in
        if negb (fresh_until c <? start) then None
        else if negb (start + dl_interval <? valid_until c) then None
        else Some (set_next_download flav
                     (start + crypto_rand_int E (int_of_long dl_interval)) st)
      else Some (set_next_download flav t st)
    | None => Some (set_next_download flav t st)
    end.

(** [update_consensus_networkstatus_fetch_time]: the loop over the flavors. *)
Definition update_consensus_networkstatus_fetch_time (E : Env) (t : Z)
    (st : dir_state) : option dir_state :=
  st1 ← (if we_want_to_fetch_flavor E (flavor_to_int FLAV_NS)
         then update_consensus_networkstatus_fetch_time_impl E t FLAV_NS st
         else Some st);
  if we_want_to_fetch_flavor E (flavor_to_int FLAV_MICRODESC)
  then update_consensus_networkstatus_fetch_time_impl E t FLAV_MICRODESC st1
  else Some st1.

Definition CONSENSUS_NETWORKSTATUS_MAX_DL_TRIES : Z := 8.
Definition DELAY_WHILE_FETCHING_CERTS : Z := 20 * 60.

(** One turn of the loop of [update_consensus_networkstatus_downloads].
    The flag is [true] when the turn ends in [return], which leaves the
    loop, rather than in [continue]. *)
Definition downloads_for_flavor (E : Env) (t : Z) (f : consensus_flavor_t)
    (st : dir_state) : bool * dir_state :=
  if negb (we_want_to_fetch_flavor E (flavor_to_int f)) then (false, st)
  else
    let st :=
      match networkstatus_get_latest_consensus_by_flavor st f with
      | Some c => if is_live c t then st else set_next_download f t st
      | None => set_next_download f t st
      end in
    if time_to_download_next_consensus st f >? t then (true, st)
    else if negb (download_status_is_ready E f) then (false, st)
    else if connection_dir_get_by_purpose_and_resource E (networkstatus_get_flavor_name f)
    then (false, st)
    else
      let waiting := get_waiting st f in
      match w_consensus waiting with
      | Some _ =>
        if set_at waiting + DELAY_WHILE_FETCHING_CERTS >? t then (false, st)
        else
          let st :=
            if negb (dl_failed waiting)
            then set_waiting f (mk_waiting (w_consensus waiting) (w_body waiting)
                                           (set_at waiting) true)
                             (emit (EvDownloadStatusFailed f 0) st)
            else st in
          (false, emit (EvDirectoryGetFromDirserver (networkstatus_get_flavor_name f)) st)
      | None =>
        (false, emit (EvDirectoryGetFromDirserver (networkstatus_get_flavor_name f)) st)
      end.

(** [update_consensus_networkstatus_downloads] *)
Definition update_consensus_networkstatus_downloads (E : Env) (t : Z)
    (st : dir_state) : dir_state :=
  let '(stop, st1) := downloads_for_flavor E t FLAV_NS st in
  if stop then st1 else (downloads_for_flavor E t FLAV_MICRODESC st1).2.

End Scheduler.

(** ** Consensus store: the install protocol *)

Module Store.

(** Modelled from the spec: the [NSSET_*] bits are declared in
    networkstatus.h, which is not among the sources.  The spec lists the
    flags FromCache, WasWaitingForCerts, DontDownloadCerts, AcceptObsolete
    and RequireFlavor; each is one bit of the [flags] argument. *)
Definition NSSET_FROM_CACHE : Z := 1.
Definition NSSET_WAS_WAITING_FOR_CERTS : Z := 2.
Definition NSSET_DONT_DOWNLOAD_CERTS : Z := 4.
Definition NSSET_ACCEPT_OBSOLETE : Z := 8.
Definition NSSET_REQUIRE_FLAVOR : Z := 16.

(** [flags & mask], read as a truth value. *)
Definition flag_set (flags mask : Z) : bool := negb (Z.land flags mask =? 0).

Definition EARLY_CONSENSUS_NOTICE_SKEW : Z := 60.

(** The file names of a flavor and what is known of the current consensus
    of that flavor: [(consensus_fname, unverified_fname, current_digests,
    current_valid_after)].  [current_valid_after] stays 0 when there is no
    current consensus. *)
Definition flavor_files_and_current (E : Env) (flavname : string) (st : dir_state)
    : string * string * option digests_t * Z :=
  if bool_decide (flavname = "ns") then
    ("cached-consensus", "unverified-consensus",
     digests <$> current_ns_consensus st,
     from_option valid_after 0 (current_ns_consensus st))
  else if bool_decide (flavname = "microdesc") then
    ("cached-microdesc-consensus", "unverified-microdesc-consensus",
     digests <$> current_md_consensus st,
     from_option valid_after 0 (current_md_consensus st))
  else
    ("cached-" +:+ flavname +:+ "-consensus", "unverified-" +:+ flavname +:+ "-consensus",
     fst <$> dirserv_get_consensus E flavname,
     from_option snd 0 (dirserv_get_consensus E flavname)).

(** The branch taken when the quorum check answers -1: park the consensus. *)
Definition park_consensus (E : Env) (consensus : string) (flav : consensus_flavor_t)
    (unverified_fname : string) (from_cache dl_certs : bool)
    (c : networkstatus_t) (st : dir_state) : dir_state :=
  let st := set_waiting flav (mk_waiting (Some c) (Some consensus) (now E) false) st in
  let st := when (negb from_cache) (write_str_to_file unverified_fname consensus) st in
  when dl_certs (emit (EvCertsFetchMissing c (now E))) st.

(** Eviction of a parked consensus that is not newer than the installed
    one. *)
Definition evict_waiting (flav : consensus_flavor_t) (unverified_fname : string)
    (c : networkstatus_t) (st : dir_state) : dir_state :=
  match w_consensus (get_waiting st flav) with
  | Some wc =>
    if valid_after wc <=? valid_after c
    then unlink unverified_fname (set_waiting flav (mk_waiting None None 0 false) st)
    else st
  | None => st
  end.

(** Everything after a quorum check that answered 0 or 1.  [None]: an
    assertion of the fetch-time update failed. *)
Definition install_consensus (E : Env) (consensus flavname : string)
    (flav : consensus_flavor_t) (consensus_fname unverified_fname : string)
    (from_cache dl_certs : bool) (r : Z) (c : networkstatus_t) (st : dir_state)
    : option dir_state :=
  let usable := flavor_eqb flav (usable_consensus_flavor E) in
  let st := when (negb from_cache && usable)
                 (emit (EvControlClientStatus "CONSENSUS_ARRIVED")) st in
  let st := when (negb (r =? 1) && dl_certs) (emit (EvCertsFetchMissing c (now E))) st in
  let st := when usable
                 (emit (EvNotifyControlNetworkstatusChanged (current_consensus E st) c)) st in
  let st := set_current flav (Some c) st in
  let st := evict_waiting flav unverified_fname c st in
  let st := if is_live c (now E) then emit (EvDownloadStatusReset flav) st
            else when (negb from_cache) (emit (EvDownloadStatusFailed flav 0)) st in
  st ← (if usable then
          st1 ← Scheduler.update_consensus_networkstatus_fetch_time E (now E) st;
          Some (emit (EvCall "circuit_build_times_new_consensus_params")
               (emit (EvCall "connection_or_update_token_buckets")
               (emit (EvCall "cell_ewma_set_scale_factor")
               (emit (EvCall "routerstatus_list_update_named_server_map")
               (emit (EvCall "dirvote_recalculate_timing")
               (emit (EvCall "nodelist_set_consensus") st1))))))
        else Some st);
  let st := when (directory_caches_dir_info E)
                 (emit (EvDirservSetCachedConsensus flavname (digests c) (valid_after c))) st in
  let st := when (negb from_cache) (write_str_to_file consensus_fname consensus) st in
  let st := when (now E <? valid_after c - EARLY_CONSENSUS_NOTICE_SKEW)
                 (emit (EvControlGeneralStatus "CLOCK_SKEW SOURCE=CONSENSUS"
                                               (now E - valid_after c))) st in
  Some (emit (EvCall "router_dir_info_changed") st).

(** What the checks that precede the quorum check decide: the value to
    return at once, or the flavor, its name, the two file names and the
    [valid_after] of the current consensus (0 when there is none) with
    which the call goes on. *)
Inductive gate_result :=
| GateReject (r : Z)
| GatePass (flav : consensus_flavor_t) (flavname consensus_fname unverified_fname : string)
           (current_valid_after : Z).

(** From the flavor comparison down to the test for a stale document. *)
Definition consensus_gates (E : Env) (c : networkstatus_t) (flav0 : consensus_flavor_t)
    (flavname : string) (flags : Z) (st : dir_state) : gate_result :=
  let from_cache := flag_set flags NSSET_FROM_CACHE in
  let accept_obsolete := flag_set flags NSSET_ACCEPT_OBSOLETE in
  let require_flavor := flag_set flags NSSET_REQUIRE_FLAVOR in
  let mismatch := negb (flavor_eqb (flavor c) flav0) in
  if mismatch && require_flavor then GateReject (-1)
  else
    let flav := if mismatch then flavor c else flav0 in
    let flavname := if mismatch then networkstatus_get_flavor_name flav else flavname in
    if negb (flavor_eqb flav (usable_consensus_flavor E))
       && negb (directory_caches_dir_info E)
    then GateReject (-1)
    else if from_cache && negb accept_obsolete
            && (valid_until c <? now E - OLD_ROUTER_DESC_MAX_AGE E)
    then GateReject (-1)
    else
      let '(consensus_fname, unverified_fname, current_digests, current_valid_after) :=
        flavor_files_and_current E flavname st in
      if match current_digests with
         | Some d => digests_eqb (digests c) d
         | None => false
         end
      then GateReject (-1)
      else if negb (current_valid_after =? 0) && (valid_after c <=? current_valid_after)
      then GateReject (-1)
      else GatePass flav flavname consensus_fname unverified_fname current_valid_after.

(** [networkstatus_set_current_consensus]: the return value and the new
    state, or [None] when an assertion aborts the process. *)
Definition networkstatus_set_current_consensus (E : Env) (consensus flavname : string)
    (flags : Z) (st : dir_state) : option (Z * dir_state) :=
  let from_cache := flag_set flags NSSET_FROM_CACHE in
  let was_waiting_for_certs := flag_set flags NSSET_WAS_WAITING_FOR_CERTS in
  let dl_certs := negb (flag_set flags NSSET_DONT_DOWNLOAD_CERTS) in
  match networkstatus_parse_flavor_name flavname with
  | None => Some (-2, st)
  | Some flav0 =>
    let st := emit (EvParseConsensus consensus) st in
    match networkstatus_parse_vote_from_string E consensus with
    | None => Some (-2, st)
    | Some c =>
      match consensus_gates E c flav0 flavname flags st with
      | GateReject r => Some (r, st)
      | GatePass flav flavname consensus_fname unverified_fname current_valid_after =>
        chk ← Quorum.networkstatus_check_consensus_signature E c 1;
        let r := Quorum.verdict chk in
        let c := Quorum.checked chk in
        if r <? 0 then
          if r =? -1 then
            if (current_valid_after =? 0) || (valid_after c >? current_valid_after)
            then Some (0, park_consensus E consensus flav unverified_fname
                                         from_cache dl_certs c st)
            else Some (-1, when (was_waiting_for_certs && from_cache)
                                (unlink unverified_fname) st)
          else
            Some (if negb was_waiting_for_certs then -2 else -1,
                  when (was_waiting_for_certs && (r <? -1) && from_cache)
                       (unlink unverified_fname) st)
        else
          st1 ← install_consensus E consensus flavname flav consensus_fname
                                  unverified_fname from_cache dl_certs r c st;
          Some (0, st1)
      end
    end
  end.

(** One turn of the loop of [networkstatus_note_certs_arrived]: check the
    parked consensus again (its signature flags are updated in place) and,
    when it is signed enough now, hand its bytes back to
    [networkstatus_set_current_consensus].  [None]: an assertion failed, or
    the parked consensus has lost its bytes and the parser would be given
    NULL. *)
Definition certs_arrived_for_flavor (E : Env) (f : consensus_flavor_t)
    (st : dir_state) : option dir_state :=
  let waiting := get_waiting st f in
  match w_consensus waiting with
  | None => Some st
  | Some wc =>
    chk ← Quorum.networkstatus_check_consensus_signature E wc 0;
    let st := set_waiting f (mk_waiting (Some (Quorum.checked chk)) (w_body waiting)
                                        (set_at waiting) (dl_failed waiting)) st in
    if Quorum.verdict chk >=? 0 then
      match w_body waiting with
      | None => None
      | Some body =>
        res ← networkstatus_set_current_consensus E body (networkstatus_get_flavor_name f)
                                                  NSSET_WAS_WAITING_FOR_CERTS st;
        if res.1 =? 0
        then Some (set_waiting f (mk_waiting (w_consensus (get_waiting res.2 f)) None
                                             (set_at (get_waiting res.2 f))
                                             (dl_failed (get_waiting res.2 f))) res.2)
        else Some res.2
      end
    else Some st
  end.

(** [networkstatus_note_certs_arrived] *)
Definition networkstatus_note_certs_arrived (E : Env) (st : dir_state) : option dir_state :=
  st1 ← certs_arrived_for_flavor E FLAV_NS st;
  certs_arrived_for_flavor E FLAV_MICRODESC st1.

(** What [networkstatus_free_all] does to the consensus stores. *)
Definition networkstatus_free_all (st : dir_state) : dir_state :=
  let drop (w : consensus_waiting_for_certs_t) :=
    mk_waiting None None (set_at w) (dl_failed w) in
  mk_state None None (drop (waiting_ns st)) (drop (waiting_md st))
           (next_download_ns st) (next_download_md st) (datadir st) (trace st).

(** The states the stores can reach from the empty ones through the
    functions that write them, each call in an environment of its own. *)
Inductive reachable : dir_state -> Prop :=
| reachable_init : reachable initial_state
| reachable_set (E : Env) (consensus flavname : string) (flags r : Z) (st st1 : dir_state) :
    reachable st ->
    networkstatus_set_current_consensus E consensus flavname flags st = Some (r, st1) ->
    reachable st1
| reachable_certs_arrived (E : Env) (st st1 : dir_state) :
    reachable st ->
    networkstatus_note_certs_arrived E st = Some st1 ->
    reachable st1
| reachable_downloads (E : Env) (t : Z) (st : dir_state) :
    reachable st ->
    reachable (Scheduler.update_consensus_networkstatus_downloads E t st)
| reachable_free_all (st : dir_state) :
    reachable st ->
    reachable (networkstatus_free_all st).

End Store.

(** ** The v2 per-authority status cache *)

Module V2.

Inductive v2_networkstatus_source_t := NS_FROM_CACHE | NS_FROM_DIR_BY_FP | NS_FROM_DIR_ALL | NS_GENERATED.

Definition source_eqb (a b : v2_networkstatus_source_t) : bool :=
  match a, b with
  | NS_FROM_CACHE, NS_FROM_CACHE | NS_FROM_DIR_BY_FP, NS_FROM_DIR_BY_FP
  | NS_FROM_DIR_ALL, NS_FROM_DIR_ALL | NS_GENERATED, NS_GENERATED => true
  | _, _ => false
  end.

(** The fields of a router entry of a v2 status that the function touches. *)
Record routerstatus_t := mk_rs {
  descriptor_digest : string;
  need_to_mirror : bool
}.

Record networkstatus_v2_t := mk_v2 {
  v2_identity_digest : string;
  networkstatus_digest : string;
  published_on : Z;
  received_on : Z;
  source_address : string;
  source_dirport : Z;
  entries : list routerstatus_t
}.

Record trusted_dir_server_t := mk_ds {
  description : string;
  is_v2_authority : bool             (* type & V2_DIRINFO *)
}.

Record V2Env := mk_v2env {
  v2_now : Z;
  directory_caches_v2_dir_info : bool;
  networkstatus_v2_parse_from_string : string -> option networkstatus_v2_t;
  router_get_trusteddirserver_by_digest : string -> option trusted_dir_server_t;
  router_digest_is_me : string -> bool;
  (* routerlist.c: last_listed_as_valid_until of the descriptor with this digest *)
  router_get_by_descriptor_digest : string -> option Z;
  (* base16_encode of an identity digest *)
  hex_str : string -> string
}.

Inductive v2_event :=
| V2ControlGeneralStatus (msg : string) (delta : Z) (addr : string) (port : Z)
| V2DirservSetCachedNetworkstatus (s identity : string) (published : Z)
| V2TouchFile (fname : string)
| V2DownloadStatusFailed (identity : string) (status_code : Z)
| V2DownloadStatusReset (identity : string)
| V2DescriptorListedUntil (digest : string) (live_until : Z).

Record v2_state := mk_v2state {
  networkstatus_v2_list : list networkstatus_v2_t;
  networkstatus_v2_list_has_changed : bool;
  v2_datadir : gmap string string;
  v2_trace : list v2_event
}.

Definition v2_emit (e : v2_event) (st : v2_state) : v2_state :=
  mk_v2state (networkstatus_v2_list st) (networkstatus_v2_list_has_changed st)
             (v2_datadir st) (v2_trace st ++ [e]).

Definition v2_set_list (l : list networkstatus_v2_t) (st : v2_state) : v2_state :=
  mk_v2state l (networkstatus_v2_list_has_changed st) (v2_datadir st) (v2_trace st).

Definition NETWORKSTATUS_ALLOW_SKEW : Z := 24 * 60 * 60.
Definition V2_NETWORKSTATUS_ROUTER_LIFETIME : Z := 3 * 60 * 60.

Definition networkstatus_get_cache_filename (E : V2Env) (identity : string) : string :=
  "cached-status/" +:+ hex_str E identity.

(** [add_networkstatus_to_cache]: the disk cache and the directory
    server's in-memory cache. *)
Definition add_networkstatus_to_cache (E : V2Env) (s : string)
    (source : v2_networkstatus_source_t) (ns : networkstatus_v2_t)
    (st : v2_state) : v2_state :=
  let st :=
    if negb (source_eqb source NS_FROM_CACHE)
    then mk_v2state (networkstatus_v2_list st) (networkstatus_v2_list_has_changed st)
                    (<[networkstatus_get_cache_filename E (v2_identity_digest ns) := s]>
                       (v2_datadir st))
                    (v2_trace st)
    else st in
  if directory_caches_v2_dir_info E
  then v2_emit (V2DirservSetCachedNetworkstatus s (v2_identity_digest ns) (published_on ns)) st
  else st.

(** The test that opens the clock-skew branch. *)
Definition published_in_future (E : V2Env) (ns : networkstatus_v2_t) : bool :=
  published_on ns >? v2_now E + NETWORKSTATUS_ALLOW_SKEW.

(** What the loop over [networkstatus_v2_list] finds for the authority of
    [ns]. *)
Inductive scan_result :=
| ScanSame (i : nat)                         (* same document at index i *)
| ScanHaveNewer (i : nat)                    (* ours is at least as recent *)
| ScanReplace (i : nat)                      (* slot i is to be overwritten *)
| ScanNotFound.

Fixpoint scan_v2_list (l : list networkstatus_v2_t) (ns : networkstatus_v2_t)
    (i : nat) : scan_result :=
  match l with
  | [] => ScanNotFound
  | old_ns :: rest =>
    if bool_decide (v2_identity_digest old_ns = v2_identity_digest ns) then
      if bool_decide (networkstatus_digest old_ns = networkstatus_digest ns)
      then ScanSame i
      else if published_on old_ns >=? published_on ns then ScanHaveNewer i
      else ScanReplace i
    else scan_v2_list rest ns (S i)
  end.

(** The loop over [ns->entries]: extend the lifetime of descriptors we
    hold, mark the others for mirroring. *)
Fixpoint note_entries (E : V2Env) (live_until : Z) (l : list routerstatus_t)
    (st : v2_state) : list routerstatus_t * v2_state :=
  match l with
  | [] => ([], st)
  | rs :: rest =>
    match router_get_by_descriptor_digest E (descriptor_digest rs) with
    | Some last_listed =>
      let st := if last_listed <? live_until
                then v2_emit (V2DescriptorListedUntil (descriptor_digest rs) live_until) st
                else st in
      let '(rest1, st1) := note_entries E live_until rest st in
      (rs :: rest1, st1)
    | None =>
      let '(rest1, st1) := note_entries E live_until rest st in
      (mk_rs (descriptor_digest rs) true :: rest1, st1)
    end
  end.

(** [smartlist_sort] with [_compare_networkstatus_v2_published_on]; the
    order among equal publication times is the one of an insertion sort. *)
Fixpoint insert_by_published (x : networkstatus_v2_t) (l : list networkstatus_v2_t)
    : list networkstatus_v2_t :=
  match l with
  | [] => [x]
  | y :: rest =>
    if published_on x <? published_on y then x :: y :: rest
    else y :: insert_by_published x rest
  end.

Definition sort_by_published (l : list networkstatus_v2_t) : list networkstatus_v2_t :=
  foldr insert_by_published [] l.

Definition set_received_on (t : Z) (ns : networkstatus_v2_t) : networkstatus_v2_t :=
  mk_v2 (v2_identity_digest ns) (networkstatus_digest ns) (published_on ns) t
        (source_address ns) (source_dirport ns) (entries ns).

Definition set_entries (l : list routerstatus_t) (ns : networkstatus_v2_t) : networkstatus_v2_t :=
  mk_v2 (v2_identity_digest ns) (networkstatus_digest ns) (published_on ns) (received_on ns)
        (source_address ns) (source_dirport ns) l.

(** [router_set_networkstatus_v2]: the return value, the new state and
    what is left of [requested_fingerprints]. *)
Definition router_set_networkstatus_v2 (E : V2Env) (s : string) (arrived_at : Z)
    (source : v2_networkstatus_source_t) (requested_fingerprints : option (list string))
    (st : v2_state) : Z * v2_state * option (list string) :=
  if negb (directory_caches_v2_dir_info E) then (0, st, requested_fingerprints)
  else
    match networkstatus_v2_parse_from_string E s with
    | None => (-1, st, requested_fingerprints)
    | Some ns =>
      let fp := hex_str E (v2_identity_digest ns) in
      let trusted_dir := router_get_trusteddirserver_by_digest E (v2_identity_digest ns) in
      let arrived_at := if arrived_at >? v2_now E then v2_now E else arrived_at in
      let ns := set_received_on arrived_at ns in
      let skewed := published_in_future E ns in
      let st :=
        if skewed
        then v2_emit (V2ControlGeneralStatus "CLOCK_SKEW SOURCE=NETWORKSTATUS"
                        (v2_now E - published_on ns) (source_address ns) (source_dirport ns)) st
        else st in
      if (source_eqb source NS_FROM_DIR_BY_FP || source_eqb source NS_FROM_DIR_ALL)
         && router_digest_is_me E (v2_identity_digest ns)
      then (0, st, requested_fingerprints)
      else
        let requested_hit :=
          match requested_fingerprints with
          | Some l => bool_decide (fp ∈ l)
          | None => true
          end in
        let requested1 :=
          match requested_fingerprints with
          | Some l => Some (filter (λ x, x ≠ fp) l)
          | None => None
          end in
        if negb requested_hit && negb (source_eqb source NS_FROM_DIR_ALL)
        then (0, st, requested_fingerprints)
        else
          match trusted_dir with
          | None =>
            (0, if negb skewed then add_networkstatus_to_cache E s source ns st else st,
             requested1)
          | Some ds =>
            match scan_v2_list (networkstatus_v2_list st) ns 0 with
            | ScanSame i =>
              let old_received := from_option received_on 0 (networkstatus_v2_list st !! i) in
              let st :=
                if old_received <? arrived_at then
                  let st := if negb (source_eqb source NS_FROM_CACHE)
                            then v2_emit (V2TouchFile (networkstatus_get_cache_filename E
                                                         (v2_identity_digest ns))) st
                            else st in
                  v2_set_list (alter (set_received_on arrived_at) i (networkstatus_v2_list st)) st
                else st in
              (0, v2_emit (V2DownloadStatusFailed (v2_identity_digest ns) 0) st, requested1)
            | ScanHaveNewer _ =>
              (0, v2_emit (V2DownloadStatusFailed (v2_identity_digest ns) 0) st, requested1)
            | found =>
              let st := if negb (source_eqb source NS_FROM_CACHE)
                        then v2_emit (V2DownloadStatusReset (v2_identity_digest ns)) st
                        else st in
              let '(entries1, st) :=
                note_entries E (published_on ns + V2_NETWORKSTATUS_ROUTER_LIFETIME)
                             (entries ns) st in
              let ns := set_entries entries1 ns in
              let l := match found with
                       | ScanReplace i => <[i := ns]> (networkstatus_v2_list st)
                       | _ => networkstatus_v2_list st ++ [ns]
                       end in
              let st := mk_v2state (sort_by_published l) true (v2_datadir st) (v2_trace st) in
              (0, if negb skewed then add_networkstatus_to_cache E s source ns st else st,
               requested1)
            end
          end
    end.

End V2.

(** [networkstatus_get_reasonably_live_consensus] *)
Definition REASONABLY_LIVE_TIME : Z := 24 * 60 * 60.

Definition networkstatus_get_reasonably_live_consensus (st : dir_state) (t : Z)
    (f : consensus_flavor_t) : option networkstatus_t :=
  match networkstatus_get_latest_consensus_by_flavor st f with
  | Some c =>
    if (valid_after c <=? t) && (t <=? valid_until c + REASONABLY_LIVE_TIME)
    then Some c else None
  | None => None
  end.

(** ** The microdescriptor cache *)

Module Microdesc.

Inductive saved_location_t := SAVED_NOWHERE | SAVED_IN_CACHE | SAVED_IN_JOURNAL.

Definition saved_location_eqb (a b : saved_location_t) : bool :=
  match a, b with
  | SAVED_NOWHERE, SAVED_NOWHERE | SAVED_IN_CACHE, SAVED_IN_CACHE
  | SAVED_IN_JOURNAL, SAVED_IN_JOURNAL => true
  | _, _ => false
  end.

(** [microdesc_t].  The pointer [body] is an address (0 is NULL);
    [body_content] is what can be read there.  Values of type [size_t] or
    [unsigned] are in [N]. *)
Record microdesc_t := mk_md {
  md_digest : string;
  last_listed : Z;
  saved_location : saved_location_t;
  no_save : bool;
  held_in_map : bool;
  held_by_nodes : Z;
  off : Z;
  body : Z;
  body_content : string;
  bodylen : N
}.

(** [tor_mmap_t] *)
Record tor_mmap_t := mk_mmap {
  data : Z;                          (* address of the first mapped byte *)
  size : N;
  mapped : string                    (* the bytes of the mapping *)
}.

(** [microdesc_cache_t] with the two files it names.  The hash table is the
    list of its elements in iteration order. *)
Record microdesc_cache_t := mk_cache {
  map : list microdesc_t;
  cache_content : option tor_mmap_t;
  journal_len : N;
  bytes_dropped : N;
  total_len_seen : N;
  n_seen : N;
  cache_file : option string;        (* cached-microdescs on disk *)
  journal_file : option string       (* cached-microdescs.new on disk *)
}.

(** How a write to the replacement file ends. *)
Inductive write_outcome :=
| WriteOk
| WriteFailed (written : string).    (* the bytes that reached the file *)

(** The platform and the I/O layer. *)
Record IoEnv := mk_io {
  io_now : Z;
  size_bits : N;                                 (* width of size_t *)
  format_iso_time : Z -> string;
  start_writing_to_stdio_file : bool;            (* false: it returned NULL *)
  fputs_outcome : string -> write_outcome;       (* the annotation of the descriptor
                                                    with this digest *)
  fwrite_outcome : string -> write_outcome;      (* its body *)
  finish_writing_to_file : bool;                 (* false: the file was not replaced *)
  mmap_address : string -> option Z              (* tor_mmap_file: None is NULL *)
}.

(** Addition in [size_t]. *)
Definition size_add (E : IoEnv) (a b : N) : N := ((a + b) mod 2 ^ size_bits E)%N.

Definition strlen (s : string) : Z := Z.of_nat (String.length s).

Definition newline : string := String (Ascii.ascii_of_nat 10) EmptyString.

Definition TOLERATE_MICRODESC_AGE : Z := 7 * 24 * 60 * 60.

(** The loop of [microdesc_cache_clean]: the survivors, the number of
    descriptors dropped and the bytes dropped. *)
Fixpoint clean_loop (E : IoEnv) (cutoff : Z) (l : list microdesc_t)
    : list microdesc_t * Z * N :=
  match l with
  | [] => ([], 0, 0%N)
  | md :: rest =>
    let '(kept, dropped, bytes) := clean_loop E cutoff rest in
    if last_listed md <? cutoff
    then (kept, dropped + 1, size_add E (bodylen md) bytes)
    else (md :: kept, dropped, bytes)
  end.

Definition microdesc_cache_clean (E : IoEnv) (ds : dir_state) (cache : microdesc_cache_t)
    (cutoff : Z) (force : bool) : microdesc_cache_t :=
  if negb force
     && negb (bool_decide (is_Some
               (networkstatus_get_reasonably_live_consensus ds (io_now E) FLAV_MICRODESC)))
  then cache
  else
    let cutoff := if cutoff <=? 0 then io_now E - TOLERATE_MICRODESC_AGE else cutoff in
    let '(kept, dropped, bytes) := clean_loop E cutoff (map cache) in
    mk_cache kept (cache_content cache) (journal_len cache)
             (if negb (dropped =? 0) then size_add E (bytes_dropped cache) bytes
              else bytes_dropped cache)
             (total_len_seen cache) (n_seen cache) (cache_file cache) (journal_file cache).

Definition should_rebuild_md_cache (E : IoEnv) (cache : microdesc_cache_t) : bool :=
  let old_len := from_option size 0%N (cache_content cache) in
  let journal_len := journal_len cache in
  let dropped := bytes_dropped cache in
  if (journal_len <? 16384)%N then false
  else if (size_add E journal_len old_len / 3 <? dropped)%N then true
  else if (old_len / 2 <? journal_len)%N then true
  else false.

Definition set_off (o : Z) (md : microdesc_t) : microdesc_t :=
  mk_md (md_digest md) (last_listed md) (saved_location md) (no_save md) (held_in_map md)
        (held_by_nodes md) o (body md) (body_content md) (bodylen md).

(** [dump_microdescriptor] on a file whose content so far is [out]: the
    return value (-1 on failure), [*annotation_len_out], the descriptor
    with its new [off], and the content of the file afterwards. *)
Definition dump_microdescriptor (E : IoEnv) (out : string) (md : microdesc_t)
    : Z * Z * microdesc_t * string :=
  let annotation :=
    if negb (last_listed md =? 0)
    then "@last-listed " +:+ format_iso_time E (last_listed md) +:+ newline
    else EmptyString in
  match (if negb (last_listed md =? 0) then fputs_outcome E (md_digest md) else WriteOk) with
  | WriteFailed written => (-1, 0, md, out +:+ written)
  | WriteOk =>
    let out := out +:+ annotation in
    let md := set_off (strlen out) md in
    match fwrite_outcome E (md_digest md) with
    | WriteFailed written => (-1, strlen annotation, md, out +:+ written)
    | WriteOk =>
      (strlen annotation + Z.of_N (bodylen md), strlen annotation, md,
       out +:+ String.substring 0 (N.to_nat (bodylen md)) (body_content md))
    end
  end.

(** The loop of the rebuild over the hash table.  Each descriptor comes
    back with a mark: [true] when it was added to [wrote].  The assertion
    [size == annotation_len + md->bodylen] of the loop body holds by the
    value [dump_microdescriptor] returns on success. *)
Fixpoint rebuild_loop (E : IoEnv) (l : list microdesc_t) (off : Z) (out : string)
    : list (microdesc_t * bool) * string :=
  match l with
  | [] => ([], out)
  | md :: rest =>
    if no_save md then
      let '(rest1, out1) := rebuild_loop E rest off out in
      ((md, false) :: rest1, out1)
    else
      let '(sz, annotation_len, md1, out1) := dump_microdescriptor E out md in
      if sz <? 0 then
        let '(rest1, out2) := rebuild_loop E rest off out1 in
        ((md1, false) :: rest1, out2)
      else
        let md2 :=
          if negb (saved_location_eqb (saved_location md1) SAVED_IN_CACHE)
          then mk_md (md_digest md1) (last_listed md1) SAVED_IN_CACHE (no_save md1)
                     (held_in_map md1) (held_by_nodes md1) (off + annotation_len)
                     0 EmptyString (bodylen md1)
          else set_off (off + annotation_len) md1 in
        let '(rest1, out2) := rebuild_loop E rest (off + sz) out1 in
        ((md2, true) :: rest1, out2)
  end.

(** [tor_mmap_file] on a file with this content. *)
Definition tor_mmap_file (E : IoEnv) (file : option string) : option tor_mmap_t :=
  match file with
  | None => None
  | Some s =>
    match mmap_address E s with
    | None => None
    | Some base => Some (mk_mmap base (N.of_nat (String.length s)) s)
    end
  end.

(** The loop over [wrote]: point each body into the new mapping and check
    that it starts a microdescriptor.  [None]: the assertion failed. *)
Fixpoint rebind_loop (mm : tor_mmap_t) (l : list (microdesc_t * bool))
    : option (list microdesc_t) :=
  match l with
  | [] => Some []
  | (md, false) :: rest => rest1 ← rebind_loop mm rest; Some (md :: rest1)
  | (md, true) :: rest =>
    if negb (saved_location_eqb (saved_location md) SAVED_IN_CACHE) then None
    else if negb (bool_decide (String.substring (Z.to_nat (off md)) 9 (mapped mm) = "onion-key"))
    then None
    else
      rest1 ← rebind_loop mm rest;
      Some (mk_md (md_digest md) (last_listed md) (saved_location md) (no_save md)
                  (held_in_map md) (held_by_nodes md) (off md) (data mm + off md)
                  (String.substring (Z.to_nat (off md)) (N.to_nat (bodylen md)) (mapped mm))
                  (bodylen md) :: rest1)
  end.

(** The rebuild proper: everything in [microdesc_cache_rebuild] after the
    test that decides whether to rebuild.  The result is the return value
    and the cache afterwards; [None] is a failed assertion. *)
Definition rebuild_cache_file (E : IoEnv) (cache : microdesc_cache_t)
    : option (Z * microdesc_cache_t) :=
  if negb (start_writing_to_stdio_file E) then Some (-1, cache)
  else
    let '(marked, out) := rebuild_loop E (map cache) 0 EmptyString in
    let file := if finish_writing_to_file E then Some out else cache_file cache in
    let mm := tor_mmap_file E file in
    let any_wrote := existsb snd marked in
    match mm with
    | None =>
      if any_wrote
      then Some (-1, mk_cache (fst <$> marked) None (journal_len cache) (bytes_dropped cache)
                              (total_len_seen cache) (n_seen cache) file (journal_file cache))
      else Some (0, mk_cache (fst <$> marked) None 0%N 0%N
                             (total_len_seen cache) (n_seen cache) file (Some EmptyString))
    | Some m =>
      map1 ← rebind_loop m marked;
      Some (0, mk_cache map1 (Some m) 0%N 0%N (total_len_seen cache) (n_seen cache)
                        file (Some EmptyString))
    end.

(** [microdesc_cache_rebuild] on a cache that exists: clean, decide,
    rebuild. *)
Definition microdesc_cache_rebuild (E : IoEnv) (ds : dir_state) (cache : microdesc_cache_t)
    (force : bool) : option (Z * microdesc_cache_t) :=
  let cache := microdesc_cache_clean E ds cache 0 false in
  if negb force && negb (should_rebuild_md_cache E cache) then Some (0, cache)
  else rebuild_cache_file E cache.

End Microdesc.
From Stdlib Require Import Sorted.

(** ** More of the v2 status cache *)

Module V2More.

Import V2.

(** The loop of [networkstatus_v2_get_by_digest]. *)
Fixpoint v2_get_by_digest_loop (l : list networkstatus_v2_t) (digest : string)
    : option networkstatus_v2_t :=
  match l with
  | [] => None
  | ns :: rest =>
    if bool_decide (v2_identity_digest ns = digest) then Some ns
    else v2_get_by_digest_loop rest digest
  end.

(** [networkstatus_v2_get_by_digest], once [networkstatus_v2_list] has been
    allocated. *)
Definition networkstatus_v2_get_by_digest (st : v2_state) (digest : string)
    : option networkstatus_v2_t :=
  v2_get_by_digest_loop (networkstatus_v2_list st) digest.

End V2More.

(** ** Expiry of v2 statuses *)

Module V2Clean.

Import V2.

(** Calls into dirserv.c made while the list is cleaned. *)
Inductive dirserv_call :=
| DirservUncacheNetworkstatusV2 (identity : string)
    (* dirserv_set_cached_networkstatus_v2(NULL, identity, 0) *)
| DirservClearOldNetworkstatuses (cutoff : Z)
| DirservClearOldV1Info (t : Z).

Section Clean.

(** [MAX_NETWORKSTATUS_AGE] is defined in or.h and [smartlist_del] in
    container.c; neither file is among the sources, so both are
    parameters here. *)
Variable MAX_NETWORKSTATUS_AGE : Z.
Variable smartlist_del : list networkstatus_v2_t -> nat -> list networkstatus_v2_t.

(** The loop of [networkstatus_v2_list_clean] from index [i] on.  A turn
    either moves on to the next index or deletes the element at [i] and
    looks at the same index again ([smartlist_del(list, i--)] followed by
    [++i]); [fuel] bounds the number of turns. *)
Fixpoint v2_list_clean_loop (E : V2Env) (t : Z) (fuel i : nat) (st : v2_state)
    (calls : list dirserv_call) : v2_state * list dirserv_call :=
  match fuel with
  | O => (st, calls)
  | S fuel =>
    match networkstatus_v2_list st !! i with
    | None => (st, calls)
    | Some ns =>
      if published_on ns + MAX_NETWORKSTATUS_AGE >? t
      then v2_list_clean_loop E t fuel (S i) st calls
      else
        let st := v2_set_list (smartlist_del (networkstatus_v2_list st) i) st in
        let fname := networkstatus_get_cache_filename E (v2_identity_digest ns) in
        (* file_status(fname) == FN_FILE, then unlink(fname) *)
        let st := mk_v2state (networkstatus_v2_list st) (networkstatus_v2_list_has_changed st)
                             (delete fname (v2_datadir st)) (v2_trace st) in
        let calls := if directory_caches_v2_dir_info E
                     then calls ++ [DirservUncacheNetworkstatusV2 (v2_identity_digest ns)]
                     else calls in
        v2_list_clean_loop E t fuel i st calls
    end
  end.

(** [networkstatus_v2_list_clean], once the list has been allocated: the
    state afterwards and the calls made into dirserv.c.  The loop is given
    as many turns as the list is long. *)
Definition networkstatus_v2_list_clean (E : V2Env) (t : Z) (st : v2_state)
    : v2_state * list dirserv_call :=
  let '(st1, calls) :=
    v2_list_clean_loop E t (length (networkstatus_v2_list st)) 0 st [] in
  (st1, calls ++ [DirservClearOldNetworkstatuses (t - MAX_NETWORKSTATUS_AGE);
                  DirservClearOldV1Info t]).

End Clean.

End V2Clean.

(** ** More of the microdescriptor cache *)

Module MicrodescMore.

Import Microdesc.

(** [HT_FIND] on the table: [_microdesc_eq] compares the digests. *)
Fixpoint ht_find (l : list microdesc_t) (digest : string) : option microdesc_t :=
  match l with
  | [] => None
  | md :: rest =>
    if bool_decide (md_digest md = digest) then Some md else ht_find rest digest
  end.

(** [microdesc_cache_lookup_by_digest256] on a cache that exists. *)
Definition microdesc_cache_lookup_by_digest256 (cache : microdesc_cache_t) (d : string)
    : option microdesc_t :=
  ht_find (map cache) d.

Definition set_last_listed (t : Z) (md : microdesc_t) : microdesc_t :=
  mk_md (md_digest md) t (saved_location md) (no_save md) (held_in_map md)
        (held_by_nodes md) (off md) (body md) (body_content md) (bodylen md).

(** The entry found for [digest] gets its [last_listed] raised to [t] when
    it is older; the entry is changed in place. *)
Fixpoint ht_raise_last_listed (l : list microdesc_t) (digest : string) (t : Z)
    : list microdesc_t :=
  match l with
  | [] => []
  | md :: rest =>
    if bool_decide (md_digest md = digest)
    then (if last_listed md <? t then set_last_listed t md else md) :: rest
    else md :: ht_raise_last_listed rest digest t
  end.

Definition set_map (l : list microdesc_t) (cache : microdesc_cache_t) : microdesc_cache_t :=
  mk_cache l (cache_content cache) (journal_len cache) (bytes_dropped cache)
           (total_len_seen cache) (n_seen cache) (cache_file cache) (journal_file cache).

(** [x += n] for [x] of type [size_t] and [n] of type [ssize_t]. *)
Definition size_add_signed (E : IoEnv) (x : N) (n : Z) : N :=
  Z.to_N ((Z.of_N x + n) mod 2 ^ Z.of_N (size_bits E)).

(** Calls into the node list and the router list. *)
Inductive md_call :=
| NodelistAddMicrodesc (digest : string)
| RouterDirInfoChanged.

(** The descriptor as it is put into the table. *)
Definition inserted (loc : saved_location_t) (no_save : bool) (md : microdesc_t)
    : microdesc_t :=
  mk_md (md_digest md) (last_listed md) loc no_save true (held_by_nodes md) (off md)
        (body md) (body_content md) (bodylen md).

(** The loop of [microdescs_add_list_to_cache].  [f] tells whether the
    journal is open for appending, [out] is what the journal holds so far
    and [size] the local variable of that name.  The list [added] holds
    pointers to entries of the table: it is kept as the digests of these
    entries, so that a later change of an entry is seen through the list as
    it is in C.  The result is whether the loop was left by [return] after
    a failed dump, the cache, the list [added] and the journal.  A new
    descriptor is put last in the table; the order in which the table is
    walked is not specified by the hash table. *)
Fixpoint add_list_loop (E : IoEnv) (where_ : saved_location_t) (no_save f : bool)
    (descriptors : list microdesc_t) (cache : microdesc_cache_t)
    (added : list string) (size : Z) (out : string)
    : bool * microdesc_cache_t * list string * string :=
  match descriptors with
  | [] => (false, cache, added, out)
  | md :: rest =>
    match ht_find (map cache) (md_digest md) with
    | Some _ =>
      let cache := set_map (ht_raise_last_listed (map cache) (md_digest md) (last_listed md))
                           cache in
      let cache :=
        if negb (saved_location_eqb where_ SAVED_NOWHERE)
        then mk_cache (map cache) (cache_content cache) (journal_len cache)
                      (size_add_signed E (bytes_dropped cache) size)
                      (total_len_seen cache) (n_seen cache) (cache_file cache)
                      (journal_file cache)
        else cache in
      add_list_loop E where_ no_save f rest cache added size out
    | None =>
      let count (md1 : microdesc_t) (journal_len1 : N) (cache : microdesc_cache_t) :=
        mk_cache (map cache ++ [md1]) (cache_content cache) journal_len1
                 (bytes_dropped cache)
                 ((total_len_seen cache + bodylen md1) mod 2 ^ 64)%N
                 ((n_seen cache + 1) mod 2 ^ 32)%N
                 (cache_file cache) (journal_file cache) in
      if f then
        let '(sz, _, md1, out1) := dump_microdescriptor E out md in
        if sz <? 0 then (true, cache, [], out1)
        else
          let md2 := inserted SAVED_IN_JOURNAL no_save md1 in
          add_list_loop E where_ no_save f rest
            (count md2 (size_add_signed E (journal_len cache) sz) cache)
            (added ++ [md_digest md2]) sz out1
      else
        let md2 := inserted where_ no_save md in
        add_list_loop E where_ no_save f rest (count md2 (journal_len cache) cache)
          (added ++ [md_digest md2]) size out
    end
  end.

(** [microdescs_add_list_to_cache]: the list returned ([None] is NULL), the
    cache afterwards and the calls made.  The journal is opened with
    [OPEN_FLAGS_APPEND]: what the dumps have written is in the file,
    whether the writing is finished or aborted. *)
Definition microdescs_add_list_to_cache (E : IoEnv) (env : Env) (ds : dir_state)
    (cache : microdesc_cache_t) (descriptors : list microdesc_t)
    (where_ : saved_location_t) (no_save : bool)
    : option (list string) * microdesc_cache_t * list md_call :=
  let f := saved_location_eqb where_ SAVED_NOWHERE && negb no_save in
  if f && negb (start_writing_to_stdio_file E) then (None, cache, [])
  else
    let '(aborted, cache1, added, out) :=
      add_list_loop E where_ no_save f descriptors cache [] 0
                    (default EmptyString (journal_file cache)) in
    let cache1 :=
      if f
      then mk_cache (map cache1) (cache_content cache1) (journal_len cache1)
                    (bytes_dropped cache1) (total_len_seen cache1) (n_seen cache1)
                    (cache_file cache1) (Some out)
      else cache1 in
    if aborted then (Some added, cache1, [])
    else
      let calls :=
        match current_consensus env ds with
        | Some ns =>
          if flavor_eqb (flavor ns) FLAV_MICRODESC
          then NodelistAddMicrodesc <$> added
          else []
        | None => []
        end in
      (Some added, cache1,
       if bool_decide (added = []) then calls else calls ++ [RouterDirInfoChanged]).

(** [microdesc_average_size] *)
Definition microdesc_average_size (E : IoEnv) (cache : microdesc_cache_t) : N :=
  if (n_seen cache =? 0)%N then 512%N
  else ((total_len_seen cache / n_seen cache) mod 2 ^ size_bits E)%N.

(** The fields of a router entry of a consensus that microdesc.c reads;
    [rs_dl_ready] is what [download_status_is_ready] answers for the
    entry's download status. *)
Record md_routerstatus_t := mk_mdrs {
  rs_descriptor_digest : string;
  rs_dl_ready : bool
}.

(** [tor_mem_is_zero] *)
Definition tor_mem_is_zero (s : string) : bool :=
  forallb (fun c => bool_decide (c = Ascii.zero)) (String.list_ascii_of_string s).

(** [digestmap_get]: a digest map is keyed by the first [DIGEST_LEN] bytes
    of the digest it is given. *)
Definition digestmap_get (m : gset string) (d : string) : bool :=
  bool_decide (String.substring 0 (Z.to_nat DIGEST_LEN) d ∈ m).

(** The loop of [microdesc_list_missing_digest256] over
    [ns->routerstatus_list]. *)
Fixpoint list_missing_loop (cache : microdesc_cache_t) (downloadable_only : bool)
    (skip : option (gset string)) (l : list md_routerstatus_t) : list string :=
  match l with
  | [] => []
  | rs :: rest =>
    let more := list_missing_loop cache downloadable_only skip rest in
    if bool_decide (is_Some (microdesc_cache_lookup_by_digest256 cache
                               (rs_descriptor_digest rs)))
    then more
    else if downloadable_only && negb (rs_dl_ready rs) then more
    else if match skip with
            | Some m => digestmap_get m (rs_descriptor_digest rs)
            | None => false
            end
    then more
    else if tor_mem_is_zero (rs_descriptor_digest rs) then more
    else rs_descriptor_digest rs :: more
  end.

(** [microdesc_list_missing_digest256] for the consensus [ns] with the
    router entries [routerstatus_list].  [None]: the consensus is not of
    the microdesc flavor and the assertion fails. *)
Definition microdesc_list_missing_digest256 (ns : networkstatus_t)
    (routerstatus_list : list md_routerstatus_t) (cache : microdesc_cache_t)
    (downloadable_only : bool) (skip : option (gset string)) : option (list string) :=
  if negb (flavor_eqb (flavor ns) FLAV_MICRODESC) then None
  else Some (list_missing_loop cache downloadable_only skip routerstatus_list).

(** [update_microdescs_from_networkstatus].  The router entries of a
    consensus are not part of [networkstatus_t] above; [routerstatus_list]
    gives them for a consensus.  [None]: the assertion on the flavor
    fails. *)
Definition update_microdescs_from_networkstatus
    (routerstatus_list : networkstatus_t -> list md_routerstatus_t)
    (ds : dir_state) (t : Z) (cache : microdesc_cache_t) : option microdesc_cache_t :=
  match networkstatus_get_reasonably_live_consensus ds t FLAV_MICRODESC with
  | None => Some cache
  | Some ns =>
    if negb (flavor_eqb (flavor ns) FLAV_MICRODESC) then None
    else
      Some (set_map
              (foldl (fun l rs =>
                        ht_raise_last_listed l (rs_descriptor_digest rs) (valid_after ns))
                     (map cache) (routerstatus_list ns))
              cache)
  end.

End MicrodescMore.

(** ** Which descriptors and which consensus flavor a node uses *)

Module MicrodescConfig.

(** The options that the four functions at the end of microdesc.c read,
    and what the functions of other modules that they call answer. *)
Record md_options := mk_md_options {
  UseMicrodescriptors : Z;           (* -1 is "auto" *)
  UseBridges : bool;
  FetchUselessDescriptors : bool;
  any_bridges_dont_support_microdescriptors : bool;
  server_mode : bool;
  directory_caches_dir_info : bool
}.

(** The truth value of a C [int]. *)
Definition truthy (x : Z) : bool := negb (x =? 0).

Definition we_use_microdescriptors_for_circuits (options : md_options) : Z :=
  let ret := UseMicrodescriptors options in
  if ret =? -1 then
    if UseBridges options && any_bridges_dont_support_microdescriptors options then 0
    else if negb (server_mode options) && negb (FetchUselessDescriptors options) then 1
    else 0
  else ret.

Definition we_fetch_microdescriptors (options : md_options) : Z :=
  if directory_caches_dir_info options then 1
  else if FetchUselessDescriptors options then 1
  else we_use_microdescriptors_for_circuits options.

Definition we_fetch_router_descriptors (options : md_options) : Z :=
  if directory_caches_dir_info options then 1
  else if FetchUselessDescriptors options then 1
  else if truthy (we_use_microdescriptors_for_circuits options) then 0 else 1.

Definition usable_consensus_flavor (options : md_options) : consensus_flavor_t :=
  if truthy (we_use_microdescriptors_for_circuits options) then FLAV_MICRODESC
  else FLAV_NS.

End MicrodescConfig.

(** ** Parameters of a consensus *)

Module Params.

(** The cast [(int32_t) v]. *)
Definition to_int32 (v : Z) : Z := (v + 2 ^ 31) mod 2 ^ 32 - 2 ^ 31.

(** The character ['=']. *)
Definition equals_sign : Ascii.ascii := Ascii.ascii_of_nat 61.

Section Lookup.

(** util.c: [tor_parse_long] of a string in base 10 with the limits
    [INT32_MIN] and [INT32_MAX]; [None] when it sets [ok] to 0. *)
Variable tor_parse_long : string -> option Z.

(** [ns->net_params]; [None] is NULL. *)
Variable net_params : networkstatus_t -> option (list string).

(** The loop of [get_net_param_from_list]: [res] afterwards.  The test
    [!strcmpstart(p, param_name)] holds when [p] starts with
    [param_name]. *)
Fixpoint net_param_loop (params : list string) (param_name : string) (res : Z) : Z :=
  match params with
  | [] => res
  | p :: rest =>
    let name_len := String.length param_name in
    if String.prefix param_name p
       && bool_decide (String.get name_len p = Some equals_sign)
    then
      match tor_parse_long
              (String.substring (name_len + 1) (String.length p - (name_len + 1)) p) with
      | Some v => to_int32 v
      | None => net_param_loop rest param_name res
      end
    else net_param_loop rest param_name res
  end.

(** [get_net_param_from_list]; [None]: one of the three assertions
    fails. *)
Definition get_net_param_from_list (params : list string) (param_name : string)
    (default_val min_val max_val : Z) : option Z :=
  if negb (min_val <? max_val) then None
  else if negb (min_val <=? default_val) then None
  else if negb (default_val <=? max_val) then None
  else
    let res := net_param_loop params param_name default_val in
    Some (if res <? min_val then min_val
          else if max_val <? res then max_val
          else res).

(** [networkstatus_get_param]; [ns = None] is a NULL argument. *)
Definition networkstatus_get_param (E : Env) (st : dir_state) (ns : option networkstatus_t)
    (param_name : string) (default_val min_val max_val : Z) : option Z :=
  let ns := match ns with Some c => Some c | None => current_consensus E st end in
  match ns with
  | None => Some default_val
  | Some c =>
    match net_params c with
    | None => Some default_val
    | Some params => get_net_param_from_list params param_name default_val min_val max_val
    end
  end.

End Lookup.

End Params.

(** ** Reading the cached consensuses at startup *)

Module Reload.

Import Store.

(** The file that [options->FallbackNetworkstatusFile] names, which lies
    outside the data directory: [fallback_mtime] is the [st_mtime] that
    [stat] reports ([None]: [stat] fails), [fallback_content] what
    [read_file_to_str] returns for it. *)
Record fallback_file := mk_fallback {
  fallback_mtime : option Z;
  fallback_content : option string
}.

(** [if (s) { networkstatus_set_current_consensus(s, flavor, flags); }]:
    the value returned only chooses a log message. *)
Definition load_consensus (E : Env) (s : option string) (flavname : string) (flags : Z)
    (st : dir_state) : option dir_state :=
  match s with
  | None => Some st
  | Some s =>
    res ← networkstatus_set_current_consensus E s flavname flags st;
    Some res.2
  end.

(** One turn of the loop of [router_reload_consensus_networkstatus]. *)
Definition reload_flavor (E : Env) (flav : consensus_flavor_t) (st : dir_state)
    : option dir_state :=
  let flags := Z.lor NSSET_FROM_CACHE NSSET_DONT_DOWNLOAD_CERTS in
  let flavor := networkstatus_get_flavor_name flav in
  let filename := if flavor_eqb flav FLAV_NS then "cached-consensus"
                  else "cached-" +:+ flavor +:+ "-consensus" in
  st ← load_consensus E (datadir st !! filename) flavor flags st;
  let filename := if flavor_eqb flav FLAV_NS then "unverified-consensus"
                  else "unverified-" +:+ flavor +:+ "-consensus" in
  load_consensus E (datadir st !! filename) flavor
                 (Z.lor flags NSSET_WAS_WAITING_FOR_CERTS) st.

(** [update_certificate_downloads] *)
Definition update_certificate_downloads (t : Z) (st : dir_state) : dir_state :=
  let fetch (c : option networkstatus_t) (st : dir_state) :=
    match c with
    | Some c => emit (EvCertsFetchMissing c t) st
    | None => st
    end in
  let st := fetch (w_consensus (waiting_ns st)) st in
  let st := fetch (w_consensus (waiting_md st)) st in
  let st := fetch (current_ns_consensus st) st in
  fetch (current_md_consensus st) st.

(** [router_reload_consensus_networkstatus].  The two maps of router names
    that it creates when there is no consensus are not part of the state.
    [None]: an assertion failed in one of the calls. *)
Definition router_reload_consensus_networkstatus (E : Env) (fallback : fallback_file)
    (st : dir_state) : option dir_state :=
  let flags := Z.lor NSSET_FROM_CACHE NSSET_DONT_DOWNLOAD_CERTS in
  st ← reload_flavor E FLAV_NS st;
  st ← reload_flavor E FLAV_MICRODESC st;
  st ← (if match current_consensus E st with
           | None => true
           | Some c =>
             match fallback_mtime fallback with
             | Some mtime => valid_after c <? mtime
             | None => false
             end
           end
        then load_consensus E (fallback_content fallback) "ns"
                            (Z.lor flags NSSET_ACCEPT_OBSOLETE) st
        else Some st);
  let st := update_certificate_downloads (now E) st in
  Some (emit (EvCall "update_microdescs_from_networkstatus")
          (emit (EvCall "routers_update_all_from_networkstatus") st)).

End Reload.

(** ** Downloads of v2 statuses by a directory server *)

Module V2Download.

Definition AUTHORITY_NS_CACHE_INTERVAL : Z := 10 * 60.
Definition NONAUTHORITY_NS_CACHE_INTERVAL : Z := 60 * 60.

(** A trusted directory server, as the function reads it. *)
Record dir_server_t := mk_dir_server {
  ds_v2_dirinfo : bool;              (* ds->type & V2_DIRINFO *)
  ds_digest : string;
  ds_addr : Z;
  ds_dir_port : Z
}.

(** The requests that the function launches. *)
Inductive dl_request :=
| FetchFromAuthority (digest resource : string)
    (* directory_initiate_command_routerstatus on ds->fake_status *)
| FetchFromAny (resource : string).
    (* directory_get_from_dirserver *)

(** What the function asks of other modules.  The two questions about
    open connections are answered knowing the requests launched so far. *)
Record DownloadEnv := mk_dl_env {
  authdir_mode_v2 : bool;
  router_get_trusted_dir_servers : list dir_server_t;
  dl_router_digest_is_me : string -> bool;
  connection_get_by_type_addr_port_purpose : list dl_request -> Z -> Z -> bool;
  connection_get_by_type_purpose : list dl_request -> bool;
  base16_encode : string -> string
}.

Record dl_state := mk_dl_state {
  last_networkstatus_download_attempted : Z;
  requests : list dl_request
}.

(** The loop of an authority over the trusted directory servers. *)
Fixpoint authority_fetch_loop (E : DownloadEnv) (servers : list dir_server_t)
    (reqs : list dl_request) : list dl_request :=
  match servers with
  | [] => reqs
  | ds :: rest =>
    if negb (ds_v2_dirinfo ds) then authority_fetch_loop E rest reqs
    else if dl_router_digest_is_me E (ds_digest ds) then authority_fetch_loop E rest reqs
    else if connection_get_by_type_addr_port_purpose E reqs (ds_addr ds) (ds_dir_port ds)
    then authority_fetch_loop E rest reqs
    else
      authority_fetch_loop E rest
        (reqs ++ [FetchFromAuthority (ds_digest ds)
                    ("fp/" +:+ base16_encode E (ds_digest ds) +:+ ".z")])
  end.

Definition cache_interval (E : DownloadEnv) : Z :=
  if authdir_mode_v2 E then AUTHORITY_NS_CACHE_INTERVAL else NONAUTHORITY_NS_CACHE_INTERVAL.

(** [update_v2_networkstatus_cache_downloads] *)
Definition update_v2_networkstatus_cache_downloads (E : DownloadEnv) (t : Z)
    (st : dl_state) : dl_state :=
  let interval := cache_interval E in
  if last_networkstatus_download_attempted st + interval >=? t then st
  else if authdir_mode_v2 E
  then mk_dl_state t (authority_fetch_loop E (router_get_trusted_dir_servers E) (requests st))
  else if negb (connection_get_by_type_purpose E (requests st))
  then mk_dl_state t (requests st ++ [FetchFromAny "all.z"])
  else mk_dl_state t (requests st).

End V2Download.

(** ** The buckets of the quorum checker, as the specification words them *)

Module QuorumSpec.

Import Quorum.

(** What the checker makes of one signature: one whose flag is already set
    keeps it; one without signature bytes counts for nothing; an unchecked
    one is looked at in the order unknown authority, missing certificate
    (absent, expired or not matching), then verified. *)
Inductive sig_class := SigGood | SigBad | SigMissing | SigUnknown | SigNothing.

Definition sig_class_eqb (a b : sig_class) : bool :=
  match a, b with
  | SigGood, SigGood | SigBad, SigBad | SigMissing, SigMissing
  | SigUnknown, SigUnknown | SigNothing, SigNothing => true
  | _, _ => false
  end.

Definition classify_signature (E : Env) (consensus : networkstatus_t)
    (sig : document_signature_t) : sig_class :=
  if good_signature sig then SigGood
  else if bad_signature sig then SigBad
  else
    match signature sig with
    | None => SigNothing
    | Some _ =>
      if negb (trusteddirserver_get_by_v3_auth_digest E (sig_identity_digest sig))
      then SigUnknown
      else
        match authority_cert_get_by_digests E (sig_identity_digest sig)
                                            (signing_key_digest sig) with
        | None => SigMissing
        | Some cert =>
          if expires cert <? now E then SigMissing
          else
            match networkstatus_check_document_signature E consensus sig cert with
            | None => SigMissing
            | Some sig1 => if good_signature sig1 then SigGood else SigBad
            end
        end
    end.

Inductive bucket := BGood | BBad | BMissing | BUnknown | BNoSignature.

Definition bucket_eqb (a b : bucket) : bool :=
  match a, b with
  | BGood, BGood | BBad, BBad | BMissing, BMissing
  | BUnknown, BUnknown | BNoSignature, BNoSignature => true
  | _, _ => false
  end.

Definition has_class (E : Env) (consensus : networkstatus_t) (k : sig_class)
    (voter : networkstatus_voter_info_t) : bool :=
  existsb (λ sig, sig_class_eqb (classify_signature E consensus sig) k) (sigs voter).

(** A voter matches a bucket when one of its signatures is of that kind;
    every voter matches "no signature". *)
Definition matches (E : Env) (consensus : networkstatus_t)
    (voter : networkstatus_voter_info_t) (b : bucket) : bool :=
  match b with
  | BGood => has_class E consensus SigGood voter
  | BBad => has_class E consensus SigBad voter
  | BMissing => has_class E consensus SigMissing voter
  | BUnknown => has_class E consensus SigUnknown voter
  | BNoSignature => true
  end.

(** The first bucket of [order] that the voter matches. *)
Fixpoint first_match (E : Env) (consensus : networkstatus_t)
    (voter : networkstatus_voter_info_t) (order : list bucket) : bucket :=
  match order with
  | [] => BNoSignature
  | b :: rest => if matches E consensus voter b then b else first_match E consensus voter rest
  end.

(** The order the code follows, and the order the specification gives. *)
Definition code_order : list bucket := [BGood; BBad; BMissing; BUnknown; BNoSignature].
Definition spec_order : list bucket := [BUnknown; BMissing; BBad; BGood; BNoSignature].

(** How many voters of [l] fall into bucket [b] under [order]. *)
Fixpoint count_bucket (E : Env) (consensus : networkstatus_t) (order : list bucket)
    (b : bucket) (l : list networkstatus_voter_info_t) : Z :=
  match l with
  | [] => 0
  | voter :: rest =>
    (if bucket_eqb (first_match E consensus voter order) b then 1 else 0)
    + count_bucket E consensus order b rest
  end.

(** The counters of the checker are the sizes of the buckets under
    [order]. *)
Definition counts_follow (E : Env) (consensus : networkstatus_t) (order : list bucket)
    (n : counters) : Prop :=
  n_good n = count_bucket E consensus order BGood (voters consensus)
  /\ n_bad n = count_bucket E consensus order BBad (voters consensus)
  /\ n_missing_key n = count_bucket E consensus order BMissing (voters consensus)
  /\ n_unknown n = count_bucket E consensus order BUnknown (voters consensus)
  /\ n_no_signature n = count_bucket E consensus order BNoSignature (voters consensus).

(** The two assertions of the checker: the document is a consensus, and
    every signature carries the identity of its voter. *)
Definition assertions_hold (consensus : networkstatus_t) : bool :=
  match ns_type consensus with NS_TYPE_CONSENSUS => true | _ => false end
  && forallb (λ voter,
       forallb (λ sig, bool_decide (sig_identity_digest sig = identity_digest voter))
               (sigs voter))
     (voters consensus).

(** The quorum [Q] of the specification: floor(|A|/2) + 1. *)
Definition quorum (E : Env) : Z := get_n_authorities E / 2 + 1.

(** When the checker answers "enough", in the specification's words. *)
Definition enough_as_specified (E : Env) (n : counters) : Prop :=
  n_good n < get_n_authorities E /\ quorum E <= n_good n.

(** When the checker answers "need more certs", in the specification's
    words: neither all good nor enough, and both sums reach the quorum. *)
Definition need_more_certs_as_specified (E : Env) (n : counters) : Prop :=
  n_good n <> get_n_authorities E /\ ~ quorum E <= n_good n
  /\ quorum E <= n_good n + n_missing_key n
  /\ quorum E <= n_good n + n_missing_key n - n_dl_failed_key n.

(** 1 for true, 0 for false. *)
Definition ind (b : bool) : Z := if b then 1 else 0.

(** How many signatures of [l] are of class [k]. *)
Fixpoint count_class (E : Env) (consensus : networkstatus_t) (k : sig_class)
    (l : list document_signature_t) : Z :=
  match l with
  | [] => 0
  | sig :: rest =>
    ind (sig_class_eqb (classify_signature E consensus sig) k) + count_class E consensus k rest
  end.

End QuorumSpec.

(** ** Concrete inputs *)

Module Examples.

Definition digest_a : string := "aaaaaaaaaaaaaaaaaaaaaaaaaaaaaaaaaaaaaaaa".
Definition digest_b : string := "bbbbbbbbbbbbbbbbbbbbbbbbbbbbbbbbbbbbbbbb".

(** One recognized authority, "auth1".  Its certificate for the signing
    key "key1" is present when [with_cert] holds; the digest of a key is
    the key itself, and a signature "verifies" to its own bytes.  With
    [cache] the node is a directory cache that fetches early. *)
Definition env_one (t : Z) (with_cert uncertain cache : bool)
    (parse : string -> option networkstatus_t) : Env :=
  mk_env t ["auth1"]
    (λ id key, if with_cert && bool_decide (key = "key1")
               then Some (mk_cert id key (t + 1000)) else None)
    (λ _, uncertain)
    (λ k, Some k) (λ _ sg, Some sg)
    parse (λ _, None)
    FLAV_NS cache false false false cache false (λ _, true) (λ _, false) 432000 (λ _, 0).

Definition sig_of (id key bytes : string) : document_signature_t :=
  mk_sig id key DIGEST_SHA1 false false (Some bytes).

Definition consensus_with (d : string) (t : Z) (vs : list networkstatus_voter_info_t)
    : networkstatus_t :=
  mk_ns NS_TYPE_CONSENSUS FLAV_NS t (t + 3600) (t + 10800) (mk_digests d d) vs.

Definition consensus_of (t : Z) (vs : list networkstatus_voter_info_t) : networkstatus_t :=
  consensus_with digest_a t vs.

(** "auth1" signs with "key1", for which the certificate may be known, or
    with "key0", for which it never is. *)
Definition voter_signed (d : string) : networkstatus_voter_info_t :=
  mk_voter "auth1" "one" [sig_of "auth1" "key1" d].

Definition voter_no_cert (d : string) : networkstatus_voter_info_t :=
  mk_voter "auth1" "one" [sig_of "auth1" "key0" d].

(** A voter with two signatures: no certificate for the first, the second
    verifies. *)
Definition voter_missing_then_good : networkstatus_voter_info_t :=
  mk_voter "auth1" "one" [sig_of "auth1" "key0" digest_a; sig_of "auth1" "key1" digest_a].

(** No certificate is known and certificate downloads look uncertain. *)
Definition env_no_cert : Env := env_one 1000 false true false (λ _, None).
(** The certificate for "key1" is known. *)
Definition env_with_cert : Env := env_one 1000 true true false (λ _, None).

(** One voter, valid from 900, fresh until 4500, valid until 11700. *)
Definition consensus_one : networkstatus_t := consensus_of 900 [voter_signed digest_a].

(** The same authority listed twice. *)
Definition consensus_twice_good : networkstatus_t :=
  consensus_of 900 [voter_signed digest_a; voter_signed digest_a].
Definition consensus_missing_then_good : networkstatus_t :=
  consensus_of 900 [voter_missing_then_good].

(** A directory cache, which fetches early. *)
Definition env_cache : Env := env_one 1000 true true true (λ _, None).

(** A consensus of a network that votes every ten seconds. *)
Definition consensus_fast : networkstatus_t :=
  mk_ns NS_TYPE_CONSENSUS FLAV_NS 1000 1010 1030 (mk_digests digest_a digest_a)
        [voter_signed digest_a].

(** Documents for the store. *)
Definition consensus_need_certs : networkstatus_t :=
  consensus_with digest_a 900 [voter_no_cert digest_a].
Definition consensus_epoch : networkstatus_t :=
  consensus_with digest_a 0 [voter_signed digest_a].
Definition consensus_epoch_other : networkstatus_t :=
  consensus_with digest_b 0 [voter_signed digest_b].
Definition consensus_epoch_unchecked : networkstatus_t :=
  consensus_with digest_b 0 [voter_no_cert digest_b].

Definition parse_docs (s : string) : option networkstatus_t :=
  if bool_decide (s = "doc-need-certs") then Some consensus_need_certs
  else if bool_decide (s = "doc-epoch") then Some consensus_epoch
  else if bool_decide (s = "doc-epoch-other") then Some consensus_epoch_other
  else if bool_decide (s = "doc-epoch-unchecked") then Some consensus_epoch_unchecked
  else None.

Definition env_store : Env := env_one 1000 true false false parse_docs.

(** The store after "doc-epoch", whose [valid_after] is 0, was installed. *)
Definition st_epoch : dir_state :=
  from_option snd initial_state
    (Store.networkstatus_set_current_consensus env_store "doc-epoch" "ns" 0 initial_state).

End Examples.

(** ** The store's invariant, as the specification words it *)

Module StoreSpec.

(** The file that holds a parked consensus of a flavor, and the one that
    holds an installed one. *)
Definition unverified_file (f : consensus_flavor_t) : string :=
  match f with
  | FLAV_NS => "unverified-consensus"
  | FLAV_MICRODESC => "unverified-microdesc-consensus"
  end.

Definition cached_file (f : consensus_flavor_t) : string :=
  match f with
  | FLAV_NS => "cached-consensus"
  | FLAV_MICRODESC => "cached-microdesc-consensus"
  end.

(** Every parked consensus is newer than the current one of its flavor. *)
Definition parked_newer_as_specified (st : dir_state) : Prop :=
  forall flav P cur,
    w_consensus (get_waiting st flav) = Some P ->
    networkstatus_get_latest_consensus_by_flavor st flav = Some cur ->
    valid_after cur < valid_after P.

(** The same, for a current consensus whose [valid_after] is not 0, the
    value the code reads as "there is no current consensus". *)
Definition parked_newer (st : dir_state) : Prop :=
  forall flav P cur,
    w_consensus (get_waiting st flav) = Some P ->
    networkstatus_get_latest_consensus_by_flavor st flav = Some cur ->
    valid_after cur <> 0 ->
    valid_after cur < valid_after P.

(** Two states hold the same current and parked consensuses. *)
Definition same_stores (st st1 : dir_state) : Prop :=
  (forall f, networkstatus_get_latest_consensus_by_flavor st1 f
             = networkstatus_get_latest_consensus_by_flavor st f)
  /\ (forall f, get_waiting st1 f = get_waiting st f).

End StoreSpec.

Module StoreExamples.

Import Examples.

(** The store after "doc-epoch-unchecked" arrived in [st_epoch]. *)
Definition st_epoch_parked : dir_state :=
  from_option snd initial_state
    (Store.networkstatus_set_current_consensus env_store "doc-epoch-unchecked" "ns" 0 st_epoch).

(** The store after "doc-need-certs" arrived in the empty store. *)
Definition st_parked : dir_state :=
  from_option snd initial_state
    (Store.networkstatus_set_current_consensus env_store "doc-need-certs" "ns" 0 initial_state).

End StoreExamples.

(** ** What the v2 cache records, for the statement of the skew rule *)

Module V2Spec.

Import V2.

Definition is_clock_skew_event (e : v2_event) : bool :=
  match e with V2ControlGeneralStatus _ _ _ _ => true | _ => false end.

(** The events by which a document enters the cache. *)
Definition is_cache_event (e : v2_event) : bool :=
  match e with V2DirservSetCachedNetworkstatus _ _ _ => true | _ => false end.

(** The document passes the other checks of the receive path: it is not
    our own status fetched from somebody else, it was requested (or came
    with a fetch of "all"), and we hold no document of the same authority
    that is identical or at least as recent. *)
Definition v2_wanted (E : V2Env) (ns : networkstatus_v2_t)
    (source : v2_networkstatus_source_t) (requested_fingerprints : option (list string))
    (st : v2_state) : bool :=
  negb ((source_eqb source NS_FROM_DIR_BY_FP || source_eqb source NS_FROM_DIR_ALL)
        && router_digest_is_me E (v2_identity_digest ns))
  && (match requested_fingerprints with
      | Some l => bool_decide (hex_str E (v2_identity_digest ns) ∈ l)
      | None => true
      end || source_eqb source NS_FROM_DIR_ALL)
  && match router_get_trusteddirserver_by_digest E (v2_identity_digest ns) with
     | None => true
     | Some _ =>
       match scan_v2_list (networkstatus_v2_list st) ns 0 with
       | ScanSame _ | ScanHaveNewer _ => false
       | _ => true
       end
     end.

End V2Spec.

Module V2Examples.

Import V2.

Definition status_at (published : Z) : networkstatus_v2_t :=
  mk_v2 "v2auth" "digest-1" published 0 "10.0.0.1" 80 [].

(** A directory cache at time 1000 that parses every string as a status
    published at [published] by an authority it does not know. *)
Definition env_at (published : Z) : V2Env :=
  mk_v2env 1000 true (λ _, Some (status_at published)) (λ _, None) (λ _, false)
           (λ _, None) (λ d, d).

(** The same cache, for which "v2auth" is a recognized v2 authority. *)
Definition env_known_at (published : Z) : V2Env :=
  mk_v2env 1000 true (λ _, Some (status_at published)) (λ _, Some (mk_ds "v2auth" true))
           (λ _, false) (λ _, None) (λ d, d).

Definition st_empty : v2_state := mk_v2state [] false ∅ [].

End V2Examples.

(** ** The outcome of a rebuild, for the statement of its postcondition *)

Module MicrodescSpec.

Import Microdesc.

(** Both writes of [dump_microdescriptor] succeed for this descriptor. *)
Definition dump_succeeds (E : IoEnv) (md : microdesc_t) : bool :=
  match (if negb (last_listed md =? 0) then fputs_outcome E (md_digest md) else WriteOk),
        fwrite_outcome E (md_digest md) with
  | WriteOk, WriteOk => true
  | _, _ => false
  end.

(** The length of the mapped cache file, 0 without a mapping. *)
Definition cache_len (cache : microdesc_cache_t) : N :=
  from_option size 0%N (cache_content cache).

(** The trigger of a rebuild, in the specification's words, over the
    integers. *)
Definition rebuild_wanted (cache : microdesc_cache_t) : Prop :=
  16384 <= Z.of_N (journal_len cache)
  /\ ((Z.of_N (journal_len cache) + Z.of_N (cache_len cache)) / 3
      < Z.of_N (bytes_dropped cache)
      \/ Z.of_N (cache_len cache) / 2 < Z.of_N (journal_len cache)).

(** A descriptor [md] of the map before the rebuild and the descriptor
    [md1] in its place afterwards: the same descriptor; when it is marked
    [no_save] it is unchanged; when it was to be saved and its dump
    succeeded, it lives in the cache file and its body points into the
    mapping [content] at its offset. *)
Definition rebuilt (E : IoEnv) (content : option tor_mmap_t) (md md1 : microdesc_t) : Prop :=
  md_digest md1 = md_digest md
  /\ no_save md1 = no_save md
  /\ (no_save md = true -> md1 = md)
  /\ (no_save md = false -> dump_succeeds E md = true ->
      saved_location md1 = SAVED_IN_CACHE
      /\ exists mm, content = Some mm
           /\ body md1 = data mm + off md1
           /\ body_content md1
              = String.substring (Z.to_nat (off md1)) (N.to_nat (bodylen md1)) (mapped mm)).

(** The postcondition as the specification states it, for every
    descriptor of the map. *)
Definition all_in_cache (cache : microdesc_cache_t) : Prop :=
  forall md, md ∈ map cache ->
    saved_location md = SAVED_IN_CACHE
    /\ exists mm, cache_content cache = Some mm /\ body md = data mm + off md.

End MicrodescSpec.

Module MicrodescExamples.

Import Microdesc.

(** A platform with a 32-bit [size_t] on which every write succeeds and
    files are mapped at address 4096. *)
Definition io_ok : IoEnv :=
  mk_io 1000000 32%N (λ _, "1970-01-12 13:46:40") true (λ _, WriteOk) (λ _, WriteOk) true
        (λ s, if bool_decide (s = EmptyString) then None else Some 4096).

Definition md_journal (d : string) (listed : Z) : microdesc_t :=
  mk_md d listed SAVED_IN_JOURNAL false true 0 0 8192 "onion-key body" 14%N.

(** A descriptor that is held in memory only and is not to be saved. *)
Definition md_unsaved : microdesc_t :=
  mk_md "digest-u" 999999 SAVED_NOWHERE true true 0 0 8192 "onion-key kept" 14%N.

Definition cache_two : microdesc_cache_t :=
  mk_cache [md_journal "digest-1" 999999; md_journal "digest-2" 0] None 28%N 0%N 28%N 2%N
           None (Some "journal").

(** A cache whose journal has outgrown half of the cache file. *)
Definition cache_grown : microdesc_cache_t :=
  mk_cache [] (Some (mk_mmap 4096 30000%N EmptyString)) 20000%N 0%N 0%N 0%N None None.

(** A cache file of 2^32 - 1 bytes next to a journal of 16384 bytes. *)
Definition cache_huge : microdesc_cache_t :=
  mk_cache [] (Some (mk_mmap 4096 4294967295%N EmptyString)) 16384%N 6000%N 0%N 0%N None None.

Definition cache_unsaved : microdesc_cache_t :=
  mk_cache [md_unsaved] None 0%N 0%N 14%N 1%N None None.

End MicrodescExamples.
(** ** Vocabulary for further properties of the code *)

Module QuorumProps.

Import Quorum.

(** A signature after a check, against the signature before: the same
    signature, no flag cleared, and a signature that carried no flag does
    not come back with both. *)
Definition flags_raised (s s1 : document_signature_t) : Prop :=
  sig_identity_digest s1 = sig_identity_digest s
  /\ signing_key_digest s1 = signing_key_digest s
  /\ alg s1 = alg s
  /\ signature s1 = signature s
  /\ (good_signature s = true -> good_signature s1 = true)
  /\ (bad_signature s = true -> bad_signature s1 = true)
  /\ (good_signature s = false -> bad_signature s = false ->
      good_signature s1 && bad_signature s1 = false).

Definition voter_flags_raised (v v1 : networkstatus_voter_info_t) : Prop :=
  identity_digest v1 = identity_digest v
  /\ nickname v1 = nickname v
  /\ Forall2 flags_raised (sigs v) (sigs v1).

End QuorumProps.

Module SchedulerProps.

Import Scheduler.

(** A turn of the loop of [update_consensus_networkstatus_downloads] ends
    in [return]: the consensus of the flavor is wanted, live, and not yet
    due for replacement. *)
Definition consensus_not_due (E : Env) (t : Z) (st : dir_state) (f : consensus_flavor_t)
    : bool :=
  we_want_to_fetch_flavor E (flavor_to_int f)
  && match networkstatus_get_latest_consensus_by_flavor st f with
     | Some c => is_live c t && (time_to_download_next_consensus st f >? t)
     | None => false
     end.

(** The conditions under which a turn of the loop reaches the call that
    launches the fetch: the flavor is wanted, its consensus is missing, not
    live or due for replacement, the download status is ready, no fetch of
    the flavor is in progress, and a parked consensus of the flavor has
    waited for its certificates long enough. *)
Definition fetch_due (E : Env) (t : Z) (st : dir_state) (f : consensus_flavor_t) : bool :=
  we_want_to_fetch_flavor E (flavor_to_int f)
  && match networkstatus_get_latest_consensus_by_flavor st f with
     | Some c => negb (is_live c t) || (time_to_download_next_consensus st f <=? t)
     | None => true
     end
  && download_status_is_ready E f
  && negb (connection_dir_get_by_purpose_and_resource E (networkstatus_get_flavor_name f))
  && match w_consensus (get_waiting st f) with
     | Some _ => set_at (get_waiting st f) + DELAY_WHILE_FETCHING_CERTS <=? t
     | None => true
     end.

(** The event is the launch of a consensus fetch of flavor [f]. *)
Definition is_fetch_of (f : consensus_flavor_t) (e : event) : bool :=
  match e with
  | EvDirectoryGetFromDirserver r => bool_decide (r = networkstatus_get_flavor_name f)
  | _ => false
  end.

End SchedulerProps.

Module StoreProps.

Import Store.

(** The event is a request to fetch missing certificates. *)
Definition is_cert_fetch (e : event) : bool :=
  match e with EvCertsFetchMissing _ _ => true | _ => false end.

(** From [st] to [st1] the trace has only grown, by events that satisfy
    [P]. *)
Definition emits_only (P : event -> Prop) (st st1 : dir_state) : Prop :=
  exists evs, trace st1 = trace st ++ evs /\ Forall P evs.

(** The parked consensus of flavor [f], if there is one, still lacks a
    quorum: the check returns and answers a negative value. *)
Definition parked_lacks_quorum (E : Env) (st : dir_state) (f : consensus_flavor_t) : Prop :=
  match w_consensus (get_waiting st f) with
  | None => True
  | Some wc =>
    exists chk, Quorum.networkstatus_check_consensus_signature E wc 0 = Some chk
                /\ Quorum.verdict chk < 0
  end.

(** What a re-check does to a slot: the signature flags of the parked
    consensus are brought up to date, nothing else changes. *)
Definition rechecked (E : Env) (w : consensus_waiting_for_certs_t)
    : consensus_waiting_for_certs_t :=
  match w_consensus w with
  | None => w
  | Some wc =>
    match Quorum.networkstatus_check_consensus_signature E wc 0 with
    | Some chk => mk_waiting (Some (Quorum.checked chk)) (w_body w) (set_at w) (dl_failed w)
    | None => w
    end
  end.

End StoreProps.

Module ReloadProps.

(** The requests for missing certificates that
    [update_certificate_downloads] makes at time [t] in the state [st]:
    one for each consensus that is parked or current, in this order. *)
Definition cert_fetches (t : Z) (st : dir_state) : list event :=
  (fun c => EvCertsFetchMissing c t)
    <$> (option_list (w_consensus (waiting_ns st))
         ++ option_list (w_consensus (waiting_md st))
         ++ option_list (current_ns_consensus st)
         ++ option_list (current_md_consensus st)).

End ReloadProps.

Module V2DownloadProps.

Import V2Download.

(** The request asks a v2 directory server of the list, other than this
    node, for that server's own status. *)
Definition asks_v2_server (E : DownloadEnv) (r : dl_request) : Prop :=
  exists ds, ds ∈ router_get_trusted_dir_servers E
    /\ ds_v2_dirinfo ds = true
    /\ dl_router_digest_is_me E (ds_digest ds) = false
    /\ r = FetchFromAuthority (ds_digest ds)
             ("fp/" +:+ base16_encode E (ds_digest ds) +:+ ".z").

End V2DownloadProps.
(** ** More concrete inputs *)

Module MoreExamples.
Import Examples.
(** A bridge user at time 1000: it fetches directory information later
    than ordinary clients. *)
Definition env_bridge : Env :=
  mk_env 1000 ["auth1"] (λ _ _, None) (λ _, false) (λ k, Some k) (λ _ sg, Some sg)
         (λ _, None) (λ _, None)
         FLAV_NS false false false false false true (λ _, true) (λ _, false) 432000 (λ _, 0).

(** The ns consensus valid from 900 is installed and is to be replaced at
    5000. *)
Definition st_live_ns : dir_state :=
  set_next_download FLAV_NS 5000 (set_current FLAV_NS (Some consensus_one) initial_state).
End MoreExamples.

Module V2MoreExamples.
Import V2 V2Examples.

(** A second authority, and a list that holds one status of each. *)
Definition status_of (id : string) (published : Z) : networkstatus_v2_t :=
  mk_v2 id "digest-0" published 0 "10.0.0.2" 80 [].

Definition st_two : v2_state :=
  mk_v2state [status_of "v2auth" 100; status_of "v2other" 4500] false
             (<["cached-status/v2auth" := "old"]> (<["cached-status/v2other" := "new"]> ∅)) [].

(** A deletion from a list that keeps the other elements in their order. *)
Definition del_keeporder (l : list networkstatus_v2_t) (i : nat) : list networkstatus_v2_t :=
  delete i l.

End V2MoreExamples.

Module MicrodescMoreExamples.

Import Microdesc MicrodescMore.

(** A descriptor as it comes from a download: not in any file yet. *)
Definition md_fetched (d : string) (listed : Z) : microdesc_t :=
  mk_md d listed SAVED_NOWHERE false false 0 0 12288 "onion-key fresh" 15%N.

(** One descriptor that is new to [MicrodescExamples.cache_two] and one
    that it holds already. *)
Definition fetched : list microdesc_t :=
  [md_fetched "digest-3" 0; md_fetched "digest-1" 1000005].

(** A microdesc-flavored consensus, valid from 999000 to 1010000, and the
    router entries that it lists. *)
Definition md_consensus : networkstatus_t :=
  mk_ns NS_TYPE_CONSENSUS FLAV_MICRODESC 999000 1005000 1010000
        (mk_digests "cons-md" "cons-md-256") [].

Definition listed : list md_routerstatus_t :=
  [mk_mdrs "digest-1" true; mk_mdrs "digest-2" true; mk_mdrs "digest-3" true;
   mk_mdrs "digest-4" true].

Definition st_md_live : dir_state :=
  mk_state None (Some md_consensus) waiting_empty waiting_empty 0 0 ∅ [].

End MicrodescMoreExamples.

Module ParamsExamples.

(** A parser of decimal numbers that knows the strings used below. *)
Definition parse_long (s : string) : option Z :=
  if bool_decide (s = "30") then Some 30
  else if bool_decide (s = "7") then Some 7
  else None.

Definition params_of (c : networkstatus_t) : option (list string) :=
  Some ["bwweightscale=10000"; "cbtnum=x"; "cbtnum=7"; "cbtnummodes=30"].

End ParamsExamples.

Module MicrodescConfigExamples.

(** A client with [UseMicrodescriptors auto] and no bridges. *)
Definition client_auto : MicrodescConfig.md_options :=
  MicrodescConfig.mk_md_options (-1) false false false false false.

End MicrodescConfigExamples.

Module ReloadExamples.

(** A data directory that holds an unverified consensus for which the
    certificate is not known. *)
Definition st_unverified_on_disk : dir_state :=
  write_str_to_file "unverified-consensus" "doc-need-certs" initial_state.

Definition no_fallback : Reload.fallback_file := Reload.mk_fallback None None.

End ReloadExamples.
(** ** How the v2 list changes *)

Module V2Props.

Import V2.

(** The list is in the order of publication. *)
Definition published_sorted (l : list networkstatus_v2_t) : Prop :=
  StronglySorted (fun a b => published_on a <= published_on b) l.

(** No two statuses of the list are of the same authority. *)
Definition one_per_authority (l : list networkstatus_v2_t) : Prop :=
  NoDup (v2_identity_digest <$> l).

(** The ways in which one call of [router_set_networkstatus_v2] in the
    environment [E] can change the list: not at all; by a new time of
    receipt for one status; by a status of a recognized authority that
    takes the place of an older one of the same authority; by a status of a
    recognized authority of which the list held none.  In the last two
    cases the list is sorted afterwards. *)
Inductive v2_list_step (E : V2Env) (doc : networkstatus_v2_t)
    : list networkstatus_v2_t -> list networkstatus_v2_t -> Prop :=
| v2_step_same l : v2_list_step E doc l l
| v2_step_touch l i old t :
    l !! i = Some old ->
    v2_identity_digest old = v2_identity_digest doc ->
    networkstatus_digest old = networkstatus_digest doc ->
    v2_list_step E doc l (alter (set_received_on t) i l)
| v2_step_replace l i old ns :
    l !! i = Some old ->
    v2_identity_digest old = v2_identity_digest doc ->
    published_on old < published_on doc ->
    is_Some (router_get_trusteddirserver_by_digest E (v2_identity_digest doc)) ->
    v2_identity_digest ns = v2_identity_digest doc ->
    networkstatus_digest ns = networkstatus_digest doc ->
    published_on ns = published_on doc ->
    received_on ns <= v2_now E ->
    v2_list_step E doc l (sort_by_published (<[i := ns]> l))
| v2_step_add l ns :
    (forall x, x ∈ l -> v2_identity_digest x <> v2_identity_digest doc) ->
    is_Some (router_get_trusteddirserver_by_digest E (v2_identity_digest doc)) ->
    v2_identity_digest ns = v2_identity_digest doc ->
    networkstatus_digest ns = networkstatus_digest doc ->
    published_on ns = published_on doc ->
    received_on ns <= v2_now E ->
    v2_list_step E doc l (sort_by_published (l ++ [ns])).

(** The status is younger than [max_age] at time [t], so that
    [networkstatus_v2_list_clean] keeps it. *)
Definition v2_fresh (max_age t : Z) (ns : networkstatus_v2_t) : Prop :=
  t < published_on ns + max_age.

#[global] Instance v2_fresh_dec max_age t ns : Decision (v2_fresh max_age t ns).
Proof. unfold v2_fresh. apply _. Defined.

End V2Props.
(** ** Vocabulary for the microdescriptor cache *)

Module MicrodescProps.

Import Microdesc.

(** The cutoff that [microdesc_cache_clean] works with. *)
Definition clean_cutoff (E : IoEnv) (cutoff : Z) : Z :=
  if cutoff <=? 0 then io_now E - TOLERATE_MICRODESC_AGE else cutoff.

(** The descriptor has been listed at [limit] or later. *)
Definition listed_since (limit : Z) (md : microdesc_t) : Prop := limit <= last_listed md.

#[global] Instance listed_since_dec limit md : Decision (listed_since limit md).
Proof. unfold listed_since. apply _. Defined.

(** No descriptor of [l] is older than [limit]. *)
Definition all_listed_since (limit : Z) (l : list microdesc_t) : bool :=
  forallb (fun md => limit <=? last_listed md) l.

(** The bytes of the bodies of the descriptors of [l] last listed before
    [limit], as a natural number. *)
Fixpoint stale_bytes (limit : Z) (l : list microdesc_t) : N :=
  match l with
  | [] => 0%N
  | md :: rest =>
    ((if (last_listed md <? limit)%Z then bodylen md else 0) + stale_bytes limit rest)%N
  end.

(** The annotation that [dump_microdescriptor] writes before the body. *)
Definition annotation_of (E : IoEnv) (md : microdesc_t) : string :=
  if negb (last_listed md =? 0)
  then "@last-listed " +:+ format_iso_time E (last_listed md) +:+ newline
  else EmptyString.

(** The first [bodylen] bytes of what [body] points to: what [fwrite]
    sends to the file. *)
Definition body_bytes (md : microdesc_t) : string :=
  String.substring 0 (N.to_nat (bodylen md)) (body_content md).

(** [bodylen] bytes can be read at [body]. *)
Definition body_readable (md : microdesc_t) : Prop :=
  (N.to_nat (bodylen md) <= String.length (body_content md))%nat.

(** Nothing stands in the way of saving the descriptor: it is not to be
    saved at all, or both writes of its dump succeed and its body can be
    read. *)
Definition savable (E : IoEnv) (md : microdesc_t) : Prop :=
  no_save md = true
  \/ (MicrodescSpec.dump_succeeds E md = true /\ body_readable md).

(** A descriptor [md1] after a rebuild, against the descriptor [md] it was
    before: a descriptor that is not to be saved is untouched; of one that
    is, the bytes of the body are the same. *)
Definition body_kept (md md1 : microdesc_t) : Prop :=
  md_digest md1 = md_digest md
  /\ (no_save md = true -> md1 = md)
  /\ (no_save md = false ->
      bodylen md1 = bodylen md /\ body_content md1 = body_bytes md).

(** What a rebuild in which every write succeeds puts into the new cache
    file for the descriptors of [l]: annotation and body of each
    descriptor that is to be saved, in the order of the table. *)
Fixpoint dumped (E : IoEnv) (l : list microdesc_t) : string :=
  match l with
  | [] => EmptyString
  | md :: rest =>
    if no_save md then dumped E rest
    else annotation_of E md +:+ body_bytes md +:+ dumped E rest
  end.

End MicrodescProps.

(** ** Vocabulary for adding to the microdescriptor cache *)

Module MicrodescMoreProps.

Import Microdesc MicrodescMore.

(** No two entries of the table have the same digest. *)
Definition distinct_digests (l : list microdesc_t) : Prop := NoDup (md_digest <$> l).

(** [md1] is [md0], except that it may have been listed later. *)
Definition relisted (md0 md1 : microdesc_t) : Prop :=
  last_listed md0 <= last_listed md1 /\ set_last_listed (last_listed md0) md1 = md0.

(** Is the journal opened by [microdescs_add_list_to_cache]? *)
Definition journal_opened (where_ : saved_location_t) (no_save : bool) : bool :=
  saved_location_eqb where_ SAVED_NOWHERE && negb no_save.

(** The [saved_location] that [microdescs_add_list_to_cache] gives to a new
    entry. *)
Definition stored_at (where_ : saved_location_t) (no_save : bool) : saved_location_t :=
  if journal_opened where_ no_save then SAVED_IN_JOURNAL else where_.

(** The descriptor [md] has been put into the table as [md1]. *)
Definition entered_as (where_ : saved_location_t) (no_save0 : bool) (md md1 : microdesc_t)
    : Prop :=
  md_digest md1 = md_digest md
  /\ saved_location md1 = stored_at where_ no_save0
  /\ no_save md1 = no_save0
  /\ held_in_map md1 = true
  /\ body md1 = body md
  /\ body_content md1 = body_content md
  /\ bodylen md1 = bodylen md
  /\ last_listed md <= last_listed md1.

(** Every dump of a descriptor of [l] succeeds. *)
Definition all_dumps_succeed (E : IoEnv) (l : list microdesc_t) : Prop :=
  Forall (fun md => MicrodescSpec.dump_succeeds E md = true) l.

End MicrodescMoreProps.

(** ** Vocabulary for the parameters of a consensus *)

Module ParamsProps.

Import Params.

(** The entry [name=value] of a parameter list. *)
Definition param_entry (name value : string) : string :=
  name +:+ String equals_sign value.

(** [v] brought into the range from [min_val] to [max_val]. *)
Definition clamped (min_val max_val v : Z) : Z := Z.max min_val (Z.min max_val v).

End ParamsProps.

(** * Properties of the quorum checker *)

Import Quorum QuorumSpec.


Section QuorumFacts.
Context (E : Env) (consensus : networkstatus_t).

Lemma check_document_signature_flags sig cert sig1 :
  good_signature sig = false -> bad_signature sig = false ->
  networkstatus_check_document_signature E consensus sig cert = Some sig1 ->
  (good_signature sig1 = true /\ bad_signature sig1 = false)
  \/ (good_signature sig1 = false /\ bad_signature sig1 = true).
Proof.
  intros Hg Hb. unfold networkstatus_check_document_signature.
  destruct (crypto_pk_get_digest E (signing_key cert)); [|done].
  destruct (_ || _); [done|].
  match goal with |- context [if ?b then _ else _] => destruct b end;
    intros; simplify_eq; simpl; rewrite ?Hg, ?Hb; auto.
Qed.

Lemma check_one_signature_tally voter sig t t1 sig1 :
  check_one_signature E consensus voter sig t = Some (t1, sig1) ->
  good_here t1 = good_here t + ind (sig_class_eqb (classify_signature E consensus sig) SigGood)
  /\ bad_here t1 = bad_here t + ind (sig_class_eqb (classify_signature E consensus sig) SigBad)
  /\ missing_key_here t1
     = missing_key_here t + ind (sig_class_eqb (classify_signature E consensus sig) SigMissing)
  /\ unknown_here t1
     = unknown_here t + ind (sig_class_eqb (classify_signature E consensus sig) SigUnknown).
Proof.
  unfold check_one_signature, classify_signature, tally_flags.
  destruct (good_signature sig) eqn:Hg; simpl.
  { intros; simplify_eq; simpl; lia. }
  destruct (bad_signature sig) eqn:Hb; simpl.
  { intros; simplify_eq; simpl; lia. }
  destruct (signature sig) as [bytes|] eqn:Hs; simpl.
  2:{ intros; simplify_eq; simpl; lia. }
  destruct (bool_decide (sig_identity_digest sig = identity_digest voter)); simpl; [|done].
  destruct (trusteddirserver_get_by_v3_auth_digest E (sig_identity_digest sig)); simpl.
  2:{ intros; simplify_eq; simpl; lia. }
  destruct (authority_cert_get_by_digests E _ _) as [cert|].
  2:{ intros; simplify_eq; simpl; lia. }
  destruct (expires cert <? now E).
  { intros; simplify_eq; simpl; lia. }
  destruct (networkstatus_check_document_signature E consensus sig cert) as [sig2|] eqn:Hc.
  2:{ intros; simplify_eq; simpl; lia. }
  destruct (check_document_signature_flags _ _ _ Hg Hb Hc) as [[Hg2 Hb2]|[Hg2 Hb2]];
    rewrite ?Hg2, ?Hb2; intros; simplify_eq; simpl; lia.
Qed.

Lemma check_one_signature_total voter sig t :
  sig_identity_digest sig = identity_digest voter ->
  is_Some (check_one_signature E consensus voter sig t).
Proof.
  intros Hid. unfold check_one_signature.
  rewrite (bool_decide_eq_true_2 _ Hid). simpl.
  repeat (match goal with
          | |- is_Some (if ?b then _ else _) => destruct b
          | |- is_Some (match ?x with _ => _ end) => destruct x
          end); eauto.
Qed.

Lemma count_class_nonneg k l : 0 <= count_class E consensus k l.
Proof. induction l as [|sig l IH]; simpl; [lia|]. unfold ind. destruct (sig_class_eqb _ _); lia. Qed.

Lemma count_class_existsb k l :
  negb (count_class E consensus k l =? 0)
  = existsb (λ sig, sig_class_eqb (classify_signature E consensus sig) k) l.
Proof.
  induction l as [|sig l IH]; simpl; [done|].
  pose proof (count_class_nonneg k l) as Hn.
  destruct (sig_class_eqb _ _); simpl.
  - destruct (1 + count_class E consensus k l =? 0) eqn:Hz; [lia|done].
  - exact IH.
Qed.

Lemma check_voter_sigs_tally voter l : forall t t1 l1,
  check_voter_sigs E consensus voter l t = Some (t1, l1) ->
  good_here t1 = good_here t + count_class E consensus SigGood l
  /\ bad_here t1 = bad_here t + count_class E consensus SigBad l
  /\ missing_key_here t1 = missing_key_here t + count_class E consensus SigMissing l
  /\ unknown_here t1 = unknown_here t + count_class E consensus SigUnknown l.
Proof.
  induction l as [|sig l IH]; simpl; intros t t1 l1 H.
  - simplify_eq. lia.
  - destruct (check_one_signature E consensus voter sig t) as [[t2 sig2]|] eqn:H1; [|done].
    destruct (check_voter_sigs E consensus voter l t2) as [[t3 l3]|] eqn:H2; [|done].
    simplify_eq.
    apply check_one_signature_tally in H1. apply IH in H2. lia.
Qed.

Lemma check_voter_sigs_total voter l : forall t,
  forallb (λ sig, bool_decide (sig_identity_digest sig = identity_digest voter)) l = true ->
  is_Some (check_voter_sigs E consensus voter l t).
Proof.
  induction l as [|sig l IH]; simpl; intros t H; [eauto|].
  apply andb_true_iff in H as [Hid Hl]. apply bool_decide_eq_true in Hid.
  destruct (check_one_signature_total voter sig t Hid) as [[t1 sig1] ->].
  destruct (IH t1 Hl) as [[t2 l2] ->]. eauto.
Qed.

(** What [count_voter] adds to each counter. *)
Lemma count_voter_bucket voter t l1 n :
  check_voter_sigs E consensus voter (sigs voter) tally0 = Some (t, l1) ->
  let b := first_match E consensus voter code_order in
  n_good (count_voter t n) = n_good n + ind (bucket_eqb b BGood)
  /\ n_bad (count_voter t n) = n_bad n + ind (bucket_eqb b BBad)
  /\ n_missing_key (count_voter t n) = n_missing_key n + ind (bucket_eqb b BMissing)
  /\ n_unknown (count_voter t n) = n_unknown n + ind (bucket_eqb b BUnknown)
  /\ n_no_signature (count_voter t n) = n_no_signature n + ind (bucket_eqb b BNoSignature).
Proof.
  intros H. apply check_voter_sigs_tally in H as (Hg & Hb & Hm & Hu). simpl in *.
  unfold count_voter, has_class. rewrite Hg, Hb, Hm, Hu, !Z.add_0_l, !count_class_existsb.
  repeat (match goal with |- context [if existsb ?f ?l then _ else _] => destruct (existsb f l) end;
          simpl); repeat split; lia.
Qed.

Lemma check_voters_counts l : forall n n1 l1,
  check_voters E consensus l n = Some (n1, l1) ->
  n_good n1 = n_good n + count_bucket E consensus code_order BGood l
  /\ n_bad n1 = n_bad n + count_bucket E consensus code_order BBad l
  /\ n_missing_key n1 = n_missing_key n + count_bucket E consensus code_order BMissing l
  /\ n_unknown n1 = n_unknown n + count_bucket E consensus code_order BUnknown l
  /\ n_no_signature n1 = n_no_signature n + count_bucket E consensus code_order BNoSignature l.
Proof.
  induction l as [|voter l IH]; intros n n1 l1 H.
  - simpl in H. simplify_eq. simpl. lia.
  - cbn [check_voters] in H.
    destruct (check_voter_sigs E consensus voter (sigs voter) tally0) as [[t s1]|] eqn:H1; [|done].
    destruct (check_voters E consensus l (count_voter t n)) as [[n2 l2]|] eqn:H2; [|done].
    simplify_eq. apply IH in H2.
    pose proof (count_voter_bucket voter t s1 n H1) as Hc. cbv zeta in Hc.
    cbn [count_bucket]. unfold ind in Hc.
    destruct Hc as (? & ? & ? & ? & ?), H2 as (? & ? & ? & ? & ?).
    repeat split; lia.
Qed.

Lemma check_voters_total l : forall n,
  forallb (λ voter,
     forallb (λ sig, bool_decide (sig_identity_digest sig = identity_digest voter)) (sigs voter))
    l = true ->
  is_Some (check_voters E consensus l n).
Proof.
  induction l as [|voter l IH]; simpl; intros n H; [eauto|].
  apply andb_true_iff in H as [Hv Hl].
  destruct (check_voter_sigs_total voter (sigs voter) tally0 Hv) as [[t s1] ->].
  destruct (IH (count_voter t n) Hl) as [[n2 l2] ->]. eauto.
Qed.

(** Every voter is in exactly one bucket, whatever the order. *)
Lemma count_bucket_partition order l :
  count_bucket E consensus order BGood l + count_bucket E consensus order BBad l
  + count_bucket E consensus order BMissing l + count_bucket E consensus order BUnknown l
  + count_bucket E consensus order BNoSignature l = Z.of_nat (length l).
Proof.
  induction l as [|voter l IH]; [done|].
  cbn [count_bucket length]. destruct (first_match E consensus voter order); simpl; lia.
Qed.

End QuorumFacts.

Lemma n_required_quorum (E : Env) : n_required E = quorum E.
Proof.
  unfold n_required, quorum, get_n_authorities.
  rewrite Z.quot_div_nonneg by lia. reflexivity.
Qed.

Lemma check_consensus_signature_inv (E : Env) (consensus : networkstatus_t) (warn : Z) res :
  networkstatus_check_consensus_signature E consensus warn = Some res ->
  exists vs, check_voters E consensus (voters consensus) counters0 = Some (tallied res, vs)
    /\ verdict res = signature_verdict E (tallied res).
Proof.
  unfold networkstatus_check_consensus_signature.
  destruct (ns_type consensus); try done.
  destruct (check_voters E consensus (voters consensus) counters0) as [[n vs]|]; [|done].
  intros; simplify_eq; simpl. eauto.
Qed.

Lemma check_consensus_signature_total (E : Env) (consensus : networkstatus_t) (warn : Z) :
  assertions_hold consensus = true ->
  is_Some (networkstatus_check_consensus_signature E consensus warn).
Proof.
  unfold assertions_hold, networkstatus_check_consensus_signature.
  intros H. apply andb_true_iff in H as [Ht Hv].
  destruct (ns_type consensus); try done.
  destruct (check_voters_total E consensus (voters consensus) counters0 Hv) as [[n vs] ->].
  eauto.
Qed.

Lemma check_voters_counts_follow (E : Env) (consensus : networkstatus_t) n vs :
  check_voters E consensus (voters consensus) counters0 = Some (n, vs) ->
  counts_follow E consensus code_order n.
Proof.
  intros H. apply check_voters_counts in H. simpl in H. exact H.
Qed.

(** C1, as the code has it.  The checker returns (it does whenever its two
    assertions hold), and its answer is -1 (need more certificates) exactly
    when the number of good voters is neither the number of recognized
    authorities nor at least the quorum Q = floor(|A|/2) + 1, and good plus
    missing-certificate voters together reach Q.  The counters are the
    sizes of the voters' buckets.  The number of missing-certificate voters
    whose download recently failed does not enter the answer. *)
Theorem need_more_certs_iff (E : Env) (consensus : networkstatus_t) (warn : Z) :
  (assertions_hold consensus = true ->
   is_Some (networkstatus_check_consensus_signature E consensus warn))
  /\ forall res,
      networkstatus_check_consensus_signature E consensus warn = Some res ->
      counts_follow E consensus code_order (tallied res)
      /\ (verdict res = -1 <->
          n_good (tallied res) <> get_n_authorities E
          /\ ~ quorum E <= n_good (tallied res)
          /\ quorum E <= n_good (tallied res) + n_missing_key (tallied res)).
Proof.
  split; [apply check_consensus_signature_total|].
  intros res H. apply check_consensus_signature_inv in H as (vs & Hv & ->).
  split; [eapply check_voters_counts_follow; eassumption|].
  unfold signature_verdict. rewrite n_required_quorum.
  destruct (n_good (tallied res) =? get_n_authorities E) eqn:H1.
  { split; [done|]. lia. }
  destruct (n_good (tallied res) >=? quorum E) eqn:H2.
  { split; [done|]. lia. }
  destruct (n_good (tallied res) + n_missing_key (tallied res) >=? quorum E) eqn:H3.
  - split; [|done]. lia.
  - split; [done|]. lia.
Qed.

Lemma need_more_certs_iff_witness :
  assertions_hold Examples.consensus_one = true
  /\ exists res,
      networkstatus_check_consensus_signature Examples.env_no_cert
        Examples.consensus_one 1 = Some res
      /\ counts_follow Examples.env_no_cert Examples.consensus_one code_order (tallied res)
      /\ (verdict res = -1 <->
          n_good (tallied res) <> get_n_authorities Examples.env_no_cert
          /\ ~ quorum Examples.env_no_cert <= n_good (tallied res)
          /\ quorum Examples.env_no_cert
             <= n_good (tallied res) + n_missing_key (tallied res)).
Proof.
  split; [reflexivity|]. eexists. split; [reflexivity|].
  apply (proj2 (need_more_certs_iff Examples.env_no_cert Examples.consensus_one 1)).
  reflexivity.
Defined.

(** C1 as stated fails: one recognized authority whose certificate is
    missing and whose certificate download recently failed.  The checker
    answers -1, although good + missing - failed = 0 is below Q = 1. *)
Lemma need_more_certs_ignores_failed_downloads :
  exists res,
    networkstatus_check_consensus_signature Examples.env_no_cert
      Examples.consensus_one 1 = Some res
    /\ verdict res = -1
    /\ ~ need_more_certs_as_specified Examples.env_no_cert (tallied res).
Proof.
  eexists. split; [reflexivity|]. split; [reflexivity|].
  intros (_ & _ & _ & H). vm_compute in H. exact (H eq_refl).
Qed.

(** C2, as the code has it.  The checker answers 1 (all good) exactly when
    the number of good voters equals the number |A| of recognized
    authorities, and 0 (enough) exactly when it differs from |A| and is at
    least Q = floor(|A|/2) + 1; one authority gives Q = 1, nine give
    Q = 5. *)
Theorem all_good_and_enough_iff (E : Env) (consensus : networkstatus_t) (warn : Z) :
  (assertions_hold consensus = true ->
   is_Some (networkstatus_check_consensus_signature E consensus warn))
  /\ (forall res,
      networkstatus_check_consensus_signature E consensus warn = Some res ->
      counts_follow E consensus code_order (tallied res)
      /\ (verdict res = 1 <-> n_good (tallied res) = get_n_authorities E)
      /\ (verdict res = 0 <->
          n_good (tallied res) <> get_n_authorities E /\ quorum E <= n_good (tallied res)))
  /\ (get_n_authorities E = 1 -> quorum E = 1)
  /\ (get_n_authorities E = 9 -> quorum E = 5).
Proof.
  split; [apply check_consensus_signature_total|]. split.
  - intros res H. apply check_consensus_signature_inv in H as (vs & Hv & ->).
    split; [eapply check_voters_counts_follow; eassumption|].
    unfold signature_verdict. rewrite n_required_quorum.
    destruct (n_good (tallied res) =? get_n_authorities E) eqn:H1.
    { split; split; try done; lia. }
    destruct (n_good (tallied res) >=? quorum E) eqn:H2.
    { split; split; try done; lia. }
    destruct (n_good (tallied res) + n_missing_key (tallied res) >=? quorum E) eqn:H3;
      split; split; try done; lia.
  - unfold quorum. split; intros ->; reflexivity.
Qed.

Lemma all_good_and_enough_iff_witness :
  assertions_hold Examples.consensus_twice_good = true
  /\ exists res,
      networkstatus_check_consensus_signature Examples.env_with_cert
        Examples.consensus_twice_good 1 = Some res
      /\ (verdict res = 0 <->
          n_good (tallied res) <> get_n_authorities Examples.env_with_cert
          /\ quorum Examples.env_with_cert <= n_good (tallied res))
      /\ quorum Examples.env_with_cert = 1.
Proof.
  split; [reflexivity|]. eexists. split; [reflexivity|].
  pose proof (all_good_and_enough_iff Examples.env_with_cert
                Examples.consensus_twice_good 1) as (_ & H & H1 & _).
  split; [|apply H1; reflexivity].
  apply H. reflexivity.
Defined.

(** C2 as stated fails: a consensus that lists the one recognized authority
    twice has two good voters; the checker answers 0 (enough) although the
    number of good voters is not below |A| = 1. *)
Lemma enough_with_more_good_voters_than_authorities :
  exists res,
    networkstatus_check_consensus_signature Examples.env_with_cert
      Examples.consensus_twice_good 1 = Some res
    /\ verdict res = 0
    /\ ~ enough_as_specified Examples.env_with_cert (tallied res).
Proof.
  eexists. split; [reflexivity|]. split; [reflexivity|].
  intros [H _]. vm_compute in H. discriminate H.
Qed.

(** C3, as the code has it.  The loop over the voters returns whenever
    every signature carries its voter's identity, and then each voter (not
    each signature) is counted in exactly one bucket: the first it matches
    in the order good (some signature verifies or is already marked good),
    bad, missing certificate (absent, expired or not matching), unknown
    authority, no signature. *)
Theorem voters_counted_in_code_order (E : Env) (consensus : networkstatus_t) :
  (assertions_hold consensus = true ->
   is_Some (check_voters E consensus (voters consensus) counters0))
  /\ forall n vs,
      check_voters E consensus (voters consensus) counters0 = Some (n, vs) ->
      counts_follow E consensus code_order n
      /\ n_good n + n_bad n + n_missing_key n + n_unknown n + n_no_signature n
         = Z.of_nat (length (voters consensus)).
Proof.
  split.
  - unfold assertions_hold. intros H. apply andb_true_iff in H as [_ H].
    by apply check_voters_total.
  - intros n vs H. pose proof (check_voters_counts_follow E consensus n vs H) as Hc.
    split; [exact Hc|].
    destruct Hc as (-> & -> & -> & -> & ->). apply count_bucket_partition.
Qed.

Lemma voters_counted_in_code_order_witness :
  assertions_hold Examples.consensus_missing_then_good = true
  /\ counts_follow Examples.env_with_cert Examples.consensus_missing_then_good code_order
       (mk_counters 1 0 0 0 0 0)
  /\ 1 + 0 + 0 + 0 + 0 = Z.of_nat (length (voters Examples.consensus_missing_then_good)).
Proof.
  split; [reflexivity|].
  eapply (proj2 (voters_counted_in_code_order Examples.env_with_cert
                   Examples.consensus_missing_then_good)).
  reflexivity.
Defined.

(** C3 as stated fails: a voter whose first signature lacks a certificate
    and whose second signature verifies is counted as good, while the
    specification's order (unknown, missing, bad, good, none) puts it in
    the missing-certificate bucket. *)
Lemma voter_with_missing_and_good_signature_is_good :
  exists n vs,
    check_voters Examples.env_with_cert Examples.consensus_missing_then_good
      (voters Examples.consensus_missing_then_good) counters0 = Some (n, vs)
    /\ n_good n = 1 /\ n_missing_key n = 0
    /\ first_match Examples.env_with_cert Examples.consensus_missing_then_good
         Examples.voter_missing_then_good spec_order = BMissing
    /\ ~ counts_follow Examples.env_with_cert Examples.consensus_missing_then_good
           spec_order n.
Proof.
  do 2 eexists. split; [reflexivity|]. repeat split.
  intros (H & _). vm_compute in H. discriminate H.
Qed.

(** * Properties of the download scheduler *)

Import Scheduler.

(** C division of a non-negative number by a positive one. *)
Lemma quot_bounds a b : 0 <= a -> 0 < b -> b * (a ÷ b) <= a < b * (a ÷ b) + b.
Proof.
  intros Ha Hb. rewrite Z.quot_div_nonneg by lia.
  pose proof (Z.mul_div_le a b Hb). pose proof (Z.mul_succ_div_gt a b Hb). lia.
Qed.

Lemma int_of_long_le x : 0 <= x -> int_of_long x <= x.
Proof.
  intros Hx. unfold int_of_long.
  pose proof (Z.mod_le (x + 2 ^ 31) (2 ^ 32)). lia.
Qed.

Lemma fetch_window_bounds (E : Env) (c : networkstatus_t) start dl_interval :
  16 <= fresh_until c - valid_after c ->
  2 * (fresh_until c - valid_after c) <= valid_until c - fresh_until c ->
  fetch_window E c = (start, dl_interval) ->
  1 <= dl_interval /\ fresh_until c < start /\ start + dl_interval < valid_until c.
Proof.
  intros HI HD. unfold fetch_window, CONSENSUS_MIN_SECONDS_BEFORE_CACHING.
  set (I := fresh_until c - valid_after c) in *.
  pose proof (quot_bounds I 16 ltac:(lia) ltac:(lia)) as H16.
  pose proof (quot_bounds I 2 ltac:(lia) ltac:(lia)) as H2.
  pose proof (quot_bounds (I * 3) 4 ltac:(lia) ltac:(lia)) as H4.
  set (s0 := fresh_until c + (I * 3) ÷ 4) in *.
  pose proof (quot_bounds ((valid_until c - s0) * 7) 8 ltac:(lia) ltac:(lia)) as H8.
  destruct (directory_fetches_dir_info_early E).
  - destruct (FetchDirInfoExtraEarly E || authdir_mode_v3 E);
      repeat match goal with |- context [if ?b then _ else _] => destruct b eqn:? end;
      intros; simplify_eq; lia.
  - destruct (directory_fetches_dir_info_later E);
      repeat match goal with |- context [if ?b then _ else _] => destruct b eqn:? end;
      intros; simplify_eq; lia.
Qed.




(** * Properties of the consensus store *)

Import Store StoreSpec.

Lemma parse_flavor_name_some flavname f :
  networkstatus_parse_flavor_name flavname = Some f ->
  flavname = networkstatus_get_flavor_name f.
Proof.
  unfold networkstatus_parse_flavor_name. repeat case_bool_decide; intros; by simplify_eq.
Qed.

Lemma parse_flavor_name_none flavname :
  flavname <> "ns" -> flavname <> "microdesc" ->
  networkstatus_parse_flavor_name flavname = None.
Proof.
  intros H1 H2. unfold networkstatus_parse_flavor_name.
  by rewrite !bool_decide_eq_false_2.
Qed.

Lemma flavor_eqb_eq a b : flavor_eqb a b = true <-> a = b.
Proof. destruct a, b; simpl; split; congruence. Qed.

Lemma digests_eqb_eq a b : digests_eqb a b = true <-> a = b.
Proof.
  unfold digests_eqb. rewrite andb_true_iff, !bool_decide_eq_true.
  destruct a, b; simpl. split; [intros [-> ->]; done | intros [= -> ->]; done].
Qed.

Lemma flavor_files_and_current_of E f st :
  flavor_files_and_current E (networkstatus_get_flavor_name f) st
  = (cached_file f, unverified_file f,
     digests <$> networkstatus_get_latest_consensus_by_flavor st f,
     from_option valid_after 0 (networkstatus_get_latest_consensus_by_flavor st f)).
Proof. destruct f; reflexivity. Qed.

(** What a call knows once the checks before the quorum check let it
    through. *)
Lemma consensus_gates_pass E c flav0 flavname flags st flav fn cf uf cva :
  networkstatus_parse_flavor_name flavname = Some flav0 ->
  consensus_gates E c flav0 flavname flags st = GatePass flav fn cf uf cva ->
  flav = flavor c /\ fn = networkstatus_get_flavor_name flav
  /\ cf = cached_file flav /\ uf = unverified_file flav
  /\ cva = from_option valid_after 0 (networkstatus_get_latest_consensus_by_flavor st flav)
  /\ (cva = 0 \/ cva < valid_after c).
Proof.
  intros Hn. apply parse_flavor_name_some in Hn. unfold consensus_gates.
  destruct (flavor_eqb (flavor c) flav0) eqn:Hf; simpl.
  - apply flavor_eqb_eq in Hf. subst flav0 flavname.
    destruct (_ && _); [done|]. destruct (_ && _); [done|].
    rewrite flavor_files_and_current_of.
    destruct (match _ with Some _ => _ | None => _ end); [done|].
    destruct (_ && _) eqn:Hs; [done|].
    intros; simplify_eq. repeat split; try done.
    apply andb_false_iff in Hs. rewrite negb_false_iff in Hs. lia.
  - destruct (flag_set flags NSSET_REQUIRE_FLAVOR); [done|].
    destruct (_ && _); [done|]. destruct (_ && _); [done|].
    rewrite flavor_files_and_current_of.
    destruct (match _ with Some _ => _ | None => _ end); [done|].
    destruct (_ && _) eqn:Hs; [done|].
    intros; simplify_eq. repeat split; try done.
    apply andb_false_iff in Hs. rewrite negb_false_iff in Hs. lia.
Qed.

(** The checker hands back the consensus it was given, with only the
    signature flags touched. *)
Lemma checked_valid_after E c warn chk :
  Quorum.networkstatus_check_consensus_signature E c warn = Some chk ->
  valid_after (Quorum.checked chk) = valid_after c
  /\ flavor (Quorum.checked chk) = flavor c
  /\ digests (Quorum.checked chk) = digests c.
Proof.
  unfold Quorum.networkstatus_check_consensus_signature.
  destruct (ns_type c); try done.
  destruct (Quorum.check_voters _ _ _ _) as [[n vs]|]; [|done].
  intros; simplify_eq; done.
Qed.
Lemma same_stores_refl st : same_stores st st.
Proof. by split. Qed.

Lemma same_stores_trans st1 st2 st3 :
  same_stores st1 st2 -> same_stores st2 st3 -> same_stores st1 st3.
Proof. intros [H1 H2] [H3 H4]. split; intros f; [rewrite H3, H1|rewrite H4, H2]; done. Qed.

Lemma same_stores_emit e st : same_stores st (emit e st).
Proof. split; intros []; reflexivity. Qed.

Lemma same_stores_write fname content st : same_stores st (write_str_to_file fname content st).
Proof. split; intros []; reflexivity. Qed.

Lemma same_stores_unlink fname st : same_stores st (unlink fname st).
Proof. split; intros []; reflexivity. Qed.

Lemma same_stores_set_next_download f t st : same_stores st (set_next_download f t st).
Proof. split; intros []; destruct f; reflexivity. Qed.

Lemma same_stores_when b g st :
  (forall s, same_stores s (g s)) -> same_stores st (when b g st).
Proof. intros H. destruct b; simpl; [apply H|apply same_stores_refl]. Qed.

Create HintDb stores.
#[local] Hint Resolve same_stores_refl same_stores_emit same_stores_write same_stores_unlink
  same_stores_set_next_download same_stores_when : stores.

Lemma same_stores_fetch_time_impl E t f st st1 :
  Scheduler.update_consensus_networkstatus_fetch_time_impl E t f st = Some st1 ->
  same_stores st st1.
Proof.
  unfold Scheduler.update_consensus_networkstatus_fetch_time_impl.
  repeat match goal with
         | |- context [if ?b then _ else _] => destruct b
         | |- context [match ?x with Some _ => _ | None => _ end] => destruct x
         | |- context [let '(_, _) := ?x in _] => destruct x
         end; intros; simplify_eq; auto with stores.
Qed.

Lemma same_stores_fetch_time E t st st1 :
  Scheduler.update_consensus_networkstatus_fetch_time E t st = Some st1 ->
  same_stores st st1.
Proof.
  unfold Scheduler.update_consensus_networkstatus_fetch_time. intros H.
  apply bind_Some in H as (st2 & H1 & H2).
  assert (same_stores st st2).
  { destruct (Scheduler.we_want_to_fetch_flavor E (flavor_to_int FLAV_NS));
      [by eapply same_stores_fetch_time_impl|simplify_eq; auto with stores]. }
  assert (same_stores st2 st1).
  { destruct (Scheduler.we_want_to_fetch_flavor E (flavor_to_int FLAV_MICRODESC));
      [by eapply same_stores_fetch_time_impl|simplify_eq; auto with stores]. }
  by eapply same_stores_trans.
Qed.

Lemma latest_set_current f c st g :
  networkstatus_get_latest_consensus_by_flavor (set_current f c st) g
  = if flavor_eqb g f then c else networkstatus_get_latest_consensus_by_flavor st g.
Proof. destruct f, g; reflexivity. Qed.

Lemma waiting_set_current f c st g : get_waiting (set_current f c st) g = get_waiting st g.
Proof. destruct f, g; reflexivity. Qed.

Lemma latest_set_waiting f w st g :
  networkstatus_get_latest_consensus_by_flavor (set_waiting f w st) g
  = networkstatus_get_latest_consensus_by_flavor st g.
Proof. destruct f, g; reflexivity. Qed.

Lemma waiting_set_waiting f w st g :
  get_waiting (set_waiting f w st) g = if flavor_eqb g f then w else get_waiting st g.
Proof. destruct f, g; reflexivity. Qed.

(** The stores after a consensus was parked. *)
Lemma park_consensus_stores E consensus flav uf fc dl c st g :
  networkstatus_get_latest_consensus_by_flavor
    (park_consensus E consensus flav uf fc dl c st) g
  = networkstatus_get_latest_consensus_by_flavor st g
  /\ get_waiting (park_consensus E consensus flav uf fc dl c st) g
     = if flavor_eqb g flav then mk_waiting (Some c) (Some consensus) (now E) false
       else get_waiting st g.
Proof.
  unfold park_consensus.
  set (st1 := set_waiting flav _ st).
  assert (same_stores st1 (when dl (emit (EvCertsFetchMissing c (now E)))
                             (when (negb fc) (write_str_to_file uf consensus) st1))) as [H1 H2].
  { eapply same_stores_trans; apply same_stores_when; auto with stores. }
  rewrite H1, H2. unfold st1. by rewrite latest_set_waiting, waiting_set_waiting.
Qed.

(** The stores after the eviction step of an install. *)
Lemma evict_waiting_stores flav uf c st g :
  networkstatus_get_latest_consensus_by_flavor (evict_waiting flav uf c st) g
  = networkstatus_get_latest_consensus_by_flavor st g
  /\ (flavor_eqb g flav = false -> get_waiting (evict_waiting flav uf c st) g = get_waiting st g)
  /\ (forall wc, w_consensus (get_waiting (evict_waiting flav uf c st) flav) = Some wc ->
                 valid_after c < valid_after wc).
Proof.
  unfold evict_waiting.
  destruct (w_consensus (get_waiting st flav)) as [wc|] eqn:Hw.
  - destruct (valid_after wc <=? valid_after c) eqn:Hle.
    + destruct (same_stores_unlink uf (set_waiting flav (mk_waiting None None 0 false) st))
        as [H1 H2].
      rewrite H1, !H2, latest_set_waiting, !waiting_set_waiting.
      split; [done|]. split; [by intros ->|].
      assert (flavor_eqb flav flav = true) as -> by (by apply flavor_eqb_eq). done.
    + split; [done|]. split; [done|]. intros wc1. rewrite Hw. intros [= <-]. lia.
  - split; [done|]. split; [done|]. intros wc1. by rewrite Hw.
Qed.

(** The stores after an install. *)
Lemma install_consensus_stores E consensus fn flav cf uf fc dl r c st st1 g :
  install_consensus E consensus fn flav cf uf fc dl r c st = Some st1 ->
  networkstatus_get_latest_consensus_by_flavor st1 g
  = (if flavor_eqb g flav then Some c else networkstatus_get_latest_consensus_by_flavor st g)
  /\ (flavor_eqb g flav = false -> get_waiting st1 g = get_waiting st g)
  /\ (forall wc, w_consensus (get_waiting st1 flav) = Some wc ->
                 valid_after c < valid_after wc).
Proof.
  unfold install_consensus.
  set (usable := flavor_eqb flav (usable_consensus_flavor E)).
  set (st_a := when usable _ (when (negb (r =? 1) && dl) _ (when (negb fc && usable) _ st))).
  assert (same_stores st st_a) as [Ha1 Ha2].
  { unfold st_a. repeat (eapply same_stores_trans; [|apply same_stores_when; auto with stores]).
    auto with stores. }
  set (st_b := evict_waiting flav uf c (set_current flav (Some c) st_a)).
  destruct (evict_waiting_stores flav uf c (set_current flav (Some c) st_a) g) as (Hb1 & Hb2 & _).
  destruct (evict_waiting_stores flav uf c (set_current flav (Some c) st_a) flav) as (_ & _ & Hb3).
  fold st_b in Hb1, Hb2, Hb3.
  rewrite latest_set_current, Ha1 in Hb1. rewrite waiting_set_current, Ha2 in Hb2.
  set (st_c := if is_live c (now E) then _ else _).
  assert (same_stores st_b st_c) as Hc.
  { unfold st_c. destruct (is_live c (now E)); auto with stores. }
  intros H. apply bind_Some in H as (st_d & Hd & H).
  assert (same_stores st_c st_d) as Hd'.
  { destruct usable; [|simplify_eq; auto with stores].
    apply bind_Some in Hd as (st_e & He & Hd). apply same_stores_fetch_time in He.
    simplify_eq. repeat (eapply same_stores_trans; [|apply same_stores_emit]). done. }
  assert (same_stores st_d st1) as He.
  { simplify_eq. repeat (eapply same_stores_trans; [|first [apply same_stores_emit
        | apply same_stores_when; auto with stores]]). auto with stores. }
  destruct (same_stores_trans _ _ _ Hc (same_stores_trans _ _ _ Hd' He)) as [H1 H2].
  rewrite H1, !H2. auto.
Qed.
Lemma parked_newer_same_stores st st1 :
  same_stores st st1 -> parked_newer st -> parked_newer st1.
Proof.
  intros [H1 H2] Hinv flav P cur. rewrite H1, H2. apply Hinv.
Qed.

Lemma flavor_eqb_refl f : flavor_eqb f f = true.
Proof. by destruct f. Qed.

Lemma set_current_consensus_preserves_parked_newer E consensus flavname flags st r st1 :
  parked_newer st ->
  networkstatus_set_current_consensus E consensus flavname flags st = Some (r, st1) ->
  parked_newer st1.
Proof.
  intros Hinv. unfold networkstatus_set_current_consensus.
  destruct (networkstatus_parse_flavor_name flavname) as [flav0|] eqn:Hn.
  2:{ intros; by simplify_eq. }
  set (st0 := emit (EvParseConsensus consensus) st).
  assert (parked_newer st0) as Hinv0.
  { eapply parked_newer_same_stores; [apply same_stores_emit|done]. }
  destruct (networkstatus_parse_vote_from_string E consensus) as [c|].
  2:{ intros; by simplify_eq. }
  destruct (consensus_gates E c flav0 flavname flags st0) as [r0|flav fn cf uf cva] eqn:Hg.
  { intros; by simplify_eq. }
  destruct (consensus_gates_pass _ _ _ _ _ _ _ _ _ _ _ Hn Hg) as (-> & -> & -> & -> & Hcva & Hnew).
  intros H. apply bind_Some in H as (chk & Hchk & H).
  destruct (checked_valid_after _ _ _ _ Hchk) as (Hva & Hfl & _).
  destruct (Quorum.verdict chk <? 0).
  - destruct (Quorum.verdict chk =? -1).
    + destruct (_ || _).
      * simplify_eq. intros g P cur.
        destruct (park_consensus_stores E consensus (flavor c) (unverified_file (flavor c))
                    (flag_set flags NSSET_FROM_CACHE)
                    (negb (flag_set flags NSSET_DONT_DOWNLOAD_CERTS))
                    (Quorum.checked chk) st0 g) as [-> ->].
        destruct (flavor_eqb g (flavor c)) eqn:Hgf.
        -- apply flavor_eqb_eq in Hgf. subst g. simpl. intros [= <-] Hcur Hnz.
           rewrite Hcur in Hnew. simpl in Hnew. lia.
        -- apply Hinv0.
      * simplify_eq. eapply parked_newer_same_stores; [|done]. auto with stores.
    + simplify_eq. eapply parked_newer_same_stores; [|done]. auto with stores.
  - apply bind_Some in H as (st2 & Hi & H). simplify_eq.
    intros g P cur.
    destruct (install_consensus_stores _ _ _ _ _ _ _ _ _ _ _ _ g Hi) as (-> & Hw & Hev).
    destruct (flavor_eqb g (flavor c)) eqn:Hgf.
    + apply flavor_eqb_eq in Hgf. subst g. intros HP [= <-] _. by apply Hev.
    + rewrite (Hw eq_refl). apply Hinv0.
Qed.

Lemma parked_newer_initial : parked_newer initial_state.
Proof. intros [] P cur; simpl; discriminate. Qed.

(** The invariant reads the stores only through the current consensuses
    and the [valid_after] of the parked ones. *)
Lemma parked_newer_ext st st1 :
  (forall f, networkstatus_get_latest_consensus_by_flavor st1 f
             = networkstatus_get_latest_consensus_by_flavor st f) ->
  (forall f, valid_after <$> w_consensus (get_waiting st1 f)
             = valid_after <$> w_consensus (get_waiting st f)) ->
  parked_newer st -> parked_newer st1.
Proof.
  intros H1 H2 Hinv f P cur HP Hcur Hnz. rewrite H1 in Hcur.
  specialize (H2 f). rewrite HP in H2. simpl in H2.
  destruct (w_consensus (get_waiting st f)) as [P0|] eqn:HP0; [|done].
  simpl in H2. injection H2 as ->. by eapply Hinv.
Qed.

Lemma downloads_for_flavor_preserves_parked_newer E t f st :
  parked_newer st -> parked_newer (Scheduler.downloads_for_flavor E t f st).2.
Proof.
  intros Hinv. unfold Scheduler.downloads_for_flavor.
  destruct (negb (Scheduler.we_want_to_fetch_flavor E (flavor_to_int f))); [done|].
  set (st0 := match networkstatus_get_latest_consensus_by_flavor st f with
              | Some c => if is_live c t then st else set_next_download f t st
              | None => set_next_download f t st
              end).
  assert (same_stores st st0) as Hs0.
  { unfold st0. destruct (networkstatus_get_latest_consensus_by_flavor st f) as [c|];
      [destruct (is_live c t)|]; auto with stores. }
  assert (parked_newer st0) as Hinv0 by (by eapply parked_newer_same_stores).
  clearbody st0.
  destruct (time_to_download_next_consensus st0 f >? t); [done|].
  destruct (negb (download_status_is_ready E f)); [done|].
  destruct (connection_dir_get_by_purpose_and_resource E _); [done|].
  destruct (w_consensus (get_waiting st0 f)) as [wc|] eqn:Hw; simpl.
  2:{ eapply parked_newer_same_stores; [|done]. auto with stores. }
  destruct (set_at (get_waiting st0 f) + Scheduler.DELAY_WHILE_FETCHING_CERTS >? t); [done|].
  simpl. eapply parked_newer_same_stores; [apply same_stores_emit|].
  destruct (negb (dl_failed (get_waiting st0 f))); [|done].
  eapply parked_newer_ext; [| |exact Hinv0].
  - intros g. by rewrite latest_set_waiting.
  - intros g. rewrite waiting_set_waiting.
    destruct (flavor_eqb g f) eqn:Hg.
    + apply flavor_eqb_eq in Hg. subst g. simpl. by rewrite Hw.
    + by destruct g, f.
Qed.

Lemma update_downloads_preserves_parked_newer E t st :
  parked_newer st -> parked_newer (Scheduler.update_consensus_networkstatus_downloads E t st).
Proof.
  intros Hinv. unfold Scheduler.update_consensus_networkstatus_downloads.
  pose proof (downloads_for_flavor_preserves_parked_newer E t FLAV_NS st Hinv) as H1.
  destruct (Scheduler.downloads_for_flavor E t FLAV_NS st) as [stop st1]. simpl in H1.
  destruct stop; [done|]. by apply downloads_for_flavor_preserves_parked_newer.
Qed.

Lemma certs_arrived_for_flavor_preserves_parked_newer E f st st1 :
  parked_newer st -> certs_arrived_for_flavor E f st = Some st1 -> parked_newer st1.
Proof.
  intros Hinv. unfold certs_arrived_for_flavor.
  destruct (w_consensus (get_waiting st f)) as [wc|] eqn:Hw.
  2:{ intros; by simplify_eq. }
  intros H. apply bind_Some in H as (chk & Hchk & H).
  destruct (checked_valid_after _ _ _ _ Hchk) as (Hva & _ & _).
  set (st0 := set_waiting f _ st) in H.
  assert (parked_newer st0) as Hinv0.
  { eapply parked_newer_ext; [| |exact Hinv].
    - intros g. unfold st0. by rewrite latest_set_waiting.
    - intros g. unfold st0. rewrite waiting_set_waiting.
      destruct (flavor_eqb g f) eqn:Hg; [|done].
      apply flavor_eqb_eq in Hg. subst g. simpl. by rewrite Hw, Hva. }
  clearbody st0.
  destruct (Quorum.verdict chk >=? 0); [|by simplify_eq].
  destruct (w_body (get_waiting st f)) as [body|]; [|done].
  apply bind_Some in H as ([r st2] & Hset & H). simpl in H.
  assert (parked_newer st2) as Hinv2.
  { eapply set_current_consensus_preserves_parked_newer; eassumption. }
  destruct (r =? 0); simplify_eq; [|done].
  eapply parked_newer_ext; [| |exact Hinv2].
  - intros g. by rewrite latest_set_waiting.
  - intros g. rewrite waiting_set_waiting.
    destruct (flavor_eqb g f) eqn:Hg; [|done].
    apply flavor_eqb_eq in Hg. by subst g.
Qed.

Lemma note_certs_arrived_preserves_parked_newer E st st1 :
  parked_newer st -> networkstatus_note_certs_arrived E st = Some st1 -> parked_newer st1.
Proof.
  intros Hinv H. unfold networkstatus_note_certs_arrived in H.
  apply bind_Some in H as (st2 & H1 & H2).
  eapply certs_arrived_for_flavor_preserves_parked_newer; [|exact H2].
  eapply certs_arrived_for_flavor_preserves_parked_newer; [exact Hinv|exact H1].
Qed.

Lemma free_all_parked_newer st : parked_newer (networkstatus_free_all st).
Proof. intros [] P cur; simpl; discriminate. Qed.

Lemma consensus_gates_drop E c flav0 flavname flags st cur :
  networkstatus_parse_flavor_name flavname = Some flav0 ->
  networkstatus_get_latest_consensus_by_flavor st (flavor c) = Some cur ->
  digests c = digests cur \/ (valid_after cur <> 0 /\ valid_after c <= valid_after cur) ->
  consensus_gates E c flav0 flavname flags st = GateReject (-1).
Proof.
  intros Hn Hcur Hdrop. apply parse_flavor_name_some in Hn. unfold consensus_gates.
  assert ((if digests_eqb (digests c) (digests cur) then true
           else negb (valid_after cur =? 0) && (valid_after c <=? valid_after cur)) = true)
    as Hcore.
  { destruct (digests_eqb (digests c) (digests cur)) eqn:Hd; [done|].
    destruct Hdrop as [Heq|[Hnz Hle]].
    - apply digests_eqb_eq in Heq. congruence.
    - apply andb_true_iff. rewrite negb_true_iff. lia. }
  destruct (flavor_eqb (flavor c) flav0) eqn:Hf; simpl.
  - apply flavor_eqb_eq in Hf. subst flav0 flavname.
    destruct (negb (flavor_eqb _ (usable_consensus_flavor E)) && _); [done|].
    destruct (flag_set flags NSSET_FROM_CACHE && _ && _); [done|].
    rewrite flavor_files_and_current_of, Hcur. simpl.
    destruct (digests_eqb (digests c) (digests cur)); [done|]. by rewrite Hcore.
  - destruct (flag_set flags NSSET_REQUIRE_FLAVOR); [done|].
    destruct (negb (flavor_eqb _ (usable_consensus_flavor E)) && _); [done|].
    destruct (flag_set flags NSSET_FROM_CACHE && _ && _); [done|].
    rewrite flavor_files_and_current_of, Hcur. simpl.
    destruct (digests_eqb (digests c) (digests cur)); [done|]. by rewrite Hcore.
Qed.







(** C6, as the code has it.  While a current consensus of the document's
    flavor is installed, a call whose flavor name is recognized and whose
    document parses with the same digests as the current one, or with a
    [valid_after] not later than the current one's when that is not 0,
    returns -1 and leaves the state as it was: same current consensuses,
    same parked ones, same files, and nothing recorded but the call of the
    parser (no control event, no download-status change). *)
Theorem duplicate_or_stale_is_dropped (E : Env) (consensus flavname : string) (flags : Z)
    (st : dir_state) (flav0 : consensus_flavor_t) (c cur : networkstatus_t) :
  networkstatus_parse_flavor_name flavname = Some flav0 ->
  networkstatus_parse_vote_from_string E consensus = Some c ->
  networkstatus_get_latest_consensus_by_flavor st (flavor c) = Some cur ->
  digests c = digests cur \/ (valid_after cur <> 0 /\ valid_after c <= valid_after cur) ->
  networkstatus_set_current_consensus E consensus flavname flags st
  = Some (-1, emit (EvParseConsensus consensus) st).
Proof.
  intros Hn Hp Hcur Hdrop. unfold networkstatus_set_current_consensus.
  rewrite Hn, Hp.
  rewrite (consensus_gates_drop E c flav0 flavname flags
             (emit (EvParseConsensus consensus) st) cur Hn); [done| |done].
  destruct (flavor c); exact Hcur.
Qed.

Lemma duplicate_or_stale_is_dropped_witness :
  networkstatus_set_current_consensus Examples.env_store "doc-need-certs" "ns" 0
    (set_current FLAV_NS (Some Examples.consensus_need_certs) initial_state)
  = Some (-1, emit (EvParseConsensus "doc-need-certs")
                   (set_current FLAV_NS (Some Examples.consensus_need_certs) initial_state)).
Proof.
  apply (duplicate_or_stale_is_dropped Examples.env_store "doc-need-certs" "ns" 0
           (set_current FLAV_NS (Some Examples.consensus_need_certs) initial_state)
           FLAV_NS Examples.consensus_need_certs Examples.consensus_need_certs).
  - reflexivity.
  - reflexivity.
  - reflexivity.
  - left. reflexivity.
Defined.

(** C6 as stated fails: the current consensus has [valid_after = 0]; a
    different document with [valid_after = 0], which is not later, is not
    dropped as stale: the call returns 0 and replaces the current
    consensus. *)
Lemma stale_document_replaces_epoch_consensus :
  exists cur st1,
    reachable Examples.st_epoch
    /\ networkstatus_get_latest_consensus_by_flavor Examples.st_epoch FLAV_NS = Some cur
    /\ networkstatus_parse_vote_from_string Examples.env_store "doc-epoch-other"
       = Some Examples.consensus_epoch_other
    /\ valid_after Examples.consensus_epoch_other <= valid_after cur
    /\ networkstatus_set_current_consensus Examples.env_store "doc-epoch-other" "ns" 0
         Examples.st_epoch = Some (0, st1)
    /\ networkstatus_get_latest_consensus_by_flavor st1 FLAV_NS <> Some cur.
Proof.
  do 2 eexists. split.
  { apply (reachable_set Examples.env_store "doc-epoch" "ns" 0 0 initial_state
             Examples.st_epoch reachable_init).
    reflexivity. }
  split; [reflexivity|]. split; [reflexivity|].
  split; [vm_compute; discriminate|]. split; [reflexivity|].
  vm_compute. discriminate.
Qed.

(** C10.  A call whose flavor name is neither "ns" nor "microdesc" returns
    -2 at once: the state comes back as it was given, so no store and no
    file changes and the parser is not called. *)
Theorem unrecognized_flavor_is_rejected (E : Env) (consensus flavname : string)
    (flags : Z) (st : dir_state) :
  flavname <> "ns" -> flavname <> "microdesc" ->
  networkstatus_set_current_consensus E consensus flavname flags st = Some (-2, st).
Proof.
  intros H1 H2. unfold networkstatus_set_current_consensus.
  by rewrite (parse_flavor_name_none flavname H1 H2).
Qed.

Lemma unrecognized_flavor_is_rejected_witness :
  networkstatus_set_current_consensus Examples.env_store "doc-epoch" "bogus" 0
    Examples.st_epoch = Some (-2, Examples.st_epoch).
Proof.
  apply (unrecognized_flavor_is_rejected Examples.env_store "doc-epoch" "bogus" 0
           Examples.st_epoch); discriminate.
Defined.

(** * Properties of the v2 status cache *)

Lemma note_entries_events (E : V2.V2Env) (live_until : Z) (l : list V2.routerstatus_t) :
  forall st l1 st1,
    V2.note_entries E live_until l st = (l1, st1) ->
    exists tr,
      V2.v2_trace st1 = V2.v2_trace st ++ tr
      /\ existsb V2Spec.is_clock_skew_event tr = false
      /\ existsb V2Spec.is_cache_event tr = false
      /\ V2.v2_datadir st1 = V2.v2_datadir st
      /\ V2.networkstatus_v2_list st1 = V2.networkstatus_v2_list st.
Proof.
  induction l as [|rs l IH]; simpl; intros st l1 st1 H.
  - simplify_eq. exists []. by rewrite app_nil_r.
  - destruct (V2.router_get_by_descriptor_digest E (V2.descriptor_digest rs)) as [t|].
    + destruct (V2.note_entries E live_until l _) as [l2 st2] eqn:H2. simplify_eq.
      apply IH in H2 as (tr & Ht & Hs & Hc & Hd & Hl).
      destruct (t <? live_until); simpl in *.
      * eexists (_ :: tr). rewrite Ht, <- app_assoc. simpl. by repeat split.
      * exists tr. by repeat split.
    + destruct (V2.note_entries E live_until l st) as [l2 st2] eqn:H2. simplify_eq.
      by apply IH in H2.
Qed.

Lemma add_networkstatus_to_cache_events (E : V2.V2Env) s source ns st :
  V2.directory_caches_v2_dir_info E = true ->
  V2.v2_trace (V2.add_networkstatus_to_cache E s source ns st)
  = V2.v2_trace st
    ++ [V2.V2DirservSetCachedNetworkstatus s (V2.v2_identity_digest ns) (V2.published_on ns)].
Proof.
  intros Hc. unfold V2.add_networkstatus_to_cache. rewrite Hc.
  by destruct (negb (V2.source_eqb source V2.NS_FROM_CACHE)).
Qed.

Lemma scan_v2_list_received_on (l : list V2.networkstatus_v2_t) (ns : V2.networkstatus_v2_t)
    (t : Z) : forall i,
  V2.scan_v2_list l (V2.set_received_on t ns) i = V2.scan_v2_list l ns i.
Proof. induction l as [|old l IH]; intros i; simpl; [done|]. by rewrite IH. Qed.

(** What one call adds to the trace. *)
Lemma router_set_networkstatus_v2_events (E : V2.V2Env) (s : string) (arrived_at : Z)
    (source : V2.v2_networkstatus_source_t) (requested : option (list string))
    (st : V2.v2_state) (ns : V2.networkstatus_v2_t) :
  V2.directory_caches_v2_dir_info E = true ->
  V2.networkstatus_v2_parse_from_string E s = Some ns ->
  exists tr,
    V2.v2_trace (V2.router_set_networkstatus_v2 E s arrived_at source requested st).1.2
    = V2.v2_trace st ++ tr
    /\ existsb V2Spec.is_clock_skew_event tr = V2.published_in_future E ns
    /\ existsb V2Spec.is_cache_event tr
       = negb (V2.published_in_future E ns) && V2Spec.v2_wanted E ns source requested st
    /\ (V2.published_in_future E ns = true ->
        V2.v2_datadir (V2.router_set_networkstatus_v2 E s arrived_at source requested st).1.2
        = V2.v2_datadir st).
Proof.
  intros Hc Hp. unfold V2.router_set_networkstatus_v2, V2Spec.v2_wanted.
  rewrite Hc, Hp. simpl.
  set (arr := if arrived_at >? V2.v2_now E then V2.v2_now E else arrived_at).
  set (ns1 := V2.set_received_on arr ns).
  assert (V2.published_in_future E ns1 = V2.published_in_future E ns) as Hsk by done.
  rewrite Hsk.
  set (st0 := if V2.published_in_future E ns then _ else st).
  assert (exists tr0, V2.v2_trace st0 = V2.v2_trace st ++ tr0
            /\ existsb V2Spec.is_clock_skew_event tr0 = V2.published_in_future E ns
            /\ existsb V2Spec.is_cache_event tr0 = false
            /\ V2.v2_datadir st0 = V2.v2_datadir st
            /\ V2.networkstatus_v2_list st0 = V2.networkstatus_v2_list st)
    as (tr0 & Ht0 & Hs0 & Hc0 & Hd0 & Hl0).
  { unfold st0. destruct (V2.published_in_future E ns).
    - eexists [_]. by repeat split.
    - exists []. by rewrite app_nil_r. }
  clearbody st0.
  destruct ((V2.source_eqb source V2.NS_FROM_DIR_BY_FP || V2.source_eqb source V2.NS_FROM_DIR_ALL)
            && V2.router_digest_is_me E (V2.v2_identity_digest ns)); simpl.
  { exists tr0. rewrite andb_false_r. by repeat split. }
  set (hit := match requested with Some l => _ | None => true end).
  destruct hit, (V2.source_eqb source V2.NS_FROM_DIR_ALL) eqn:Hall; simpl.
  4:{ exists tr0. rewrite andb_false_r. by repeat split. }
  all: destruct (V2.router_get_trusteddirserver_by_digest E (V2.v2_identity_digest ns))
         as [ds|]; simpl.
  all: subst ns1; rewrite ?Hl0, ?scan_v2_list_received_on.
  all: destruct (negb (V2.source_eqb source V2.NS_FROM_CACHE)) eqn:Hsrc.
  all: try (destruct (V2.scan_v2_list (V2.networkstatus_v2_list st) ns 0) as [i|i|i|] eqn:Hscan).
  all: try (destruct (V2.note_entries E _ _ _) as [entries1 st1] eqn:Hn;
            apply note_entries_events in Hn as (tr1 & Ht1 & Hs1 & Hc1 & Hd1 & Hl1)).
  all: destruct (V2.published_in_future E ns) eqn:Hf.
  all: repeat match goal with |- context [if ?b then _ else _] => destruct b eqn:? end.
  all: simpl; rewrite ?add_networkstatus_to_cache_events by done; simpl;
       rewrite ?Ht1; simpl; rewrite ?Ht0, <- ?app_assoc.
  all: eexists; (split; [reflexivity|]).
  all: rewrite ?existsb_app, ?Hs0, ?Hc0, ?Hs1, ?Hc1; simpl.
  all: repeat split; try done; try congruence.
  all: intros _; simpl in Hd1; congruence.
Qed.



(** A status of a recognized authority that is published too far in the
    future is kept out of the cache, but it does enter the in-memory list
    of v2 statuses. *)
Lemma skewed_status_of_recognized_authority_is_listed :
  let res := V2.router_set_networkstatus_v2 (V2Examples.env_known_at 87401) "status" 1000
               V2.NS_FROM_DIR_ALL None V2Examples.st_empty in
  V2.networkstatus_v2_list res.1.2 = [V2.set_received_on 1000 (V2Examples.status_at 87401)]
  /\ V2.v2_datadir res.1.2 = ∅
  /\ existsb V2Spec.is_cache_event (V2.v2_trace res.1.2) = false
  /\ existsb V2Spec.is_clock_skew_event (V2.v2_trace res.1.2) = true.
Proof. repeat split. Qed.

(** * Properties of the microdescriptor cache *)

Lemma N_ltb_Z a b : (a <? b)%N = (Z.of_N a <? Z.of_N b).
Proof.
  destruct (a <? b)%N eqn:H.
  - apply N.ltb_lt in H. symmetry. apply Z.ltb_lt. lia.
  - apply N.ltb_ge in H. symmetry. apply Z.ltb_ge. lia.
Qed.

Lemma should_rebuild_md_cache_iff (E : Microdesc.IoEnv) (cache : Microdesc.microdesc_cache_t) :
  Z.of_N (Microdesc.journal_len cache) + Z.of_N (MicrodescSpec.cache_len cache)
  < 2 ^ Z.of_N (Microdesc.size_bits E) ->
  Microdesc.should_rebuild_md_cache E cache = true <-> MicrodescSpec.rebuild_wanted cache.
Proof.
  intros Hfit.
  unfold Microdesc.should_rebuild_md_cache, MicrodescSpec.rebuild_wanted, Microdesc.size_add.
  fold (MicrodescSpec.cache_len cache).
  rewrite N.mod_small
    by (apply N2Z.inj_lt; rewrite N2Z.inj_add, N2Z.inj_pow; exact Hfit).
  rewrite !N_ltb_Z, !N2Z.inj_div, N2Z.inj_add. simpl (Z.of_N 16384). simpl (Z.of_N 3).
  simpl (Z.of_N 2).
  destruct (Z.of_N (Microdesc.journal_len cache) <? 16384) eqn:H1.
  { split; [done|]. lia. }
  destruct ((Z.of_N (Microdesc.journal_len cache) + Z.of_N (MicrodescSpec.cache_len cache)) / 3
            <? Z.of_N (Microdesc.bytes_dropped cache)) eqn:H2.
  { split; [|done]. intros _. split; [lia|]. left. lia. }
  destruct (Z.of_N (MicrodescSpec.cache_len cache) / 2
            <? Z.of_N (Microdesc.journal_len cache)) eqn:H3.
  { split; [|done]. intros _. split; [lia|]. right. lia. }
  split; [done|]. lia.
Qed.

Lemma dump_microdescriptor_fields (E : Microdesc.IoEnv) out md sz al md1 out1 :
  Microdesc.dump_microdescriptor E out md = (sz, al, md1, out1) ->
  Microdesc.md_digest md1 = Microdesc.md_digest md
  /\ Microdesc.no_save md1 = Microdesc.no_save md
  /\ Microdesc.saved_location md1 = Microdesc.saved_location md
  /\ Microdesc.bodylen md1 = Microdesc.bodylen md
  /\ (MicrodescSpec.dump_succeeds E md = true -> 0 <= sz).
Proof.
  unfold Microdesc.dump_microdescriptor, MicrodescSpec.dump_succeeds.
  destruct (if negb (Microdesc.last_listed md =? 0) then _ else _).
  - simpl. destruct (Microdesc.fwrite_outcome E (Microdesc.md_digest md));
      intros; simplify_eq; simpl; repeat split; try done.
    intros _. unfold Microdesc.strlen. lia.
  - intros; simplify_eq. by repeat split.
Qed.
Lemma rebuild_loop_marks (E : Microdesc.IoEnv) (l : list Microdesc.microdesc_t) :
  forall off out marked out1,
    Microdesc.rebuild_loop E l off out = (marked, out1) ->
    Forall2 (λ md (p : Microdesc.microdesc_t * bool),
               Microdesc.md_digest p.1 = Microdesc.md_digest md
               /\ Microdesc.no_save p.1 = Microdesc.no_save md
               /\ (Microdesc.no_save md = true -> p = (md, false))
               /\ (Microdesc.no_save md = false -> MicrodescSpec.dump_succeeds E md = true ->
                   p.2 = true)
               /\ (p.2 = true -> Microdesc.saved_location p.1 = Microdesc.SAVED_IN_CACHE))
            l marked.
Proof.
  induction l as [|md l IH]; simpl; intros off out marked out1 H.
  - simplify_eq. constructor.
  - destruct (Microdesc.no_save md) eqn:Hns.
    + destruct (Microdesc.rebuild_loop E l off out) as [rest1 out2] eqn:Hr. simplify_eq.
      constructor; [|by eapply IH]. simpl. repeat split; try done; intros; congruence.
    + destruct (Microdesc.dump_microdescriptor E out md) as [[[sz al] md1] out2] eqn:Hd.
      destruct (dump_microdescriptor_fields _ _ _ _ _ _ _ Hd) as (Hdig & Hno & Hloc & Hlen & Hsz).
      destruct (sz <? 0) eqn:Hneg.
      * destruct (Microdesc.rebuild_loop E l off out2) as [rest1 out3] eqn:Hr. simplify_eq.
        constructor; [|by eapply IH]. simpl. repeat split; try done; try congruence.
        intros _ Hok. specialize (Hsz Hok). lia.
      * destruct (Microdesc.rebuild_loop E l (off + sz) out2) as [rest1 out3] eqn:Hr.
        simplify_eq. constructor; [|by eapply IH]. simpl.
        destruct (Microdesc.saved_location md1) eqn:Hsl; simpl; repeat split; try done;
          congruence.
Qed.

Lemma rebind_loop_bodies (mm : Microdesc.tor_mmap_t)
    (marked : list (Microdesc.microdesc_t * bool)) :
  forall l1,
    Microdesc.rebind_loop mm marked = Some l1 ->
    Forall2 (λ (p : Microdesc.microdesc_t * bool) md1,
               Microdesc.md_digest md1 = Microdesc.md_digest p.1
               /\ Microdesc.no_save md1 = Microdesc.no_save p.1
               /\ (p.2 = false -> md1 = p.1)
               /\ (p.2 = true ->
                   Microdesc.saved_location md1 = Microdesc.SAVED_IN_CACHE
                   /\ Microdesc.body md1 = Microdesc.data mm + Microdesc.off md1
                   /\ Microdesc.body_content md1
                      = String.substring (Z.to_nat (Microdesc.off md1))
                          (N.to_nat (Microdesc.bodylen md1)) (Microdesc.mapped mm)))
            marked l1.
Proof.
  induction marked as [|[md b] marked IH]; simpl; intros l1 H.
  - simplify_eq. constructor.
  - destruct b.
    + destruct (Microdesc.saved_location_eqb (Microdesc.saved_location md)
                  Microdesc.SAVED_IN_CACHE) eqn:Hsl; [|done]. simpl in H.
      destruct (bool_decide _); [|done]. simpl in H.
      apply bind_Some in H as (rest1 & Hr & H). simplify_eq.
      constructor; [|by apply IH]. simpl. repeat split; try done.
      by destruct (Microdesc.saved_location md).
    + apply bind_Some in H as (rest1 & Hr & H). simplify_eq.
      constructor; [|by apply IH]. simpl. by repeat split.
Qed.

(** The postcondition of the rebuild proper. *)
Lemma rebuild_cache_file_completed (E : Microdesc.IoEnv) (cache cache1 : Microdesc.microdesc_cache_t) :
  Microdesc.rebuild_cache_file E cache = Some (0, cache1) ->
  Microdesc.journal_len cache1 = 0%N
  /\ Microdesc.bytes_dropped cache1 = 0%N
  /\ Forall2 (MicrodescSpec.rebuilt E (Microdesc.cache_content cache1))
             (Microdesc.map cache) (Microdesc.map cache1).
Proof.
  unfold Microdesc.rebuild_cache_file.
  destruct (negb (Microdesc.start_writing_to_stdio_file E)); [done|].
  destruct (Microdesc.rebuild_loop E (Microdesc.map cache) 0 EmptyString) as [marked out] eqn:Hl.
  apply rebuild_loop_marks in Hl.
  destruct (Microdesc.tor_mmap_file E _) as [mm|].
  - intros H. apply bind_Some in H as (map1 & Hb & H). simplify_eq. simpl.
    split; [done|]. split; [done|]. apply rebind_loop_bodies in Hb.
    clear -Hl Hb. revert map1 Hb.
    induction Hl as [|md p l marked (Hd & Hn & Hu & Hm & Hs) _ IH]; intros map1 Hb.
    + inversion Hb. constructor.
    + inversion Hb as [|p1 md1 marked1 rest1 (Hd1 & Hn1 & Hk & Hw) Hrest]; subst.
      constructor; [|by apply IH].
      split; [congruence|]. split; [congruence|]. split.
      * intros Hns. rewrite (Hu Hns) in Hk. by apply Hk.
      * intros Hns Hok. destruct (Hw (Hm Hns Hok)) as (? & ? & ?).
        split; [done|]. by exists mm.
  - destruct (existsb snd marked) eqn:Hany; [done|].
    intros; simplify_eq. simpl. split; [done|]. split; [done|].
    clear -Hl Hany.
    induction Hl as [|md p l marked (Hd & Hn & Hu & Hm & Hs) _ IH]; simpl; [constructor|].
    simpl in Hany. apply orb_false_iff in Hany as [Hp Hrest].
    constructor; [|by apply IH].
    split; [done|]. split; [done|]. split.
    + intros Hns. by rewrite (Hu Hns).
    + intros Hns Hok. rewrite (Hm Hns Hok) in Hp. done.
Qed.

(** The sum [journal_len + old_len] is formed in [size_t]: with a 32-bit
    [size_t] and a cache file of 2^32 - 1 bytes it wraps around, and the
    test asks for a rebuild that the sizes themselves do not call for. *)
Lemma rebuild_trigger_wraps_in_size_t :
  Microdesc.should_rebuild_md_cache MicrodescExamples.io_ok MicrodescExamples.cache_huge = true
  /\ ~ MicrodescSpec.rebuild_wanted MicrodescExamples.cache_huge.
Proof.
  split; [reflexivity|]. intros [_ [H|H]]; vm_compute in H; discriminate H.
Qed.

(** C8, as the code has it.  With [cleaned] the cache after the cleaning
    that opens [microdesc_cache_rebuild]: the test [should_rebuild_md_cache]
    holds exactly when [journal_len >= 16384] and
    ([bytes_dropped > (journal_len + cache_len)/3] or
    [journal_len > cache_len/2]), provided the sum of the two lengths fits
    in a [size_t]; the rebuild proper runs exactly when [force] is set or
    the test holds, and otherwise 0 is returned at once; and after a
    completed rebuild (return value 0) [journal_len] and [bytes_dropped]
    are 0 and every descriptor of the map that is not marked [no_save] and
    whose dump succeeded has [saved_location = SAVED_IN_CACHE] and a body
    that points into the new mapping at its offset.  Descriptors marked
    [no_save] stay in the map as they were. *)
Theorem rebuild_trigger_and_outcome (E : Microdesc.IoEnv) (ds : dir_state)
    (cache : Microdesc.microdesc_cache_t) (force : bool) :
  (Z.of_N (Microdesc.journal_len (Microdesc.microdesc_cache_clean E ds cache 0 false))
   + Z.of_N (MicrodescSpec.cache_len (Microdesc.microdesc_cache_clean E ds cache 0 false))
   < 2 ^ Z.of_N (Microdesc.size_bits E) ->
   (Microdesc.should_rebuild_md_cache E (Microdesc.microdesc_cache_clean E ds cache 0 false)
    = true
    <-> MicrodescSpec.rebuild_wanted (Microdesc.microdesc_cache_clean E ds cache 0 false)))
  /\ Microdesc.microdesc_cache_rebuild E ds cache force
     = (if force
           || Microdesc.should_rebuild_md_cache E
                (Microdesc.microdesc_cache_clean E ds cache 0 false)
        then Microdesc.rebuild_cache_file E (Microdesc.microdesc_cache_clean E ds cache 0 false)
        else Some (0, Microdesc.microdesc_cache_clean E ds cache 0 false))
  /\ (forall cache1,
        Microdesc.rebuild_cache_file E (Microdesc.microdesc_cache_clean E ds cache 0 false)
        = Some (0, cache1) ->
        Microdesc.journal_len cache1 = 0%N
        /\ Microdesc.bytes_dropped cache1 = 0%N
        /\ Forall2 (MicrodescSpec.rebuilt E (Microdesc.cache_content cache1))
                   (Microdesc.map (Microdesc.microdesc_cache_clean E ds cache 0 false))
                   (Microdesc.map cache1)).
Proof.
  split; [apply should_rebuild_md_cache_iff|]. split.
  - unfold Microdesc.microdesc_cache_rebuild.
    destruct force, (Microdesc.should_rebuild_md_cache E _); reflexivity.
  - apply rebuild_cache_file_completed.
Qed.

Lemma rebuild_trigger_and_outcome_witness :
  (Microdesc.should_rebuild_md_cache MicrodescExamples.io_ok MicrodescExamples.cache_grown = true
   <-> MicrodescSpec.rebuild_wanted MicrodescExamples.cache_grown)
  /\ exists cache1,
      Microdesc.microdesc_cache_rebuild MicrodescExamples.io_ok initial_state
        MicrodescExamples.cache_two true = Some (0, cache1)
      /\ Microdesc.journal_len cache1 = 0%N
      /\ Microdesc.bytes_dropped cache1 = 0%N
      /\ Forall2 (MicrodescSpec.rebuilt MicrodescExamples.io_ok (Microdesc.cache_content cache1))
                 (Microdesc.map MicrodescExamples.cache_two) (Microdesc.map cache1).
Proof.
  split.
  - apply (proj1 (rebuild_trigger_and_outcome MicrodescExamples.io_ok initial_state
                    MicrodescExamples.cache_grown false)); vm_compute; congruence.
  - eexists. split; [reflexivity|].
    apply (proj2 (proj2 (rebuild_trigger_and_outcome MicrodescExamples.io_ok initial_state
                           MicrodescExamples.cache_two true))).
    reflexivity.
Defined.

(** C8 as stated fails: a forced rebuild of a cache that holds one
    descriptor marked [no_save] completes with return value 0, and the
    descriptor is still in the map with [saved_location = SAVED_NOWHERE]. *)
Lemma unsaved_descriptor_survives_rebuild_outside_cache :
  exists cache1,
    Microdesc.microdesc_cache_rebuild MicrodescExamples.io_ok initial_state
      MicrodescExamples.cache_unsaved true = Some (0, cache1)
    /\ Microdesc.journal_len cache1 = 0%N
    /\ Microdesc.bytes_dropped cache1 = 0%N
    /\ MicrodescExamples.md_unsaved ∈ Microdesc.map cache1
    /\ ~ MicrodescSpec.all_in_cache cache1.
Proof.
  eexists. split; [reflexivity|]. split; [reflexivity|]. split; [reflexivity|].
  split; [simpl; apply list_elem_of_here|].
  intros H. destruct (H MicrodescExamples.md_unsaved) as [Hloc _].
  - simpl. apply list_elem_of_here.
  - discriminate Hloc.
Qed.
(** * What the steps of the store leave alone *)

(** Frame facts: what the fetch-time update leaves alone. *)
Lemma fetch_time_impl_frame E t f st st1 :
  Scheduler.update_consensus_networkstatus_fetch_time_impl E t f st = Some st1 ->
  datadir st1 = datadir st /\ trace st1 = trace st.
Proof.
  unfold Scheduler.update_consensus_networkstatus_fetch_time_impl.
  destruct (negb _); [by intros [= <-]|].
  destruct (networkstatus_get_latest_consensus_by_flavor st f) as [c|].
  2:{ intros [= <-]. by destruct f. }
  destruct (is_live c t).
  2:{ intros [= <-]. by destruct f. }
  destruct (Scheduler.fetch_window E c) as [start dl].
  destruct (negb _); [done|]. destruct (negb _); [done|].
  intros [= <-]. by destruct f.
Qed.

Lemma fetch_time_frame E t st st1 :
  Scheduler.update_consensus_networkstatus_fetch_time E t st = Some st1 ->
  datadir st1 = datadir st /\ trace st1 = trace st.
Proof.
  unfold Scheduler.update_consensus_networkstatus_fetch_time.
  intros H. apply bind_Some in H as (st2 & H2 & H).
  assert (datadir st2 = datadir st /\ trace st2 = trace st) as [Hd Ht].
  { destruct (Scheduler.we_want_to_fetch_flavor E _).
    - by apply fetch_time_impl_frame in H2.
    - by simplify_eq. }
  rewrite <- Hd, <- Ht. clear H2.
  destruct (Scheduler.we_want_to_fetch_flavor E _).
  - by apply fetch_time_impl_frame in H.
  - by simplify_eq.
Qed.

Lemma trace_set_current f c st : trace (set_current f c st) = trace st.
Proof. by destruct f. Qed.

Lemma trace_set_waiting f w st : trace (set_waiting f w st) = trace st.
Proof. by destruct f. Qed.

Lemma trace_evict_waiting flav uf c st : trace (evict_waiting flav uf c st) = trace st.
Proof.
  unfold evict_waiting. destruct (w_consensus _); [|done].
  destruct (_ <=? _); [|done]. by destruct flav.
Qed.
(** * Further properties of the quorum checker *)

Import QuorumProps.

Lemma flags_raised_refl s : flags_raised s s.
Proof. repeat split; auto. intros -> ->. done. Qed.

Lemma check_document_signature_raises E c sig cert sig1 :
  good_signature sig = false -> bad_signature sig = false ->
  networkstatus_check_document_signature E c sig cert = Some sig1 ->
  flags_raised sig sig1.
Proof.
  intros Hg Hb. unfold networkstatus_check_document_signature.
  destruct (crypto_pk_get_digest E (signing_key cert)); [|done].
  destruct (_ || _); [done|].
  match goal with |- context [if ?b then _ else _] => destruct b end;
    intros; simplify_eq; repeat split; simpl; rewrite ?Hg, ?Hb; auto.
Qed.

Lemma check_one_signature_raises E c voter sig t t1 sig1 :
  check_one_signature E c voter sig t = Some (t1, sig1) -> flags_raised sig sig1.
Proof.
  unfold check_one_signature.
  destruct (good_signature sig) eqn:Hg; simpl.
  { intros; simplify_eq. apply flags_raised_refl. }
  destruct (bad_signature sig) eqn:Hb; simpl.
  { intros; simplify_eq. apply flags_raised_refl. }
  destruct (bool_decide (is_Some (signature sig))); simpl.
  2:{ intros; simplify_eq. apply flags_raised_refl. }
  destruct (negb (bool_decide _)); [done|].
  destruct (negb _).
  { intros; simplify_eq. apply flags_raised_refl. }
  destruct (authority_cert_get_by_digests E _ _) as [cert|].
  2:{ intros; simplify_eq. apply flags_raised_refl. }
  destruct (expires cert <? now E).
  { intros; simplify_eq. apply flags_raised_refl. }
  destruct (networkstatus_check_document_signature E c sig cert) as [sig2|] eqn:Hc.
  2:{ intros; simplify_eq. apply flags_raised_refl. }
  intros; simplify_eq. by eapply check_document_signature_raises.
Qed.

Lemma check_voter_sigs_raises E c voter l : forall t t1 l1,
  check_voter_sigs E c voter l t = Some (t1, l1) -> Forall2 flags_raised l l1.
Proof.
  induction l as [|sig l IH]; simpl; intros t t1 l1 H.
  - simplify_eq. constructor.
  - destruct (check_one_signature E c voter sig t) as [[t2 sig2]|] eqn:H1; [|done].
    destruct (check_voter_sigs E c voter l t2) as [[t3 l3]|] eqn:H2; [|done].
    simplify_eq. constructor; [by eapply check_one_signature_raises|by eapply IH].
Qed.

Lemma check_voters_raises E c l : forall n n1 l1,
  check_voters E c l n = Some (n1, l1) -> Forall2 voter_flags_raised l l1.
Proof.
  induction l as [|voter l IH]; intros n n1 l1 H.
  - simpl in H. simplify_eq. constructor.
  - cbn [check_voters] in H.
    destruct (check_voter_sigs E c voter (sigs voter) tally0) as [[t s1]|] eqn:H1; [|done].
    destruct (check_voters E c l (count_voter t n)) as [[n2 l2]|] eqn:H2; [|done].
    simplify_eq. constructor; [|by eapply IH].
    repeat split; simpl; auto. by eapply check_voter_sigs_raises.
Qed.

(** X1. A run of the signature check that returns changes nothing in the
    consensus but the good_signature and bad_signature flags of its
    signatures: it keeps type, flavor, validity times, digests, voters and
    signatures, clears no flag that was set, and never sets both flags on
    a signature that carried none. *)
Theorem checker_only_raises_signature_flags (E : Env) (consensus : networkstatus_t)
    (warn : Z) (res : check_result) :
  networkstatus_check_consensus_signature E consensus warn = Some res ->
  ns_type (checked res) = ns_type consensus
  /\ flavor (checked res) = flavor consensus
  /\ valid_after (checked res) = valid_after consensus
  /\ fresh_until (checked res) = fresh_until consensus
  /\ valid_until (checked res) = valid_until consensus
  /\ digests (checked res) = digests consensus
  /\ Forall2 voter_flags_raised (voters consensus) (voters (checked res)).
Proof.
  unfold networkstatus_check_consensus_signature.
  destruct (ns_type consensus) eqn:Ht; try done.
  destruct (check_voters E consensus (voters consensus) counters0) as [[n vs]|] eqn:Hv; [|done].
  intros; simplify_eq; simpl. repeat split; auto. by eapply check_voters_raises.
Qed.

(** ** Checking again *)

Lemma check_document_signature_digests E c c' sig cert :
  digests c' = digests c ->
  networkstatus_check_document_signature E c' sig cert
  = networkstatus_check_document_signature E c sig cert.
Proof. intros H. unfold networkstatus_check_document_signature. by rewrite H. Qed.

(** A signature comes out of a check in a state in which a second check, in
    the same environment, counts it the same way and leaves it alone. *)
Lemma check_one_signature_again E c c' voter voter' sig t t1 sig1 :
  digests c' = digests c ->
  identity_digest voter' = identity_digest voter ->
  check_one_signature E c voter sig t = Some (t1, sig1) ->
  check_one_signature E c' voter' sig1 t = Some (t1, sig1).
Proof.
  intros Hd Hid. unfold check_one_signature. rewrite Hid.
  destruct (good_signature sig) eqn:Hg; simpl.
  { intros; simplify_eq. by rewrite Hg. }
  destruct (bad_signature sig) eqn:Hb; simpl.
  { intros; simplify_eq. by rewrite Hg, Hb. }
  destruct (bool_decide (is_Some (signature sig))) eqn:Hs; simpl.
  2:{ intros; simplify_eq. by rewrite Hg, Hb, Hs. }
  destruct (negb (bool_decide _)) eqn:Hi; [done|].
  destruct (negb (trusteddirserver_get_by_v3_auth_digest _ _)) eqn:Ha.
  { intros; simplify_eq. by rewrite Hg, Hb, Hs, Hi, Ha. }
  destruct (authority_cert_get_by_digests E _ _) as [cert|] eqn:Hcert.
  2:{ intros; simplify_eq. by rewrite Hg, Hb, Hs, Hi, Ha, Hcert. }
  destruct (expires cert <? now E) eqn:He.
  { intros; simplify_eq. by rewrite Hg, Hb, Hs, Hi, Ha, Hcert, He. }
  destruct (networkstatus_check_document_signature E c sig cert) as [sig2|] eqn:Hc.
  2:{ intros; simplify_eq.
      by rewrite Hg, Hb, Hs, Hi, Ha, Hcert, He, (check_document_signature_digests E c c') , Hc. }
  intros; simplify_eq.
  destruct (check_document_signature_flags E c _ _ _ Hg Hb Hc) as [[Hg2 Hb2]|[Hg2 Hb2]];
    by rewrite Hg2, ?Hb2.
Qed.

Lemma check_voter_sigs_again E c c' voter voter' l : forall t t1 l1,
  digests c' = digests c ->
  identity_digest voter' = identity_digest voter ->
  check_voter_sigs E c voter l t = Some (t1, l1) ->
  check_voter_sigs E c' voter' l1 t = Some (t1, l1).
Proof.
  induction l as [|sig l IH]; simpl; intros t t1 l1 Hd Hid H.
  - by simplify_eq.
  - destruct (check_one_signature E c voter sig t) as [[t2 sig2]|] eqn:H1; [|done].
    destruct (check_voter_sigs E c voter l t2) as [[t3 l3]|] eqn:H2; [|done].
    simplify_eq. simpl.
    rewrite (check_one_signature_again E c c' voter voter' sig t t2 sig2 Hd Hid H1).
    by rewrite (IH t2 t1 l3 Hd Hid H2).
Qed.

Lemma check_voters_again E c c' l : forall n n1 l1,
  digests c' = digests c ->
  check_voters E c l n = Some (n1, l1) ->
  check_voters E c' l1 n = Some (n1, l1).
Proof.
  induction l as [|voter l IH]; intros n n1 l1 Hd H.
  - simpl in H. by simplify_eq.
  - cbn [check_voters] in H.
    destruct (check_voter_sigs E c voter (sigs voter) tally0) as [[t s1]|] eqn:H1; [|done].
    destruct (check_voters E c l (count_voter t n)) as [[n2 l2]|] eqn:H2; [|done].
    simplify_eq. cbn [check_voters sigs identity_digest nickname].
    rewrite (check_voter_sigs_again E c c' voter
               (mk_voter (identity_digest voter) (nickname voter) s1)
               (sigs voter) tally0 t s1 Hd eq_refl H1).
    by rewrite (IH _ _ _ Hd H2).
Qed.

(** X2. Checking a consensus again, in the same environment and right
    after a check that returned, returns too, gives the same answer and
    the same counters, and leaves the consensus as the first check left
    it; the warn argument plays no part in this. *)
Theorem second_check_changes_nothing (E : Env) (consensus : networkstatus_t)
    (warn warn' : Z) (res : check_result) :
  networkstatus_check_consensus_signature E consensus warn = Some res ->
  exists res',
    networkstatus_check_consensus_signature E (checked res) warn' = Some res'
    /\ verdict res' = verdict res
    /\ tallied res' = tallied res
    /\ checked res' = checked res.
Proof.
  unfold networkstatus_check_consensus_signature.
  destruct (ns_type consensus) eqn:Ht; try done.
  destruct (check_voters E consensus (voters consensus) counters0) as [[n vs]|] eqn:Hv; [|done].
  intros; simplify_eq; simpl.
  match goal with
  | |- context [check_voters E ?c' vs counters0] =>
    rewrite (check_voters_again E consensus c' (voters consensus) counters0 n vs eq_refl Hv)
  end.
  eexists. split; [reflexivity|]. done.
Qed.

(** ** Checking in another environment *)

Lemma check_one_signature_good E c voter sig t t1 sig1 :
  check_one_signature E c voter sig t = Some (t1, sig1) ->
  good_here t1 = good_here t + ind (good_signature sig1).
Proof.
  unfold check_one_signature, tally_flags.
  destruct (good_signature sig) eqn:Hg; simpl.
  { intros; simplify_eq; simpl. by rewrite Hg. }
  destruct (bad_signature sig) eqn:Hb; simpl.
  { intros; simplify_eq; simpl. rewrite Hg. simpl. lia. }
  destruct (bool_decide (is_Some (signature sig))); simpl.
  2:{ intros; simplify_eq; simpl. rewrite Hg. simpl. lia. }
  destruct (negb (bool_decide _)); [done|].
  destruct (negb (trusteddirserver_get_by_v3_auth_digest _ _)).
  { intros; simplify_eq; simpl. rewrite Hg. simpl. lia. }
  destruct (authority_cert_get_by_digests E _ _) as [cert|].
  2:{ intros; simplify_eq; simpl. rewrite Hg. simpl. lia. }
  destruct (expires cert <? now E).
  { intros; simplify_eq; simpl. rewrite Hg. simpl. lia. }
  destruct (networkstatus_check_document_signature E c sig cert) as [sig2|] eqn:Hc.
  2:{ intros; simplify_eq; simpl. rewrite Hg. simpl. lia. }
  destruct (check_document_signature_flags E c _ _ _ Hg Hb Hc) as [[Hg2 Hb2]|[Hg2 Hb2]];
    rewrite Hg2, ?Hb2; intros; simplify_eq; simpl; rewrite Hg2; simpl; lia.
Qed.

(** A signature that comes out of a check unflagged and with its bytes has
    passed the assertion on its identity. *)
Lemma check_one_signature_checkable E c voter sig t t1 sig1 :
  check_one_signature E c voter sig t = Some (t1, sig1) ->
  good_signature sig1 = false -> bad_signature sig1 = false -> is_Some (signature sig1) ->
  sig_identity_digest sig1 = identity_digest voter.
Proof.
  unfold check_one_signature.
  destruct (good_signature sig) eqn:Hg; simpl.
  { intros; simplify_eq; congruence. }
  destruct (bad_signature sig) eqn:Hb; simpl.
  { intros; simplify_eq; congruence. }
  destruct (bool_decide (is_Some (signature sig))) eqn:Hs; simpl.
  2:{ intros; simplify_eq. by apply bool_decide_eq_false in Hs. }
  destruct (bool_decide (sig_identity_digest sig = identity_digest voter)) eqn:Hi; [|done].
  apply bool_decide_eq_true in Hi. simpl.
  destruct (negb (trusteddirserver_get_by_v3_auth_digest _ _)).
  { intros; by simplify_eq. }
  destruct (authority_cert_get_by_digests E _ _) as [cert|].
  2:{ intros; by simplify_eq. }
  destruct (expires cert <? now E).
  { intros; by simplify_eq. }
  destruct (networkstatus_check_document_signature E c sig cert) as [sig2|] eqn:Hc.
  2:{ intros; by simplify_eq. }
  destruct (check_document_signature_flags E c _ _ _ Hg Hb Hc) as [[Hg2 Hb2]|[Hg2 Hb2]];
    intros; simplify_eq; congruence.
Qed.

Lemma check_one_signature_later E E' c c' voter voter' sig t t1 sig1 t' :
  identity_digest voter' = identity_digest voter ->
  check_one_signature E c voter sig t = Some (t1, sig1) ->
  exists t1' sig2,
    check_one_signature E' c' voter' sig1 t' = Some (t1', sig2)
    /\ good_here t' + ind (good_signature sig1) <= good_here t1'.
Proof.
  intros Hid H.
  destruct (good_signature sig1) eqn:Hg.
  { unfold check_one_signature, tally_flags. rewrite Hg. simpl.
    eexists _, _. split; [reflexivity|]. simpl. lia. }
  assert (is_Some (check_one_signature E' c' voter' sig1 t')) as [[t1' sig2] H'].
  { destruct (bad_signature sig1) eqn:Hb.
    { unfold check_one_signature. rewrite Hg, Hb. simpl. eauto. }
    destruct (signature sig1) as [bytes|] eqn:Hs.
    2:{ unfold check_one_signature. rewrite Hg, Hb, Hs. simpl. eauto. }
    apply check_one_signature_total. rewrite Hid.
    eapply check_one_signature_checkable; eauto. }
  exists t1', sig2. split; [done|].
  apply check_one_signature_good in H'. unfold ind in *.
  destruct (good_signature sig2); simpl; lia.
Qed.

Lemma check_voter_sigs_good E c voter l : forall t t1 l1,
  check_voter_sigs E c voter l t = Some (t1, l1) ->
  good_here t1 = good_here t + Z.of_nat (length (filter (fun s => good_signature s = true) l1)).
Proof.
  induction l as [|sig l IH]; simpl; intros t t1 l1 H.
  - simplify_eq. simpl. lia.
  - destruct (check_one_signature E c voter sig t) as [[t2 sig2]|] eqn:H1; [|done].
    destruct (check_voter_sigs E c voter l t2) as [[t3 l3]|] eqn:H2; [|done].
    simplify_eq. apply check_one_signature_good in H1. apply IH in H2.
    rewrite filter_cons. unfold ind in H1.
    destruct (good_signature sig2) eqn:Hg.
    + rewrite decide_True by done. simpl length. lia.
    + rewrite decide_False by done. lia.
Qed.

Lemma check_voter_sigs_later E E' c c' voter voter' l : forall t t1 l1 t',
  identity_digest voter' = identity_digest voter ->
  check_voter_sigs E c voter l t = Some (t1, l1) ->
  exists t1' l2,
    check_voter_sigs E' c' voter' l1 t' = Some (t1', l2)
    /\ good_here t1 - good_here t <= good_here t1' - good_here t'.
Proof.
  induction l as [|sig l IH]; simpl; intros t t1 l1 t' Hid H.
  - simplify_eq. simpl. eexists _, _. split; [reflexivity|]. lia.
  - destruct (check_one_signature E c voter sig t) as [[t2 sig2]|] eqn:H1; [|done].
    destruct (check_voter_sigs E c voter l t2) as [[t3 l3]|] eqn:H2; [|done].
    simplify_eq.
    destruct (check_one_signature_later E E' c c' voter voter' sig t t2 sig2 t' Hid H1)
      as (t2' & sig3 & H1' & Hle1).
    destruct (IH t2 t1 l3 t2' Hid H2) as (t3' & l4 & H2' & Hle2).
    simpl. rewrite H1', H2'. eexists _, _. split; [reflexivity|].
    apply check_one_signature_good in H1. lia.
Qed.

Lemma count_voter_good t n :
  n_good (count_voter t n) = n_good n + ind (negb (good_here t =? 0)).
Proof.
  unfold count_voter. destruct (negb (good_here t =? 0)); simpl; [lia|].
  repeat match goal with |- context [if ?b then _ else _] => destruct b end; simpl; lia.
Qed.

Lemma check_voters_later E E' c c' l : forall n n1 l1 n',
  check_voters E c l n = Some (n1, l1) ->
  exists n1' l2,
    check_voters E' c' l1 n' = Some (n1', l2)
    /\ n_good n1 - n_good n <= n_good n1' - n_good n'.
Proof.
  induction l as [|voter l IH]; intros n n1 l1 n' H.
  - simpl in H. simplify_eq. simpl. eexists _, _. split; [reflexivity|]. lia.
  - cbn [check_voters] in H.
    destruct (check_voter_sigs E c voter (sigs voter) tally0) as [[t s1]|] eqn:H1; [|done].
    destruct (check_voters E c l (count_voter t n)) as [[n2 l2]|] eqn:H2; [|done].
    simplify_eq. cbn [check_voters sigs identity_digest nickname].
    destruct (check_voter_sigs_later E E' c c' voter
                (mk_voter (identity_digest voter) (nickname voter) s1)
                (sigs voter) tally0 t s1 tally0 eq_refl H1) as (t' & s2 & H1' & Hle1).
    rewrite H1'.
    destruct (IH _ _ _ (count_voter t' n') H2) as (n3 & l3 & H2' & Hle2).
    rewrite H2'. eexists _, _. split; [reflexivity|].
    rewrite !count_voter_good in Hle2.
    apply check_voter_sigs_good in H1. simpl in H1, Hle1. unfold ind in Hle2.
    destruct (good_here t =? 0) eqn:Ht, (good_here t' =? 0) eqn:Ht'; simpl in Hle2; lia.
Qed.

(** X3. Once a check has returned, a later check of the checked consensus
    returns in every environment (other authorities, certificates, keys or
    clock) and counts at least as many good voters: a signature marked
    good is not verified again. *)
Theorem good_signatures_outlive_certificates (E E' : Env) (consensus : networkstatus_t)
    (warn warn' : Z) (res : check_result) :
  networkstatus_check_consensus_signature E consensus warn = Some res ->
  exists res',
    networkstatus_check_consensus_signature E' (checked res) warn' = Some res'
    /\ n_good (tallied res) <= n_good (tallied res').
Proof.
  unfold networkstatus_check_consensus_signature.
  destruct (ns_type consensus) eqn:Ht; try done.
  destruct (check_voters E consensus (voters consensus) counters0) as [[n vs]|] eqn:Hv; [|done].
  intros; simplify_eq; simpl.
  match goal with
  | |- context [check_voters E' ?c' vs counters0] =>
    destruct (check_voters_later E E' consensus c' (voters consensus) counters0 n vs counters0 Hv)
      as (n' & vs' & -> & Hle)
  end.
  eexists. split; [reflexivity|]. simpl in *. lia.
Qed.

Lemma checker_only_raises_signature_flags_witness :
  exists res,
    networkstatus_check_consensus_signature Examples.env_with_cert Examples.consensus_one 1
    = Some res
    /\ Forall2 voter_flags_raised (voters Examples.consensus_one) (voters (checked res)).
Proof.
  eexists. split; [reflexivity|].
  apply (checker_only_raises_signature_flags Examples.env_with_cert Examples.consensus_one 1 _
           eq_refl).
Defined.

Lemma second_check_changes_nothing_witness :
  exists res res',
    networkstatus_check_consensus_signature Examples.env_with_cert Examples.consensus_one 1
    = Some res
    /\ networkstatus_check_consensus_signature Examples.env_with_cert (checked res) 0
       = Some res'
    /\ verdict res' = verdict res /\ checked res' = checked res.
Proof.
  eexists.
  destruct (second_check_changes_nothing Examples.env_with_cert Examples.consensus_one 1 0 _
              eq_refl) as (res' & H1 & H2 & _ & H3).
  exists res'. split; [reflexivity|]. split; [exact H1|]. split; [exact H2|exact H3].
Defined.

Lemma good_signatures_outlive_certificates_witness :
  exists res res',
    networkstatus_check_consensus_signature Examples.env_with_cert Examples.consensus_one 1
    = Some res
    /\ networkstatus_check_consensus_signature Examples.env_no_cert (checked res) 0
       = Some res'
    /\ n_good (tallied res) <= n_good (tallied res').
Proof.
  eexists.
  destruct (good_signatures_outlive_certificates Examples.env_with_cert Examples.env_no_cert
              Examples.consensus_one 1 0 _ eq_refl) as (res' & H1 & H2).
  exists res'. split; [reflexivity|]. split; [exact H1|exact H2].
Defined.
(** * Further properties of the download scheduler *)

Import SchedulerProps.

(** X4. While the ns consensus is wanted, live, and its next download time
    lies in the future, update_consensus_networkstatus_downloads changes
    nothing at all: the return inside the loop also skips the microdesc
    flavor, whatever the state of that flavor is. *)
Theorem live_ns_consensus_defers_every_fetch (E : Env) (t : Z) (st : dir_state)
    (c : networkstatus_t) :
  we_want_to_fetch_flavor E (flavor_to_int FLAV_NS) = true ->
  current_ns_consensus st = Some c ->
  is_live c t = true ->
  t < next_download_ns st ->
  update_consensus_networkstatus_downloads E t st = st.
Proof.
  intros Hw Hc Hl Ht. unfold update_consensus_networkstatus_downloads, downloads_for_flavor.
  rewrite Hw. simpl. rewrite Hc, Hl. simpl.
  assert ((next_download_ns st >? t) = true) as -> by lia. done.
Qed.

Lemma downloads_for_flavor_fetch E t f st :
  exists evs,
    trace (downloads_for_flavor E t f st).2 = trace st ++ evs
    /\ existsb (is_fetch_of f) evs = fetch_due E t st f
    /\ (forall g, g <> f -> existsb (is_fetch_of g) evs = false).
Proof.
  unfold downloads_for_flavor, fetch_due.
  destruct (we_want_to_fetch_flavor E (flavor_to_int f)); simpl.
  2:{ exists []. by rewrite app_nil_r. }
  set (st1 := match networkstatus_get_latest_consensus_by_flavor st f with
              | Some c => if is_live c t then st else set_next_download f t st
              | None => set_next_download f t st
              end).
  assert (trace st1 = trace st /\ get_waiting st1 f = get_waiting st f
          /\ (time_to_download_next_consensus st1 f >? t)
             = negb match networkstatus_get_latest_consensus_by_flavor st f with
                    | Some c => negb (is_live c t) || (time_to_download_next_consensus st f <=? t)
                    | None => true
                    end) as (Htr & Hwt & Hdue).
  { unfold st1. destruct (networkstatus_get_latest_consensus_by_flavor st f) as [c|].
    - destruct (is_live c t); simpl.
      + repeat split; try done. lia.
      + destruct f; repeat split; simpl; try done; lia.
    - destruct f; repeat split; simpl; try done; lia. }
  rewrite Hdue, Hwt.
  destruct (match networkstatus_get_latest_consensus_by_flavor st f with
            | Some c => _ | None => true end); simpl.
  2:{ exists []. by rewrite app_nil_r. }
  destruct (download_status_is_ready E f); simpl.
  2:{ exists []. by rewrite app_nil_r. }
  destruct (connection_dir_get_by_purpose_and_resource E _); simpl.
  { exists []. by rewrite app_nil_r. }
  assert (forall g, g <> f ->
            bool_decide (networkstatus_get_flavor_name f = networkstatus_get_flavor_name g)
            = false) as Hother.
  { intros g Hg. apply bool_decide_eq_false. by destruct f, g. }
  destruct (w_consensus (get_waiting st f)) as [wc|]; simpl.
  - destruct (set_at (get_waiting st f) + DELAY_WHILE_FETCHING_CERTS >? t) eqn:Hd.
    + exists []. rewrite app_nil_r. simpl. split; [done|]. split; [lia|done].
    + destruct (dl_failed (get_waiting st f)); simpl.
      * exists [EvDirectoryGetFromDirserver (networkstatus_get_flavor_name f)].
        rewrite Htr. split; [done|]. simpl. rewrite bool_decide_eq_true_2 by done.
        split; [lia|]. intros g Hg. by rewrite (Hother g Hg).
      * exists [EvDownloadStatusFailed f 0;
                EvDirectoryGetFromDirserver (networkstatus_get_flavor_name f)].
        rewrite trace_set_waiting. simpl. rewrite Htr, <- app_assoc.
        split; [done|]. simpl. rewrite bool_decide_eq_true_2 by done.
        split; [lia|]. intros g Hg. by rewrite (Hother g Hg).
  - exists [EvDirectoryGetFromDirserver (networkstatus_get_flavor_name f)].
    rewrite Htr. split; [done|]. simpl. rewrite bool_decide_eq_true_2 by done.
    split; [done|]. intros g Hg. by rewrite (Hother g Hg).
Qed.

Lemma downloads_for_flavor_stop E t f st :
  (downloads_for_flavor E t f st).1 = consensus_not_due E t st f.
Proof.
  unfold downloads_for_flavor, consensus_not_due.
  destruct (we_want_to_fetch_flavor E (flavor_to_int f)); simpl; [|done].
  destruct (networkstatus_get_latest_consensus_by_flavor st f) as [c|].
  - destruct (is_live c t); simpl.
    + destruct (time_to_download_next_consensus st f >? t); [done|].
      repeat match goal with |- context [if ?b then _ else _] => destruct b end;
        try done; by destruct (w_consensus _).
    + assert ((time_to_download_next_consensus (set_next_download f t st) f >? t) = false)
        as -> by (destruct f; simpl; lia).
      repeat match goal with |- context [if ?b then _ else _] => destruct b end;
        try done; by destruct (w_consensus _).
  - assert ((time_to_download_next_consensus (set_next_download f t st) f >? t) = false)
      as -> by (destruct f; simpl; lia).
    repeat match goal with |- context [if ?b then _ else _] => destruct b end;
      try done; by destruct (w_consensus _).
Qed.

Lemma downloads_for_flavor_other E t f st g :
  g <> f ->
  networkstatus_get_latest_consensus_by_flavor (downloads_for_flavor E t f st).2 g
  = networkstatus_get_latest_consensus_by_flavor st g
  /\ time_to_download_next_consensus (downloads_for_flavor E t f st).2 g
     = time_to_download_next_consensus st g
  /\ get_waiting (downloads_for_flavor E t f st).2 g = get_waiting st g.
Proof.
  intros Hg. unfold downloads_for_flavor.
  destruct (we_want_to_fetch_flavor E (flavor_to_int f)); simpl; [|done].
  set (st1 := match networkstatus_get_latest_consensus_by_flavor st f with
              | Some c => if is_live c t then st else set_next_download f t st
              | None => set_next_download f t st
              end).
  assert (networkstatus_get_latest_consensus_by_flavor st1 g
          = networkstatus_get_latest_consensus_by_flavor st g
          /\ time_to_download_next_consensus st1 g = time_to_download_next_consensus st g
          /\ get_waiting st1 g = get_waiting st g) as H1.
  { unfold st1. destruct (networkstatus_get_latest_consensus_by_flavor st f) as [c|];
      [destruct (is_live c t)|]; try done; by destruct f, g. }
  repeat match goal with |- context [if ?b then _ else _] => destruct b end; simpl; try done;
    destruct (w_consensus (get_waiting st1 f)); simpl; try done;
    repeat match goal with |- context [if ?b then _ else _] => destruct b end; simpl; try done;
    destruct H1 as (? & ? & ?); by destruct f, g.
Qed.

(** X5. A call of update_consensus_networkstatus_downloads only appends to
    the sequence of outgoing calls; it launches a fetch of the ns
    consensus exactly when that fetch is due (the flavor is wanted, its
    consensus is missing, not live or due for replacement, the download
    status is ready, no fetch of it is in progress, and a parked consensus
    has waited 20 minutes for its certificates), and a fetch of the
    microdesc consensus exactly when that one is due and the ns turn did
    not end the loop. *)
Theorem consensus_fetch_launched_iff_due (E : Env) (t : Z) (st : dir_state) :
  exists evs,
    trace (update_consensus_networkstatus_downloads E t st) = trace st ++ evs
    /\ existsb (is_fetch_of FLAV_NS) evs = fetch_due E t st FLAV_NS
    /\ existsb (is_fetch_of FLAV_MICRODESC) evs
       = negb (consensus_not_due E t st FLAV_NS) && fetch_due E t st FLAV_MICRODESC.
Proof.
  unfold update_consensus_networkstatus_downloads.
  pose proof (downloads_for_flavor_stop E t FLAV_NS st) as Hstop.
  destruct (downloads_for_flavor_fetch E t FLAV_NS st) as (evs1 & Ht1 & Hf1 & Ho1).
  pose proof (downloads_for_flavor_other E t FLAV_NS st FLAV_MICRODESC ltac:(done))
    as (Hl & Hn & Hw).
  destruct (downloads_for_flavor E t FLAV_NS st) as [stop st1]. simpl in *.
  rewrite <- Hstop. destruct stop; simpl.
  - exists evs1. split; [done|]. split; [done|]. by apply Ho1.
  - destruct (downloads_for_flavor_fetch E t FLAV_MICRODESC st1) as (evs2 & Ht2 & Hf2 & Ho2).
    exists (evs1 ++ evs2). rewrite Ht2, Ht1, app_assoc. split; [done|].
    rewrite !existsb_app, Hf1, Hf2, (Ho1 FLAV_MICRODESC), (Ho2 FLAV_NS) by done.
    split; [by rewrite orb_false_r|].
    unfold fetch_due. simpl in *. by rewrite Hl, Hn, Hw.
Qed.

(** X6. For a consensus whose freshness interval is at least 87 seconds
    and which stays valid after fresh_until for at least one such
    interval, the download windows do not overlap: the window of an
    early-fetching node (a directory cache) ends no later than the window
    of an ordinary client starts, and the client window ends no later than
    the window of a late-fetching node (a bridge user) starts. *)
Theorem fetch_windows_are_staggered (E_cache E_client E_bridge : Env) (c : networkstatus_t) :
  directory_fetches_dir_info_early E_cache = true ->
  directory_fetches_dir_info_early E_client = false ->
  directory_fetches_dir_info_later E_client = false ->
  directory_fetches_dir_info_early E_bridge = false ->
  directory_fetches_dir_info_later E_bridge = true ->
  87 <= fresh_until c - valid_after c ->
  fresh_until c - valid_after c <= valid_until c - fresh_until c ->
  (fetch_window E_cache c).1 + (fetch_window E_cache c).2 <= (fetch_window E_client c).1
  /\ (fetch_window E_client c).1 + (fetch_window E_client c).2 <= (fetch_window E_bridge c).1.
Proof.
  intros H1 H2 H3 H4 H5 HI HD.
  unfold fetch_window, CONSENSUS_MIN_SECONDS_BEFORE_CACHING. rewrite H1, H2, H3, H4, H5.
  set (I := fresh_until c - valid_after c) in *.
  pose proof (quot_bounds I 16 ltac:(lia) ltac:(lia)) as H16.
  pose proof (quot_bounds I 2 ltac:(lia) ltac:(lia)) as H2'.
  pose proof (quot_bounds (I * 3) 4 ltac:(lia) ltac:(lia)) as H4'.
  set (s0 := fresh_until c + (I * 3) ÷ 4) in *.
  pose proof (quot_bounds ((valid_until c - s0) * 7) 8 ltac:(lia) ltac:(lia)) as H8.
  destruct (FetchDirInfoExtraEarly E_cache || authdir_mode_v3 E_cache);
    repeat match goal with |- context [if ?b then _ else _] => destruct b eqn:? end;
    simpl; lia.
Qed.

Lemma live_ns_consensus_defers_every_fetch_witness :
  update_consensus_networkstatus_downloads Examples.env_store 1000 MoreExamples.st_live_ns
  = MoreExamples.st_live_ns.
Proof.
  apply (live_ns_consensus_defers_every_fetch Examples.env_store 1000 MoreExamples.st_live_ns
           Examples.consensus_one); [reflexivity|reflexivity|reflexivity|].
  vm_compute. reflexivity.
Defined.

Lemma fetch_windows_are_staggered_witness :
  (fetch_window Examples.env_cache Examples.consensus_one).1
  + (fetch_window Examples.env_cache Examples.consensus_one).2
  <= (fetch_window Examples.env_store Examples.consensus_one).1
  /\ (fetch_window Examples.env_store Examples.consensus_one).1
     + (fetch_window Examples.env_store Examples.consensus_one).2
     <= (fetch_window MoreExamples.env_bridge Examples.consensus_one).1.
Proof.
  apply (fetch_windows_are_staggered Examples.env_cache Examples.env_store
           MoreExamples.env_bridge Examples.consensus_one);
    try reflexivity; vm_compute; discriminate.
Defined.
(** * Further properties of the consensus store *)

Import StoreProps.

Lemma park_consensus_datadir E consensus flav uf fc dl c st :
  datadir (park_consensus E consensus flav uf fc dl c st)
  = if fc then datadir st else <[uf := consensus]> (datadir st).
Proof. unfold park_consensus. destruct fc, dl, flav; reflexivity. Qed.

(** X7. When networkstatus_set_current_consensus returns a negative value,
    that value is -1 or -2, the current and the parked consensuses and the
    next download times are unchanged, the only call made is the one to
    the parser, and no file is written; the only file that can disappear
    is the unverified file of the document's flavor, and only when the
    call carries both NSSET_WAS_WAITING_FOR_CERTS and NSSET_FROM_CACHE. *)
Theorem negative_return_stores_nothing (E : Env) (consensus flavname : string) (flags r : Z)
    (st st1 : dir_state) :
  networkstatus_set_current_consensus E consensus flavname flags st = Some (r, st1) ->
  r < 0 ->
  (r = -1 \/ r = -2)
  /\ same_stores st st1
  /\ next_download_ns st1 = next_download_ns st
  /\ next_download_md st1 = next_download_md st
  /\ (trace st1 = trace st \/ trace st1 = trace st ++ [EvParseConsensus consensus])
  /\ (datadir st1 = datadir st
      \/ exists c, networkstatus_parse_vote_from_string E consensus = Some c
           /\ flag_set flags NSSET_WAS_WAITING_FOR_CERTS = true
           /\ flag_set flags NSSET_FROM_CACHE = true
           /\ datadir st1 = delete (unverified_file (flavor c)) (datadir st)).
Proof.
  unfold networkstatus_set_current_consensus.
  destruct (networkstatus_parse_flavor_name flavname) as [flav0|] eqn:Hn.
  2:{ intros [= <- <-] _. repeat split; auto. }
  destruct (networkstatus_parse_vote_from_string E consensus) as [c|] eqn:Hp.
  2:{ intros [= <- <-] _. repeat split; auto. }
  destruct (consensus_gates E c flav0 flavname flags _) as [r0|flav fn cf uf cva] eqn:Hg.
  { intros [= <- <-] Hr. split.
    - unfold consensus_gates in Hg.
      repeat match type of Hg with
             | (if ?b then _ else _) = _ => destruct b
             | (let '(_, _) := ?x in _) = _ => destruct x as [[[? ?] ?] ?]
             end; simplify_eq; auto.
    - repeat split; auto. }
  destruct (consensus_gates_pass _ _ _ _ _ _ _ _ _ _ _ Hn Hg) as (-> & -> & -> & -> & Hcva & Hnew).
  intros H. apply bind_Some in H as (chk & Hchk & H).
  destruct (Quorum.verdict chk <? 0) eqn:Hneg.
  - destruct (Quorum.verdict chk =? -1) eqn:Hm1.
    + destruct (_ || _).
      * intros; simplify_eq. lia.
      * intros Hr. simplify_eq. split; [auto|].
        destruct (flag_set flags NSSET_WAS_WAITING_FOR_CERTS) eqn:Hw,
                 (flag_set flags NSSET_FROM_CACHE) eqn:Hc; simpl;
          repeat split; auto. right. by exists c.
    + intros Hr.
      assert ((Quorum.verdict chk <? -1) = true) as Hlt.
      { lia. }
      rewrite Hlt in H.
      destruct (flag_set flags NSSET_WAS_WAITING_FOR_CERTS) eqn:Hw,
               (flag_set flags NSSET_FROM_CACHE) eqn:Hc; simpl in H; simplify_eq;
        repeat split; auto. right. by exists c.
  - apply bind_Some in H as (st2 & Hi & H). intros; simplify_eq. lia.
Qed.

Lemma evict_waiting_datadir flav uf c st :
  datadir (evict_waiting flav uf c st) = datadir st
  \/ datadir (evict_waiting flav uf c st) = delete uf (datadir st).
Proof.
  unfold evict_waiting. destruct (w_consensus _); [|by left].
  destruct (_ <=? _); [right|by left]. by destruct flav.
Qed.

Lemma install_consensus_datadir E consensus fn flav cf uf fc dl r c st st1 :
  install_consensus E consensus fn flav cf uf fc dl r c st = Some st1 ->
  exists d, (d = datadir st \/ d = delete uf (datadir st))
    /\ datadir st1 = if fc then d else <[cf := consensus]> d.
Proof.
  unfold install_consensus.
  set (usable := flavor_eqb flav (usable_consensus_flavor E)).
  set (st_a := when usable _ (when (negb (r =? 1) && dl) _ (when (negb fc && usable) _ st))).
  assert (datadir st_a = datadir st) as Ha.
  { unfold st_a. destruct usable, (negb (r =? 1) && dl), (negb fc); reflexivity. }
  set (st_b := evict_waiting flav uf c (set_current flav (Some c) st_a)).
  assert (datadir st_b = datadir st \/ datadir st_b = delete uf (datadir st)) as Hb.
  { unfold st_b. destruct (evict_waiting_datadir flav uf c (set_current flav (Some c) st_a))
      as [->| ->]; [left|right]; destruct flav; simpl; by rewrite Ha. }
  set (st_c := if is_live c (now E) then _ else _).
  assert (datadir st_c = datadir st_b) as Hc.
  { unfold st_c. destruct (is_live c (now E)), (negb fc); reflexivity. }
  intros H. apply bind_Some in H as (st_d & Hd & H).
  assert (datadir st_d = datadir st_c) as Hd'.
  { destruct usable; [|by simplify_eq].
    apply bind_Some in Hd as (st_e & He & Hd). apply fetch_time_frame in He as [He _].
    simplify_eq. simpl. done. }
  exists (datadir st_b). split; [done|].
  simplify_eq.
  destruct (directory_caches_dir_info E), fc, (now E <? _); simpl; by rewrite ?Hd', ?Hc.
Qed.


Section EmitsOnly.
Context (P : event -> Prop).

Lemma emits_only_same_trace st st1 : trace st1 = trace st -> emits_only P st st1.
Proof. intros H. exists []. by rewrite app_nil_r. Qed.

Lemma emits_only_refl st : emits_only P st st.
Proof. by apply emits_only_same_trace. Qed.

Lemma emits_only_trans st1 st2 st3 :
  emits_only P st1 st2 -> emits_only P st2 st3 -> emits_only P st1 st3.
Proof.
  intros (e1 & H1 & F1) (e2 & H2 & F2). exists (e1 ++ e2).
  rewrite H2, H1, app_assoc. split; [done|]. by apply Forall_app.
Qed.

Lemma emits_only_emit e st : P e -> emits_only P st (emit e st).
Proof. intros He. exists [e]. split; [done|]. by constructor. Qed.

Lemma emits_only_when b g st :
  (b = true -> emits_only P st (g st)) -> emits_only P st (when b g st).
Proof. destruct b; simpl; [auto|intros _; apply emits_only_refl]. Qed.

Lemma emits_only_step st1 st2 st3 :
  emits_only P st2 st3 -> emits_only P st1 st2 -> emits_only P st1 st3.
Proof. intros; by eapply emits_only_trans. Qed.

End EmitsOnly.

Lemma install_consensus_no_cert_fetch E consensus fn flav cf uf fc r c st st1 :
  install_consensus E consensus fn flav cf uf fc false r c st = Some st1 ->
  emits_only (fun e => is_cert_fetch e = false) st st1.
Proof.
  unfold install_consensus. rewrite andb_false_r.
  set (P := fun e => is_cert_fetch e = false).
  set (usable := flavor_eqb flav (usable_consensus_flavor E)).
  set (st_a := when usable _ (when false _ (when (negb fc && usable) _ st))).
  assert (emits_only P st st_a) as Ha.
  { unfold st_a. simpl. eapply emits_only_step.
    - apply emits_only_when. intros _. by apply emits_only_emit.
    - apply emits_only_when. intros _. by apply emits_only_emit. }
  set (st_b := evict_waiting flav uf c (set_current flav (Some c) st_a)).
  assert (emits_only P st_a st_b) as Hb.
  { apply emits_only_same_trace. unfold st_b.
    by rewrite trace_evict_waiting, trace_set_current. }
  set (st_c := if is_live c (now E) then _ else _).
  assert (emits_only P st_b st_c) as Hc.
  { unfold st_c. destruct (is_live c (now E)).
    - by apply emits_only_emit.
    - apply emits_only_when. intros _. by apply emits_only_emit. }
  intros H. apply bind_Some in H as (st_d & Hd & H).
  assert (emits_only P st_c st_d) as Hd'.
  { destruct usable; [|simplify_eq; apply emits_only_refl].
    apply bind_Some in Hd as (st_e & He & Hd). apply fetch_time_frame in He as [_ He].
    simplify_eq.
    repeat (eapply emits_only_step; [by apply emits_only_emit|]).
    by apply emits_only_same_trace. }
  assert (emits_only P st_d st1) as He.
  { simplify_eq.
    eapply emits_only_step; [by apply emits_only_emit|].
    eapply emits_only_step; [apply emits_only_when; intros _; by apply emits_only_emit|].
    eapply emits_only_step; [apply emits_only_when; intros _; by apply emits_only_same_trace|].
    apply emits_only_when; intros _; by apply emits_only_emit. }
  repeat (eapply emits_only_trans; [eassumption|]). apply emits_only_refl.
Qed.

(** X9. A call of networkstatus_set_current_consensus that carries
    NSSET_DONT_DOWNLOAD_CERTS never asks for missing certificates,
    whichever way it ends; it only appends other calls to the sequence of
    outgoing calls. *)
Theorem no_certificate_fetch_when_forbidden (E : Env) (consensus flavname : string)
    (flags r : Z) (st st1 : dir_state) :
  flag_set flags NSSET_DONT_DOWNLOAD_CERTS = true ->
  networkstatus_set_current_consensus E consensus flavname flags st = Some (r, st1) ->
  exists evs, trace st1 = trace st ++ evs /\ Forall (fun e => is_cert_fetch e = false) evs.
Proof.
  intros Hdl. change (?x -> exists evs, _) with (x -> emits_only (fun e => is_cert_fetch e = false) st st1).
  set (P := fun e => is_cert_fetch e = false).
  unfold networkstatus_set_current_consensus. rewrite Hdl. simpl.
  destruct (networkstatus_parse_flavor_name flavname) as [flav0|] eqn:Hn.
  2:{ intros [= <- <-]. apply emits_only_refl. }
  assert (emits_only P st (emit (EvParseConsensus consensus) st)) as H0
    by (by apply emits_only_emit).
  destruct (networkstatus_parse_vote_from_string E consensus) as [c|] eqn:Hp.
  2:{ by intros [= <- <-]. }
  destruct (consensus_gates E c flav0 flavname flags _) as [r0|flav fn cf uf cva] eqn:Hg.
  { by intros [= <- <-]. }
  intros H. apply bind_Some in H as (chk & Hchk & H).
  destruct (Quorum.verdict chk <? 0).
  - destruct (Quorum.verdict chk =? -1).
    + destruct (_ || _); injection H as <- <-.
      * eapply emits_only_trans; [exact H0|]. apply emits_only_same_trace.
        unfold park_consensus. simpl.
        destruct (flag_set flags NSSET_FROM_CACHE); simpl; by rewrite trace_set_waiting.
      * eapply emits_only_trans; [exact H0|]. apply emits_only_when. intros _.
        by apply emits_only_same_trace.
    + injection H as <- <-.
      eapply emits_only_trans; [exact H0|]. apply emits_only_when. intros _.
      by apply emits_only_same_trace.
  - apply bind_Some in H as (st2 & Hi & H). injection H as <- <-.
    eapply emits_only_trans; [exact H0|]. by eapply install_consensus_no_cert_fetch.
Qed.

(** X10. A call of networkstatus_set_current_consensus that carries
    NSSET_FROM_CACHE never creates or overwrites a file of the data
    directory, whichever way it ends: afterwards the directory holds a
    subset of the files it held, with their contents. *)
Theorem from_cache_call_writes_no_file (E : Env) (consensus flavname : string)
    (flags r : Z) (st st1 : dir_state) :
  flag_set flags NSSET_FROM_CACHE = true ->
  networkstatus_set_current_consensus E consensus flavname flags st = Some (r, st1) ->
  datadir st1 ⊆ datadir st.
Proof.
  intros Hfc.
  unfold networkstatus_set_current_consensus. rewrite Hfc. simpl.
  destruct (networkstatus_parse_flavor_name flavname) as [flav0|] eqn:Hn.
  2:{ by intros [= <- <-]. }
  destruct (networkstatus_parse_vote_from_string E consensus) as [c|] eqn:Hp.
  2:{ by intros [= <- <-]. }
  destruct (consensus_gates E c flav0 flavname flags _) as [r0|flav fn cf uf cva] eqn:Hg.
  { by intros [= <- <-]. }
  intros H. apply bind_Some in H as (chk & Hchk & H).
  destruct (Quorum.verdict chk <? 0).
  - destruct (Quorum.verdict chk =? -1).
    + destruct (_ || _); injection H as <- <-.
      * by rewrite park_consensus_datadir.
      * destruct (flag_set flags NSSET_WAS_WAITING_FOR_CERTS); simpl; [|done].
        apply delete_subseteq.
    + injection H as <- <-.
      destruct (_ && _); simpl; [|done]. apply delete_subseteq.
  - apply bind_Some in H as (st2 & Hi & H). injection H as <- <-.
    apply install_consensus_datadir in Hi as (d & [->| ->] & ->); [done|].
    apply delete_subseteq.
Qed.

Lemma certs_arrived_for_flavor_lacking E f st :
  parked_lacks_quorum E st f ->
  certs_arrived_for_flavor E f st = Some (set_waiting f (rechecked E (get_waiting st f)) st).
Proof.
  unfold parked_lacks_quorum, certs_arrived_for_flavor, rechecked.
  destruct (w_consensus (get_waiting st f)) as [wc|] eqn:Hw.
  - intros (chk & -> & Hv). simpl.
    assert ((Quorum.verdict chk >=? 0) = false) as -> by lia. done.
  - intros _. f_equal. by destruct st, f.
Qed.

(** X11. If every parked consensus still lacks a quorum when certificates
    arrive (its re-check answers a negative value),
    networkstatus_note_certs_arrived returns and changes nothing except
    the signature flags of the parked consensuses, which the re-check
    brings up to date: no consensus is installed, no file is touched and
    no call goes out. *)
Theorem certs_arrived_without_quorum_keeps_waiting (E : Env) (st : dir_state) :
  parked_lacks_quorum E st FLAV_NS ->
  parked_lacks_quorum E st FLAV_MICRODESC ->
  exists st1,
    networkstatus_note_certs_arrived E st = Some st1
    /\ (forall f, get_waiting st1 f = rechecked E (get_waiting st f))
    /\ current_ns_consensus st1 = current_ns_consensus st
    /\ current_md_consensus st1 = current_md_consensus st
    /\ next_download_ns st1 = next_download_ns st
    /\ next_download_md st1 = next_download_md st
    /\ datadir st1 = datadir st
    /\ trace st1 = trace st.
Proof.
  intros Hns Hmd. unfold networkstatus_note_certs_arrived.
  rewrite (certs_arrived_for_flavor_lacking E FLAV_NS st Hns). simpl.
  rewrite certs_arrived_for_flavor_lacking by exact Hmd.
  eexists. split; [reflexivity|]. split; [|done].
  intros []; reflexivity.
Qed.

Lemma negative_return_stores_nothing_witness :
  same_stores (set_current FLAV_NS (Some Examples.consensus_need_certs) initial_state)
    (emit (EvParseConsensus "doc-need-certs")
       (set_current FLAV_NS (Some Examples.consensus_need_certs) initial_state)).
Proof.
  apply (negative_return_stores_nothing Examples.env_store "doc-need-certs" "ns" 0 (-1)
           (set_current FLAV_NS (Some Examples.consensus_need_certs) initial_state)
           (emit (EvParseConsensus "doc-need-certs")
              (set_current FLAV_NS (Some Examples.consensus_need_certs) initial_state))).
  - reflexivity.
  - reflexivity.
Defined.


Lemma no_certificate_fetch_when_forbidden_witness :
  exists st1 evs,
    networkstatus_set_current_consensus Examples.env_store "doc-need-certs" "ns"
      NSSET_DONT_DOWNLOAD_CERTS initial_state = Some (0, st1)
    /\ trace st1 = trace initial_state ++ evs
    /\ Forall (fun e => is_cert_fetch e = false) evs.
Proof.
  eexists.
  destruct (no_certificate_fetch_when_forbidden Examples.env_store "doc-need-certs" "ns"
              NSSET_DONT_DOWNLOAD_CERTS 0 initial_state _ eq_refl eq_refl) as (evs & H1 & H2).
  exists evs. split; [reflexivity|]. split; [exact H1|exact H2].
Defined.

Lemma from_cache_call_writes_no_file_witness :
  exists st1,
    networkstatus_set_current_consensus Examples.env_store "doc-need-certs" "ns"
      NSSET_FROM_CACHE initial_state = Some (0, st1)
    /\ datadir st1 ⊆ datadir initial_state.
Proof.
  eexists. split; [reflexivity|].
  apply (from_cache_call_writes_no_file Examples.env_store "doc-need-certs" "ns"
           NSSET_FROM_CACHE 0 initial_state _ eq_refl eq_refl).
Defined.

Lemma certs_arrived_without_quorum_keeps_waiting_witness :
  exists st1,
    networkstatus_note_certs_arrived Examples.env_store StoreExamples.st_parked = Some st1
    /\ (forall f, get_waiting st1 f
                  = rechecked Examples.env_store (get_waiting StoreExamples.st_parked f))
    /\ datadir st1 = datadir StoreExamples.st_parked
    /\ trace st1 = trace StoreExamples.st_parked.
Proof.
  destruct (certs_arrived_without_quorum_keeps_waiting Examples.env_store
              StoreExamples.st_parked) as (st1 & H1 & H2 & _ & _ & _ & _ & H3 & H4).
  - eexists. split; [reflexivity|]. vm_compute. reflexivity.
  - exact I.
  - exists st1. split; [exact H1|]. split; [exact H2|]. split; [exact H3|exact H4].
Defined.
(** * Further properties of the v2 status cache *)

Section V2Extras.

Import V2 V2More V2Props V2Clean.

Lemma scan_v2_list_spec (l : list networkstatus_v2_t) (ns : networkstatus_v2_t) : forall k,
  match scan_v2_list l ns k with
  | ScanSame i =>
    exists old, (k <= i)%nat /\ l !! (i - k)%nat = Some old
      /\ v2_identity_digest old = v2_identity_digest ns
      /\ networkstatus_digest old = networkstatus_digest ns
  | ScanHaveNewer i =>
    exists old, (k <= i)%nat /\ l !! (i - k)%nat = Some old
      /\ v2_identity_digest old = v2_identity_digest ns
      /\ published_on ns <= published_on old
  | ScanReplace i =>
    exists old, (k <= i)%nat /\ l !! (i - k)%nat = Some old
      /\ v2_identity_digest old = v2_identity_digest ns
      /\ published_on old < published_on ns
  | ScanNotFound => forall x, x ∈ l -> v2_identity_digest x <> v2_identity_digest ns
  end.
Proof.
  induction l as [|old l IH]; intros k; simpl.
  - intros x Hx. by apply elem_of_nil in Hx.
  - case_bool_decide as Hid.
    + case_bool_decide as Hd.
      * exists old. rewrite Nat.sub_diag. by repeat split.
      * destruct (published_on old >=? published_on ns) eqn:Hp.
        -- exists old. rewrite Nat.sub_diag. repeat split; try done. lia.
        -- exists old. rewrite Nat.sub_diag. repeat split; try done. lia.
    + specialize (IH (S k)).
      destruct (scan_v2_list l ns (S k)) as [i|i|i|].
      1-3: destruct IH as (x & Hk & Hl & H); exists x; split; [lia|];
        split; [|done]; replace (i - k)%nat with (S (i - S k)) by lia; done.
      intros x Hx. apply elem_of_cons in Hx as [->|Hx]; [done|by apply IH].
Qed.

Lemma note_entries_list (E : V2Env) (live_until : Z) (l : list routerstatus_t) :
  forall st l1 st1,
    note_entries E live_until l st = (l1, st1) ->
    networkstatus_v2_list st1 = networkstatus_v2_list st.
Proof.
  intros st l1 st1 H. by apply note_entries_events in H as (tr & _ & _ & _ & _ & Hl).
Qed.

Lemma add_networkstatus_to_cache_list (E : V2Env) s source ns st :
  networkstatus_v2_list (add_networkstatus_to_cache E s source ns st)
  = networkstatus_v2_list st.
Proof.
  unfold add_networkstatus_to_cache.
  by destruct (negb (source_eqb source NS_FROM_CACHE)), (directory_caches_v2_dir_info E).
Qed.

(** The list after a call, against the list before. *)
Lemma router_set_networkstatus_v2_step (E : V2Env) (s : string) (arrived_at : Z)
    (source : v2_networkstatus_source_t) (requested : option (list string))
    (st : v2_state) (doc : networkstatus_v2_t) :
  networkstatus_v2_parse_from_string E s = Some doc ->
  v2_list_step E doc (networkstatus_v2_list st)
    (networkstatus_v2_list (router_set_networkstatus_v2 E s arrived_at source requested st).1.2).
Proof.
  intros Hp. unfold router_set_networkstatus_v2.
  destruct (directory_caches_v2_dir_info E); simpl; [|constructor].
  rewrite Hp. simpl.
  set (arr := if arrived_at >? v2_now E then v2_now E else arrived_at).
  assert (arr <= v2_now E) as Harr by (unfold arr; destruct (arrived_at >? v2_now E) eqn:?; lia).
  set (ns1 := set_received_on arr doc).
  set (st0 := if published_in_future E ns1 then _ else st).
  assert (networkstatus_v2_list st0 = networkstatus_v2_list st) as Hl0.
  { unfold st0. by destruct (published_in_future E ns1). }
  clearbody st0.
  destruct ((source_eqb source NS_FROM_DIR_BY_FP || source_eqb source NS_FROM_DIR_ALL)
            && router_digest_is_me E (v2_identity_digest doc)); simpl.
  { rewrite Hl0. constructor. }
  set (hit := match requested with Some l => _ | None => true end).
  destruct (negb hit && negb (source_eqb source NS_FROM_DIR_ALL)); simpl.
  { rewrite Hl0. constructor. }
  destruct (router_get_trusteddirserver_by_digest E (v2_identity_digest doc)) as [ds|] eqn:Hds;
    simpl.
  2:{ destruct (negb (published_in_future E ns1)); simpl;
        rewrite ?add_networkstatus_to_cache_list, Hl0; constructor. }
  rewrite Hl0. subst ns1. rewrite scan_v2_list_received_on.
  pose proof (scan_v2_list_spec (networkstatus_v2_list st) doc 0) as Hscan.
  destruct (scan_v2_list (networkstatus_v2_list st) doc 0) as [i|i|i|] eqn:Hsc; simpl.
  - destruct Hscan as (old & _ & Hi & Hid & Hd). rewrite Nat.sub_0_r in Hi.
    destruct (_ <? arr); simpl; [|rewrite Hl0; constructor].
    destruct (negb (source_eqb source NS_FROM_CACHE)); simpl;
      rewrite Hl0 in *; by econstructor.
  - rewrite Hl0. constructor.
  - destruct Hscan as (old & _ & Hi & Hid & Hlt). rewrite Nat.sub_0_r in Hi.
    destruct (note_entries E _ _ _) as [entries1 st_n] eqn:Hn.
    apply note_entries_list in Hn.
    assert (networkstatus_v2_list st_n = networkstatus_v2_list st) as Hln.
    { rewrite Hn. by destruct (negb (source_eqb source NS_FROM_CACHE)). }
    rewrite Hln.
    destruct (negb (published_in_future E _)); simpl;
      rewrite ?add_networkstatus_to_cache_list; simpl;
      eapply v2_step_replace; eauto.
  - destruct (note_entries E _ _ _) as [entries1 st_n] eqn:Hn.
    apply note_entries_list in Hn.
    assert (networkstatus_v2_list st_n = networkstatus_v2_list st) as Hln.
    { rewrite Hn. by destruct (negb (source_eqb source NS_FROM_CACHE)). }
    rewrite Hln.
    destruct (negb (published_in_future E _)); simpl;
      rewrite ?add_networkstatus_to_cache_list; simpl;
      eapply v2_step_add; eauto.
Qed.


Lemma insert_by_published_perm x l : insert_by_published x l ≡ₚ x :: l.
Proof.
  induction l as [|y l IH]; simpl; [done|].
  destruct (published_on x <? published_on y); [done|].
  rewrite IH. apply Permutation_swap.
Qed.

Lemma sort_by_published_perm l : sort_by_published l ≡ₚ l.
Proof.
  induction l as [|x l IH]; simpl; [done|].
  rewrite insert_by_published_perm. by rewrite IH.
Qed.

Lemma insert_by_published_sorted x l :
  published_sorted l -> published_sorted (insert_by_published x l).
Proof.
  unfold published_sorted. induction 1 as [|y l Hs IH Hy]; simpl.
  - repeat constructor.
  - destruct (published_on x <? published_on y) eqn:Hlt.
    + constructor; [by constructor|]. constructor; [lia|].
      eapply Forall_impl; [exact Hy|]. simpl. intros z Hz. lia.
    + constructor; [exact IH|].
      rewrite insert_by_published_perm. constructor; [lia|exact Hy].
Qed.

Lemma sort_by_published_sorted l : published_sorted (sort_by_published l).
Proof.
  induction l as [|x l IH]; simpl; [constructor|]. by apply insert_by_published_sorted.
Qed.

Lemma alter_received_on_sorted t i l :
  published_sorted l -> published_sorted (alter (set_received_on t) i l).
Proof.
  unfold published_sorted. intros Hs. revert i.
  induction Hs as [|y l Hs IH Hy]; intros [|i]; simpl.
  - constructor.
  - constructor.
  - constructor; [exact Hs|exact Hy].
  - constructor; [apply IH|].
    apply Forall_alter; [exact Hy|]. intros x _ Hx. exact Hx.
Qed.

Lemma v2_list_step_sorted E doc l l1 :
  v2_list_step E doc l l1 -> published_sorted l -> published_sorted l1.
Proof.
  destruct 1; intros Hs; [done|by apply alter_received_on_sorted|..];
    apply sort_by_published_sorted.
Qed.

Lemma router_set_networkstatus_v2_unparsed (E : V2Env) (s : string) (arrived_at : Z)
    (source : v2_networkstatus_source_t) (requested : option (list string))
    (st : v2_state) :
  networkstatus_v2_parse_from_string E s = None ->
  (router_set_networkstatus_v2 E s arrived_at source requested st).1.2 = st.
Proof.
  intros Hp. unfold router_set_networkstatus_v2. rewrite Hp.
  by destruct (negb (directory_caches_v2_dir_info E)).
Qed.

(** X12. router_set_networkstatus_v2 keeps networkstatus_v2_list sorted by
    publication time: if the list is sorted before a call, it is sorted
    after it, whatever the document, its source and the way the call ends. *)
Theorem v2_list_stays_sorted (E : V2Env) (s : string) (arrived_at : Z)
    (source : v2_networkstatus_source_t) (requested : option (list string))
    (st : v2_state) :
  published_sorted (networkstatus_v2_list st) ->
  published_sorted
    (networkstatus_v2_list (router_set_networkstatus_v2 E s arrived_at source requested st).1.2).
Proof.
  intros Hs. destruct (networkstatus_v2_parse_from_string E s) as [doc|] eqn:Hp.
  - eapply v2_list_step_sorted; [|exact Hs]. by apply router_set_networkstatus_v2_step.
  - by rewrite router_set_networkstatus_v2_unparsed.
Qed.

Lemma fmap_identity_alter t i (l : list networkstatus_v2_t) :
  v2_identity_digest <$> alter (set_received_on t) i l = v2_identity_digest <$> l.
Proof.
  rewrite (list_fmap_alter v2_identity_digest (set_received_on t) id).
  - by apply list_alter_id.
  - by apply Forall_true.
Qed.

Lemma fmap_identity_insert i (l : list networkstatus_v2_t) old ns :
  l !! i = Some old -> v2_identity_digest ns = v2_identity_digest old ->
  v2_identity_digest <$> <[i := ns]> l = v2_identity_digest <$> l.
Proof.
  intros Hi Hid. rewrite list_fmap_insert. apply list_insert_id.
  rewrite list_lookup_fmap, Hi. simpl. by rewrite Hid.
Qed.

Lemma v2_list_step_one_per_authority E doc l l1 :
  v2_list_step E doc l l1 -> one_per_authority l -> one_per_authority l1.
Proof.
  unfold one_per_authority.
  destruct 1 as [l|l i old t Hi Hid Hd|l i old ns Hi Hid Hlt Hds Hn _ _ _
                 |l ns Hnew Hds Hn _ _ _]; intros Hnd.
  - done.
  - by rewrite fmap_identity_alter.
  - rewrite sort_by_published_perm.
    rewrite (fmap_identity_insert i l old ns Hi); [done|congruence].
  - rewrite sort_by_published_perm, fmap_app. simpl.
    apply NoDup_app. split; [done|]. split; [|apply NoDup_singleton].
    intros id Hin Hin'. apply list_elem_of_singleton in Hin'. subst id.
    apply list_elem_of_fmap in Hin as (x & Hx & Hxl).
    apply (Hnew x Hxl). congruence.
Qed.

(** X13. router_set_networkstatus_v2 never puts a second status of the
    same authority into networkstatus_v2_list: if the identity digests of
    the list are pairwise distinct before a call, they are after it. *)
Theorem v2_list_keeps_one_status_per_authority (E : V2Env) (s : string) (arrived_at : Z)
    (source : v2_networkstatus_source_t) (requested : option (list string))
    (st : v2_state) :
  one_per_authority (networkstatus_v2_list st) ->
  one_per_authority
    (networkstatus_v2_list (router_set_networkstatus_v2 E s arrived_at source requested st).1.2).
Proof.
  intros Hs. destruct (networkstatus_v2_parse_from_string E s) as [doc|] eqn:Hp.
  - eapply v2_list_step_one_per_authority; [|exact Hs].
    by apply router_set_networkstatus_v2_step.
  - by rewrite router_set_networkstatus_v2_unparsed.
Qed.

Lemma v2_list_step_recognized E doc l l1 :
  v2_list_step E doc l l1 ->
  Forall (fun x => is_Some (router_get_trusteddirserver_by_digest E (v2_identity_digest x))) l ->
  Forall (fun x => is_Some (router_get_trusteddirserver_by_digest E (v2_identity_digest x))) l1.
Proof.
  destruct 1 as [l|l i old t Hi Hid Hd|l i old ns Hi Hid Hlt Hds Hn _ _ _
                 |l ns Hnew Hds Hn _ _ _]; intros Hall.
  - done.
  - apply Forall_alter; [done|]. by intros x _ Hx.
  - rewrite sort_by_published_perm. apply Forall_insert; [done|]. by rewrite Hn.
  - rewrite sort_by_published_perm. apply Forall_app. split; [done|].
    constructor; [by rewrite Hn|constructor].
Qed.

(** X14. router_set_networkstatus_v2 only ever adds statuses of recognized
    directory servers to networkstatus_v2_list: if every status of the
    list comes from a server that router_get_trusteddirserver_by_digest
    knows, the same holds after the call. *)
Theorem v2_list_admits_recognized_authorities_only (E : V2Env) (s : string) (arrived_at : Z)
    (source : v2_networkstatus_source_t) (requested : option (list string))
    (st : v2_state) :
  Forall (fun x => is_Some (router_get_trusteddirserver_by_digest E (v2_identity_digest x)))
         (networkstatus_v2_list st) ->
  Forall (fun x => is_Some (router_get_trusteddirserver_by_digest E (v2_identity_digest x)))
         (networkstatus_v2_list
            (router_set_networkstatus_v2 E s arrived_at source requested st).1.2).
Proof.
  intros Hs. destruct (networkstatus_v2_parse_from_string E s) as [doc|] eqn:Hp.
  - eapply v2_list_step_recognized; [|exact Hs].
    by apply router_set_networkstatus_v2_step.
  - by rewrite router_set_networkstatus_v2_unparsed.
Qed.

Lemma v2_get_by_digest_loop_unique (l : list networkstatus_v2_t) x :
  one_per_authority l -> x ∈ l ->
  v2_get_by_digest_loop l (v2_identity_digest x) = Some x.
Proof.
  unfold one_per_authority. induction l as [|y l IH]; simpl; intros Hnd Hx.
  - by apply elem_of_nil in Hx.
  - apply NoDup_cons in Hnd as [Hy Hnd].
    apply elem_of_cons in Hx as [->|Hx].
    + by rewrite bool_decide_eq_true_2.
    + rewrite bool_decide_eq_false_2; [by apply IH|].
      intros Heq. apply Hy. rewrite Heq. by apply list_elem_of_fmap_2.
Qed.

(** After a call that gets as far as the scan of the list, the list holds
    a status of the document's authority: the document itself or one
    published no earlier. *)
Lemma router_set_networkstatus_v2_holds (E : V2Env) (s : string) (arrived_at : Z)
    (source : v2_networkstatus_source_t) (requested : option (list string))
    (st : v2_state) (doc : networkstatus_v2_t) (ds : trusted_dir_server_t) :
  directory_caches_v2_dir_info E = true ->
  networkstatus_v2_parse_from_string E s = Some doc ->
  router_get_trusteddirserver_by_digest E (v2_identity_digest doc) = Some ds ->
  (source_eqb source NS_FROM_DIR_BY_FP || source_eqb source NS_FROM_DIR_ALL)
  && router_digest_is_me E (v2_identity_digest doc) = false ->
  match requested with
  | Some l => bool_decide (hex_str E (v2_identity_digest doc) ∈ l)
  | None => true
  end || source_eqb source NS_FROM_DIR_ALL = true ->
  exists x,
    x ∈ networkstatus_v2_list (router_set_networkstatus_v2 E s arrived_at source requested st).1.2
    /\ v2_identity_digest x = v2_identity_digest doc
    /\ (networkstatus_digest x = networkstatus_digest doc
        \/ published_on doc <= published_on x).
Proof.
  intros Hc Hp Hds Hme Hreq. unfold router_set_networkstatus_v2.
  rewrite Hc, Hp. simpl.
  set (arr := if arrived_at >? v2_now E then v2_now E else arrived_at).
  set (ns1 := set_received_on arr doc).
  set (st0 := if published_in_future E ns1 then _ else st).
  assert (networkstatus_v2_list st0 = networkstatus_v2_list st) as Hl0.
  { unfold st0. by destruct (published_in_future E ns1). }
  clearbody st0. rewrite Hme. simpl.
  set (hit := match requested with Some l => _ | None => true end) in *.
  assert (negb hit && negb (source_eqb source NS_FROM_DIR_ALL) = false) as ->.
  { destruct hit, (source_eqb source NS_FROM_DIR_ALL); done. }
  rewrite Hds. simpl.
  rewrite Hl0. subst ns1. rewrite scan_v2_list_received_on.
  pose proof (scan_v2_list_spec (networkstatus_v2_list st) doc 0) as Hscan.
  destruct (scan_v2_list (networkstatus_v2_list st) doc 0) as [i|i|i|] eqn:Hsc; simpl.
  - destruct Hscan as (old & _ & Hi & Hid & Hd). rewrite Nat.sub_0_r in Hi.
    destruct (_ <? arr); simpl.
    + exists (set_received_on arr old). split; [|by auto].
      assert (forall st', networkstatus_v2_list st' = networkstatus_v2_list st ->
                set_received_on arr old
                ∈ alter (set_received_on arr) i (networkstatus_v2_list st')) as Hin.
      { intros st' ->. eapply list_elem_of_lookup_2.
        rewrite list_lookup_alter_eq, Hi. done. }
      destruct (negb (source_eqb source NS_FROM_CACHE)); simpl; by apply Hin.
    + exists old. rewrite Hl0. split; [by eapply list_elem_of_lookup_2|by auto].
  - destruct Hscan as (old & _ & Hi & Hid & Hle). rewrite Nat.sub_0_r in Hi.
    exists old. rewrite Hl0. split; [by eapply list_elem_of_lookup_2|by auto].
  - destruct Hscan as (old & _ & Hi & Hid & Hlt). rewrite Nat.sub_0_r in Hi.
    destruct (note_entries E _ _ _) as [entries1 st_n] eqn:Hn.
    apply note_entries_list in Hn.
    assert (networkstatus_v2_list st_n = networkstatus_v2_list st) as Hln.
    { rewrite Hn. by destruct (negb (source_eqb source NS_FROM_CACHE)). }
    rewrite Hln.
    exists (set_entries entries1 (set_received_on arr doc)).
    split; [|by auto].
    destruct (negb (published_in_future E _)); simpl;
      rewrite ?add_networkstatus_to_cache_list; simpl;
      rewrite sort_by_published_perm; apply list_elem_of_insert;
      by eapply lookup_lt_Some.
  - destruct (note_entries E _ _ _) as [entries1 st_n] eqn:Hn.
    apply note_entries_list in Hn.
    assert (networkstatus_v2_list st_n = networkstatus_v2_list st) as Hln.
    { rewrite Hn. by destruct (negb (source_eqb source NS_FROM_CACHE)). }
    rewrite Hln.
    exists (set_entries entries1 (set_received_on arr doc)).
    split; [|by auto].
    destruct (negb (published_in_future E _)); simpl;
      rewrite ?add_networkstatus_to_cache_list; simpl;
      rewrite sort_by_published_perm; apply elem_of_app; right; by apply list_elem_of_singleton.
Qed.

(** X15. On a node that caches v2 information and whose list holds one
    status per authority, after router_set_networkstatus_v2 was given a
    status that parses, comes from a recognized authority, is not the
    node's own status arriving from a download, and was requested (or came
    with all statuses), networkstatus_v2_get_by_digest finds a status of
    that authority, and it is this very status or one published no
    earlier. *)
Theorem v2_status_is_found_after_it_was_set (E : V2Env) (s : string) (arrived_at : Z)
    (source : v2_networkstatus_source_t) (requested : option (list string))
    (st : v2_state) (doc : networkstatus_v2_t) (ds : trusted_dir_server_t) :
  directory_caches_v2_dir_info E = true ->
  networkstatus_v2_parse_from_string E s = Some doc ->
  router_get_trusteddirserver_by_digest E (v2_identity_digest doc) = Some ds ->
  (source_eqb source NS_FROM_DIR_BY_FP || source_eqb source NS_FROM_DIR_ALL)
  && router_digest_is_me E (v2_identity_digest doc) = false ->
  match requested with
  | Some l => bool_decide (hex_str E (v2_identity_digest doc) ∈ l)
  | None => true
  end || source_eqb source NS_FROM_DIR_ALL = true ->
  one_per_authority (networkstatus_v2_list st) ->
  exists x,
    networkstatus_v2_get_by_digest
      (router_set_networkstatus_v2 E s arrived_at source requested st).1.2
      (v2_identity_digest doc) = Some x
    /\ v2_identity_digest x = v2_identity_digest doc
    /\ (networkstatus_digest x = networkstatus_digest doc
        \/ published_on doc <= published_on x).
Proof.
  intros Hc Hp Hds Hme Hreq Hnd.
  destruct (router_set_networkstatus_v2_holds E s arrived_at source requested st doc ds
              Hc Hp Hds Hme Hreq) as (x & Hx & Hid & Hnew).
  exists x. split; [|done]. unfold networkstatus_v2_get_by_digest. rewrite <- Hid.
  apply v2_get_by_digest_loop_unique; [|done].
  eapply v2_list_step_one_per_authority; [|exact Hnd].
  by apply router_set_networkstatus_v2_step.
Qed.

(** ** Expiry *)

Section CleanFacts.
Context (MAX_NETWORKSTATUS_AGE : Z)
        (smartlist_del : list networkstatus_v2_t -> nat -> list networkstatus_v2_t)
        (E : V2Env) (t : Z).
Hypothesis smartlist_del_perm :
  forall l i x, l !! i = Some x -> smartlist_del l i ≡ₚ delete i l.
Hypothesis smartlist_del_prefix :
  forall l i, take i (smartlist_del l i) = take i l.

Lemma filter_fresh_all l : Forall (v2_fresh MAX_NETWORKSTATUS_AGE t) l -> filter (v2_fresh MAX_NETWORKSTATUS_AGE t) l = l.
Proof.
  induction 1 as [|x l Hx Hl IH]; [done|].
  rewrite filter_cons_True by done. by rewrite IH.
Qed.

Lemma v2_list_clean_loop_spec fuel : forall i st calls,
  (length (networkstatus_v2_list st) - i <= fuel)%nat ->
  Forall (v2_fresh MAX_NETWORKSTATUS_AGE t) (take i (networkstatus_v2_list st)) ->
  let st1 := (v2_list_clean_loop MAX_NETWORKSTATUS_AGE smartlist_del E t fuel i st calls).1 in
  networkstatus_v2_list st1 ≡ₚ filter (v2_fresh MAX_NETWORKSTATUS_AGE t) (networkstatus_v2_list st)
  /\ v2_datadir st1 ⊆ v2_datadir st
  /\ v2_trace st1 = v2_trace st
  /\ (forall ns, ns ∈ networkstatus_v2_list st -> ~ (v2_fresh MAX_NETWORKSTATUS_AGE t) ns ->
        v2_datadir st1 !! networkstatus_get_cache_filename E (v2_identity_digest ns) = None).
Proof.
  assert (forall st i, (length (networkstatus_v2_list st) <= i)%nat ->
            Forall (v2_fresh MAX_NETWORKSTATUS_AGE t) (take i (networkstatus_v2_list st)) ->
            networkstatus_v2_list st ≡ₚ filter (v2_fresh MAX_NETWORKSTATUS_AGE t) (networkstatus_v2_list st)
            /\ v2_datadir st ⊆ v2_datadir st
            /\ v2_trace st = v2_trace st
            /\ (forall ns, ns ∈ networkstatus_v2_list st -> ~ (v2_fresh MAX_NETWORKSTATUS_AGE t) ns ->
                  v2_datadir st !! networkstatus_get_cache_filename E (v2_identity_digest ns)
                  = None)) as Hdone.
  { intros st i Hlen Hall. rewrite take_ge in Hall by done.
    rewrite filter_fresh_all by done. repeat split; try done.
    intros ns Hin Hold. exfalso. apply Hold.
    by eapply (proj1 (Forall_forall _ _) Hall). }
  induction fuel as [|fuel IH]; intros i st calls Hfuel Hall; simpl.
  { apply (Hdone st i); [lia|done]. }
  destruct (networkstatus_v2_list st !! i) as [ns|] eqn:Hi; simpl.
  2:{ apply lookup_ge_None in Hi. by apply (Hdone st i). }
  destruct (published_on ns + MAX_NETWORKSTATUS_AGE >? t) eqn:Hk.
  - apply IH; [lia|]. rewrite (take_S_r _ _ _ Hi). apply Forall_app. split; [done|].
    constructor; [unfold v2_fresh; lia|constructor].
  - pose proof (lookup_lt_Some _ _ _ Hi) as Hlt.
    pose proof (smartlist_del_perm _ _ _ Hi) as Hperm.
    pose proof (delete_Permutation _ _ _ Hi) as Hperm'.
    set (st' := mk_v2state _ _ _ _).
    assert (networkstatus_v2_list st' = smartlist_del (networkstatus_v2_list st) i) as Hl'
      by done.
    match goal with
    | |- context [v2_list_clean_loop _ _ _ _ _ _ _ ?c] => specialize (IH i st' c)
    end.
    destruct IH as (IH1 & IH2 & IH3 & IH4).
    { rewrite Hl', Hperm, length_delete by eauto. lia. }
    { by rewrite Hl', smartlist_del_prefix. }
    split; [|split; [|split]].
    + rewrite IH1, Hl', Hperm. rewrite Hperm' at 2.
      rewrite filter_cons_False; [done|]. unfold v2_fresh. lia.
    + etrans; [exact IH2|]. apply delete_subseteq.
    + by rewrite IH3.
    + intros x Hx Hold. rewrite Hperm' in Hx. apply elem_of_cons in Hx as [->|Hx].
      * eapply lookup_weaken_None; [|exact IH2]. apply lookup_delete_eq.
      * apply IH4; [|done]. by rewrite Hl', Hperm.
Qed.

End CleanFacts.


(** ** Concrete runs *)

Lemma v2_list_stays_sorted_witness :
  published_sorted
    (networkstatus_v2_list
       (router_set_networkstatus_v2 (V2Examples.env_known_at 500) "status" 900 NS_FROM_CACHE None
          V2MoreExamples.st_two).1.2).
Proof.
  apply (v2_list_stays_sorted (V2Examples.env_known_at 500) "status" 900 NS_FROM_CACHE None
           V2MoreExamples.st_two).
  repeat constructor. vm_compute. discriminate.
Defined.

Lemma v2_list_keeps_one_status_per_authority_witness :
  one_per_authority
    (networkstatus_v2_list
       (router_set_networkstatus_v2 (V2Examples.env_known_at 500) "status" 900 NS_FROM_CACHE None
          V2MoreExamples.st_two).1.2).
Proof.
  apply (v2_list_keeps_one_status_per_authority (V2Examples.env_known_at 500) "status" 900
           NS_FROM_CACHE None V2MoreExamples.st_two).
  unfold one_per_authority. simpl. apply NoDup_cons. split.
  - intros H. apply list_elem_of_singleton in H. discriminate H.
  - apply NoDup_singleton.
Defined.

Lemma v2_list_admits_recognized_authorities_only_witness :
  Forall (fun x => is_Some (router_get_trusteddirserver_by_digest (V2Examples.env_known_at 500)
                              (v2_identity_digest x)))
    (networkstatus_v2_list
       (router_set_networkstatus_v2 (V2Examples.env_known_at 500) "status" 900 NS_FROM_CACHE None
          V2MoreExamples.st_two).1.2).
Proof.
  apply (v2_list_admits_recognized_authorities_only (V2Examples.env_known_at 500) "status" 900
           NS_FROM_CACHE None V2MoreExamples.st_two).
  repeat constructor; simpl; eauto.
Defined.

Lemma v2_status_is_found_after_it_was_set_witness :
  exists x,
    networkstatus_v2_get_by_digest
      (router_set_networkstatus_v2 (V2Examples.env_known_at 500) "status" 900 NS_FROM_CACHE None
         V2MoreExamples.st_two).1.2 "v2auth" = Some x
    /\ v2_identity_digest x = "v2auth"
    /\ (networkstatus_digest x = "digest-1" \/ 500 <= published_on x).
Proof.
  apply (v2_status_is_found_after_it_was_set (V2Examples.env_known_at 500) "status" 900
           NS_FROM_CACHE None V2MoreExamples.st_two (V2Examples.status_at 500)
           (mk_ds "v2auth" true)); try reflexivity.
  unfold one_per_authority. simpl. apply NoDup_cons. split.
  - intros H. apply list_elem_of_singleton in H. discriminate H.
  - apply NoDup_singleton.
Defined.

Lemma take_delete_same {A} (l : list A) : forall i, take i (delete i l) = take i l.
Proof. induction l as [|x l IH]; intros [|i]; simpl; f_equal; auto. Qed.


End V2Extras.
(** * Further properties of the microdescriptor cache *)

Section MicrodescExtras.
Import Microdesc MicrodescSpec MicrodescProps.

Lemma clean_loop_spec (E : IoEnv) (limit : Z) (l : list microdesc_t) :
  let r := clean_loop E limit l in
  r.1.1 = filter (listed_since limit) l
  /\ r.1.2 = Z.of_nat (length l) - Z.of_nat (length (filter (listed_since limit) l))
  /\ r.2 = (stale_bytes limit l mod 2 ^ size_bits E)%N.
Proof.
  induction l as [|md l IH]; simpl.
  - split; [done|]. split; [done|]. by rewrite N.Div0.mod_0_l.
  - destruct (clean_loop E limit l) as [[kept dropped] bytes]. simpl in IH.
    destruct IH as (-> & -> & ->).
    destruct (last_listed md <? limit) eqn:Hlt; simpl.
    + rewrite filter_cons_False by (unfold listed_since; lia).
      split; [done|]. split; [lia|]. unfold size_add.
      rewrite N.Div0.add_mod_idemp_r. done.
    + rewrite filter_cons_True by (unfold listed_since; lia).
      split; [done|]. split; [simpl length; lia|]. done.
Qed.

Lemma filter_length_all {A} (P : A -> Prop) `{forall x, Decision (P x)} (l : list A) :
  length (filter P l) = length l -> filter P l = l.
Proof.
  induction l as [|x l IH]; [done|].
  destruct (decide (P x)) as [Hx|Hx].
  - rewrite filter_cons_True by done. simpl. intros [= Hl]. by rewrite IH.
  - rewrite filter_cons_False by done. simpl. intros Hl.
    pose proof (length_filter P l). lia.
Qed.

Lemma all_listed_since_filter limit (l : list microdesc_t) :
  all_listed_since limit l = true -> filter (listed_since limit) l = l.
Proof.
  unfold all_listed_since. induction l as [|md l IH]; simpl; [done|].
  intros H. apply andb_true_iff in H as [Hm Hl].
  rewrite filter_cons_True by (unfold listed_since; lia). by rewrite IH.
Qed.

Lemma filter_all_listed_since limit (l : list microdesc_t) :
  filter (listed_since limit) l = l -> all_listed_since limit l = true.
Proof.
  unfold all_listed_since. induction l as [|md l IH]; simpl; [done|].
  destruct (decide (listed_since limit md)) as [Hm|Hm].
  - rewrite filter_cons_True by done. intros [= Hl]. rewrite IH by done.
    unfold listed_since in Hm. apply andb_true_iff. split; [lia|done].
  - rewrite filter_cons_False by done. intros Hl.
    pose proof (length_filter (listed_since limit) l) as Hlen.
    rewrite Hl in Hlen. simpl in Hlen. lia.
Qed.

(** X17. microdesc_cache_clean does nothing when it is not forced and
    there is no reasonably live microdesc consensus; otherwise it keeps
    exactly the descriptors last listed at or after the cutoff (seven days
    before now when the cutoff given is not positive), in their order,
    adds the body lengths of the dropped ones to bytes_dropped in size_t
    arithmetic, and leaves every other field of the cache as it was. *)
Theorem cache_clean_drops_exactly_the_stale (E : IoEnv) (ds : dir_state)
    (cache : microdesc_cache_t) (cutoff : Z) (force : bool) :
  let cache1 := microdesc_cache_clean E ds cache cutoff force in
  let limit := clean_cutoff E cutoff in
  (force = false ->
   networkstatus_get_reasonably_live_consensus ds (io_now E) FLAV_MICRODESC = None ->
   cache1 = cache)
  /\ (force = true
      \/ is_Some (networkstatus_get_reasonably_live_consensus ds (io_now E) FLAV_MICRODESC) ->
      map cache1 = filter (listed_since limit) (map cache)
      /\ bytes_dropped cache1
         = (if all_listed_since limit (map cache)
            then bytes_dropped cache
            else ((bytes_dropped cache + stale_bytes limit (map cache))
                  mod 2 ^ size_bits E)%N)
      /\ cache_content cache1 = cache_content cache
      /\ journal_len cache1 = journal_len cache
      /\ total_len_seen cache1 = total_len_seen cache
      /\ n_seen cache1 = n_seen cache
      /\ cache_file cache1 = cache_file cache
      /\ journal_file cache1 = journal_file cache).
Proof.
  unfold microdesc_cache_clean, clean_cutoff. split.
  - intros -> ->. simpl. done.
  - intros Hgo.
    assert (negb force
            && negb (bool_decide (is_Some (networkstatus_get_reasonably_live_consensus ds
                                             (io_now E) FLAV_MICRODESC))) = false) as ->.
    { destruct Hgo as [->|Hl]; [done|]. rewrite (bool_decide_eq_true_2 _ Hl).
      by rewrite andb_false_r. }
    set (limit := if cutoff <=? 0 then _ else cutoff).
    pose proof (clean_loop_spec E limit (map cache)) as Hs.
    destruct (clean_loop E limit (map cache)) as [[kept dropped] bytes]. simpl in *.
    destruct Hs as (-> & -> & ->).
    split; [done|]. split; [|done].
    pose proof (length_filter (listed_since limit) (map cache)) as Hlen.
    destruct (all_listed_since limit (map cache)) eqn:Hall.
    + rewrite (all_listed_since_filter _ _ Hall), Z.sub_diag. done.
    + destruct (_ - _ =? 0) eqn:Hz; simpl.
      * exfalso. apply not_true_iff_false in Hall. apply Hall.
        apply filter_all_listed_since. apply filter_length_all. lia.
      * unfold size_add. by rewrite N.Div0.add_mod_idemp_r.
Qed.

Lemma string_app_cons x (a b : string) : String x a +:+ b = String x (a +:+ b).
Proof. reflexivity. Qed.

Lemma string_app_nil (b : string) : EmptyString +:+ b = b.
Proof. reflexivity. Qed.

Lemma string_app_empty_r (a : string) : a +:+ EmptyString = a.
Proof. induction a as [|x a IH]; [done|]. rewrite string_app_cons. f_equal. exact IH. Qed.

Lemma string_app_assoc (a b c : string) : (a +:+ b) +:+ c = a +:+ (b +:+ c).
Proof.
  induction a as [|x a IH]; [done|]. rewrite !string_app_cons. f_equal. exact IH.
Qed.

Lemma string_length_app (a b : string) :
  String.length (a +:+ b) = (String.length a + String.length b)%nat.
Proof.
  induction a as [|x a IH]; [done|]. rewrite string_app_cons. simpl. f_equal. exact IH.
Qed.

Lemma substring_app_skip (a b : string) (n : nat) :
  String.substring (String.length a) n (a +:+ b) = String.substring 0 n b.
Proof. induction a as [|x a IH]; [done|]. rewrite string_app_cons. simpl. exact IH. Qed.

Lemma substring_app_within (a b : string) : forall k n,
  (k + n <= String.length a)%nat ->
  String.substring k n (a +:+ b) = String.substring k n a.
Proof.
  induction a as [|x a IH]; intros k n Hle.
  - simpl in Hle. assert (k = 0%nat) as -> by lia. assert (n = 0%nat) as -> by lia.
    rewrite string_app_nil. by destruct b.
  - rewrite string_app_cons. simpl in Hle. destruct k as [|k].
    + destruct n as [|n]; [done|]. simpl. f_equal. apply IH. lia.
    + simpl. apply IH. lia.
Qed.

Lemma substring_0_length (s : string) : forall n,
  (n <= String.length s)%nat -> String.length (String.substring 0 n s) = n.
Proof.
  induction s as [|x s IH]; simpl; intros n Hle.
  - by assert (n = 0%nat) as -> by lia.
  - destruct n as [|n]; [done|]. simpl. f_equal. apply IH. lia.
Qed.

Lemma substring_0_all (s : string) : String.substring 0 (String.length s) s = s.
Proof. induction s as [|x s IH]; simpl; [done|]. f_equal. exact IH. Qed.

Lemma body_bytes_length md :
  body_readable md -> String.length (body_bytes md) = N.to_nat (bodylen md).
Proof. apply substring_0_length. Qed.

(** X18. When dump_microdescriptor succeeds on a descriptor whose body can
    be read, the file has grown by the annotation (if last_listed is set)
    followed by the body, the value returned is the number of bytes
    written, annotation_len_out is the length of the annotation, and the
    bodylen bytes of the file at the offset recorded in the descriptor are
    the descriptor's body. *)
Theorem dump_then_read_back (E : IoEnv) (out : string) (md : microdesc_t)
    (sz al : Z) (md1 : microdesc_t) (out1 : string) :
  dump_microdescriptor E out md = (sz, al, md1, out1) ->
  0 <= sz ->
  body_readable md ->
  out1 = out +:+ annotation_of E md +:+ body_bytes md
  /\ al = strlen (annotation_of E md)
  /\ sz = al + Z.of_N (bodylen md)
  /\ strlen out1 = strlen out + sz
  /\ off md1 = strlen out + al
  /\ String.substring (Z.to_nat (off md1)) (N.to_nat (bodylen md)) out1 = body_bytes md.
Proof.
  unfold dump_microdescriptor. fold (annotation_of E md).
  destruct (if negb (last_listed md =? 0) then fputs_outcome E (md_digest md) else WriteOk).
  2:{ intros; simplify_eq. exfalso. lia. }
  simpl. fold (body_bytes md).
  destruct (fwrite_outcome E (md_digest md)).
  2:{ intros; simplify_eq. exfalso. lia. }
  intros H Hsz Hread. simplify_eq. simpl. unfold strlen.
  rewrite <- string_app_assoc, !string_length_app, (body_bytes_length md Hread).
  repeat split; try done; try lia.
  rewrite Nat2Z.id, <- string_length_app, substring_app_skip.
  rewrite <- (body_bytes_length md Hread). apply substring_0_all.
Qed.
Lemma dump_microdescriptor_ok (E : IoEnv) (out : string) (md : microdesc_t) :
  dump_succeeds E md = true ->
  dump_microdescriptor E out md
  = (strlen (annotation_of E md) + Z.of_N (bodylen md), strlen (annotation_of E md),
     set_off (strlen (out +:+ annotation_of E md)) md,
     (out +:+ annotation_of E md) +:+ body_bytes md).
Proof.
  unfold dump_succeeds, dump_microdescriptor. fold (annotation_of E md).
  destruct (if negb (last_listed md =? 0) then fputs_outcome E (md_digest md) else WriteOk);
    [|done].
  simpl. fold (body_bytes md). by destruct (fwrite_outcome E (md_digest md)).
Qed.

Lemma rebuild_loop_dumped (E : IoEnv) (l : list microdesc_t) :
  forall pos out marked out1,
    rebuild_loop E l pos out = (marked, out1) ->
    pos = strlen out ->
    Forall (savable E) l ->
    out1 = out +:+ dumped E l
    /\ Forall2 (fun md (p : microdesc_t * bool) =>
                  md_digest p.1 = md_digest md
                  /\ (no_save md = true -> p = (md, false))
                  /\ (no_save md = false ->
                      p.2 = true /\ bodylen p.1 = bodylen md
                      /\ String.substring (Z.to_nat (off p.1)) (N.to_nat (bodylen md)) out1
                         = body_bytes md))
               l marked.
Proof.
  induction l as [|md l IH]; simpl; intros pos out marked out1 H Hpos Hall.
  - simplify_eq. split; [by rewrite string_app_empty_r|constructor].
  - apply Forall_cons in Hall as [Hmd Hall].
    destruct (no_save md) eqn:Hns.
    + destruct (rebuild_loop E l pos out) as [rest1 out2] eqn:Hr. simplify_eq.
      destruct (IH _ _ _ _ Hr eq_refl Hall) as [-> Hrest].
      split; [done|]. constructor; [|done]. simpl.
      split; [done|]. split; [done|]. intros; congruence.
    + destruct Hmd as [?|[Hok Hread]]; [congruence|].
      rewrite (dump_microdescriptor_ok E out md Hok) in H.
      assert ((strlen (annotation_of E md) + Z.of_N (bodylen md) <? 0) = false) as Hnn.
      { apply Z.ltb_ge. unfold strlen. lia. }
      rewrite Hnn in H.
      destruct (rebuild_loop E l _ _) as [rest1 out2] eqn:Hr. simplify_eq.
      assert (strlen out + (strlen (annotation_of E md) + Z.of_N (bodylen md))
              = strlen ((out +:+ annotation_of E md) +:+ body_bytes md)) as Hnext.
      { unfold strlen. rewrite !string_length_app, (body_bytes_length md Hread). lia. }
      destruct (IH _ _ _ _ Hr Hnext Hall) as [-> Hrest].
      split; [by rewrite !string_app_assoc|].
      constructor; [|done].
      assert (String.substring (Z.to_nat (strlen out + strlen (annotation_of E md)))
                (N.to_nat (bodylen md))
                (((out +:+ annotation_of E md) +:+ body_bytes md) +:+ dumped E l)
              = body_bytes md) as Hsub.
      { unfold strlen. rewrite <- Nat2Z.inj_add, Nat2Z.id, <- string_length_app.
        rewrite substring_app_within
          by (rewrite !string_length_app, (body_bytes_length md Hread); lia).
        rewrite substring_app_skip, <- (body_bytes_length md Hread).
        apply substring_0_all. }
      destruct (saved_location md) eqn:Hsl; simpl; rewrite ?Hsl; simpl;
        repeat split; try done; intros; congruence.
Qed.

Lemma rebind_loop_reads (mm : tor_mmap_t) (marked : list (microdesc_t * bool)) :
  forall l1,
    rebind_loop mm marked = Some l1 ->
    Forall2 (fun (p : microdesc_t * bool) md1 =>
               md_digest md1 = md_digest p.1
               /\ (p.2 = false -> md1 = p.1)
               /\ (p.2 = true ->
                   bodylen md1 = bodylen p.1
                   /\ body_content md1
                      = String.substring (Z.to_nat (off p.1)) (N.to_nat (bodylen p.1))
                          (mapped mm)))
            marked l1.
Proof.
  induction marked as [|[md b] marked IH]; simpl; intros l1 H.
  - simplify_eq. constructor.
  - destruct b.
    + destruct (negb (saved_location_eqb (saved_location md) SAVED_IN_CACHE)); [done|].
      destruct (negb (bool_decide _)); [done|].
      apply bind_Some in H as (rest1 & Hr & H). simplify_eq.
      constructor; [|by apply IH]. simpl. by repeat split.
    + apply bind_Some in H as (rest1 & Hr & H). simplify_eq.
      constructor; [|by apply IH]. simpl. by repeat split.
Qed.

(** X19. When the rewriting of the cache file in microdesc_cache_rebuild
    completes, the file is put in place, and for every descriptor to be
    saved the dump succeeds and the body can be read, then the new file
    holds annotation and body of every such descriptor, in table order and
    nothing else, and every descriptor of the table keeps its digest, its
    body length and the bytes of its body, now read from the mapped file;
    descriptors marked no_save are untouched. *)
Theorem rebuild_keeps_the_bodies (E : IoEnv) (cache cache1 : microdesc_cache_t) :
  finish_writing_to_file E = true ->
  Forall (savable E) (map cache) ->
  rebuild_cache_file E cache = Some (0, cache1) ->
  cache_file cache1 = Some (dumped E (map cache))
  /\ Forall2 body_kept (map cache) (map cache1).
Proof.
  intros Hfin Hall. unfold rebuild_cache_file. rewrite Hfin.
  destruct (negb (start_writing_to_stdio_file E)); [done|].
  destruct (rebuild_loop E (map cache) 0 EmptyString) as [marked out] eqn:Hl.
  destruct (rebuild_loop_dumped E (map cache) 0 EmptyString marked out Hl eq_refl Hall)
    as [Hout Hm].
  rewrite string_app_nil in Hout.
  unfold tor_mmap_file.
  destruct (mmap_address E out) as [base|].
  - intros H. apply bind_Some in H as (map1 & Hb & H). simplify_eq. simpl.
    split; [done|]. apply rebind_loop_reads in Hb. simpl in Hb.
    set (content := dumped E (map cache)) in *. clearbody content.
    clear -Hm Hb. revert map1 Hb.
    induction Hm as [|md p l marked (Hd & Hu & Hs) _ IH]; intros map1 Hb.
    + inversion Hb. constructor.
    + inversion Hb as [|p1 md1 marked1 rest1 (Hd1 & Hk & Hw) Hrest]; subst.
      constructor; [|by apply IH].
      split; [congruence|]. split.
      * intros Hns. rewrite (Hu Hns) in Hk. by apply Hk.
      * intros Hns. destruct (Hs Hns) as (Hp & Hlen & Hsub).
        destruct (Hw Hp) as (Hlen1 & Hbody). split; [congruence|].
        by rewrite Hbody, Hlen.
  - destruct (existsb snd marked) eqn:Hany; [done|].
    intros; simplify_eq. simpl. split; [done|].
    set (content := dumped E (map cache)) in *. clearbody content.
    clear -Hm Hany.
    induction Hm as [|md p l marked (Hd & Hu & Hs) _ IH]; simpl; [constructor|].
    simpl in Hany. apply orb_false_iff in Hany as [Hp Hrest].
    constructor; [|by apply IH].
    split; [done|]. split.
    + intros Hns. by rewrite (Hu Hns).
    + intros Hns. destruct (Hs Hns) as (Hp' & _). congruence.
Qed.


Lemma dump_then_read_back_witness :
  let E := MicrodescExamples.io_ok in
  let md := MicrodescExamples.md_journal "digest-1" 999999 in
  let '(_, _, md1, out1) := dump_microdescriptor E "journal" md in
  String.substring (Z.to_nat (off md1)) (N.to_nat (bodylen md)) out1 = body_bytes md.
Proof.
  intros E md.
  destruct (dump_microdescriptor E "journal" md) as [[[sz al] md1] out1] eqn:Hd.
  refine (proj2 (proj2 (proj2 (proj2 (proj2
            (dump_then_read_back E "journal" md sz al md1 out1 Hd _ _)))))).
  - vm_compute in Hd. injection Hd as <- _ _ _. lia.
  - vm_compute. lia.
Defined.

Lemma rebuild_keeps_the_bodies_witness :
  exists cache1,
    rebuild_cache_file MicrodescExamples.io_ok MicrodescExamples.cache_two = Some (0, cache1)
    /\ Forall2 body_kept (map MicrodescExamples.cache_two) (map cache1).
Proof.
  pose (c1 := ltac:(let t := eval vm_compute in
                      (match rebuild_cache_file MicrodescExamples.io_ok
                               MicrodescExamples.cache_two with
                       | Some (_, c) => c
                       | None => MicrodescExamples.cache_two
                       end) in exact t)).
  assert (Hr : rebuild_cache_file MicrodescExamples.io_ok MicrodescExamples.cache_two
               = Some (0, c1)) by (vm_compute; reflexivity).
  assert (HF : Forall (savable MicrodescExamples.io_ok) (map MicrodescExamples.cache_two)).
  { repeat constructor; right; (split; [reflexivity | vm_compute; lia]). }
  exists c1. split; [exact Hr |].
  exact (proj2 (rebuild_keeps_the_bodies MicrodescExamples.io_ok MicrodescExamples.cache_two
                  c1 eq_refl HF Hr)).
Defined.

End MicrodescExtras.
(** * Further properties of adding to the microdescriptor cache *)

Section MicrodescAddExtras.
Import Microdesc MicrodescSpec MicrodescProps MicrodescMore MicrodescMoreProps.

Lemma relisted_refl md : relisted md md.
Proof. split; [lia|]. by destruct md. Qed.

Lemma relisted_trans a b c : relisted a b -> relisted b c -> relisted a c.
Proof.
  intros [H1 H2] [H3 H4]. split; [lia|].
  rewrite <- H2, <- H4. by destruct c.
Qed.

Lemma relisted_raise md t :
  relisted md (if last_listed md <? t then set_last_listed t md else md).
Proof.
  destruct (last_listed md <? t) eqn:Ht; [|apply relisted_refl].
  apply Z.ltb_lt in Ht. split; [simpl; lia|]. by destruct md.
Qed.

Lemma ht_find_digest l d md : ht_find l d = Some md -> md_digest md = d /\ md ∈ l.
Proof.
  induction l as [|x l IH]; [done|]. simpl. case_bool_decide as Hx.
  - intros [= <-]. split; [done|]. apply list_elem_of_here.
  - intros H. destruct (IH H). split; [done|]. by apply list_elem_of_further.
Qed.

Lemma ht_find_None l d : ht_find l d = None <-> d ∉ md_digest <$> l.
Proof.
  induction l as [|x l IH]; simpl.
  - split; [intros _; apply not_elem_of_nil | done].
  - case_bool_decide as Hx.
    + split; [done|]. intros H. exfalso. apply H. rewrite Hx. apply list_elem_of_here.
    + rewrite IH, not_elem_of_cons. split; [by intros; split; [congruence|] | by intros [_ ?]].
Qed.

Lemma ht_find_is_Some l d : is_Some (ht_find l d) <-> d ∈ md_digest <$> l.
Proof.
  destruct (ht_find l d) eqn:H.
  - split; [|by eauto]. intros _. destruct (decide (d ∈ md_digest <$> l)) as [|Hn]; [done|].
    apply ht_find_None in Hn. congruence.
  - apply ht_find_None in H. split; [intros [? [=]] | done].
Qed.

Lemma ht_find_app l x d :
  ht_find (l ++ [x]) d
  = match ht_find l d with
    | Some y => Some y
    | None => if bool_decide (md_digest x = d) then Some x else None
    end.
Proof.
  induction l as [|y l IH]; simpl; [done|].
  destruct (bool_decide (md_digest y = d)); [done | apply IH].
Qed.

Lemma ht_raise_digests l d t : md_digest <$> ht_raise_last_listed l d t = md_digest <$> l.
Proof.
  induction l as [|x l IH]; simpl; [done|]. case_bool_decide.
  - rewrite !fmap_cons. f_equal. by destruct (last_listed x <? t).
  - rewrite !fmap_cons. by rewrite IH.
Qed.

Lemma ht_raise_length l d t : length (ht_raise_last_listed l d t) = length l.
Proof.
  rewrite <- (length_fmap md_digest), ht_raise_digests. by rewrite length_fmap.
Qed.

Lemma ht_find_raise l d t d' :
  ht_find (ht_raise_last_listed l d t) d'
  = (fun md => if bool_decide (d' = d)
               then (if last_listed md <? t then set_last_listed t md else md)
               else md) <$> ht_find l d'.
Proof.
  induction l as [|x l IH]; [done|].
  cbn [ht_raise_last_listed ht_find].
  destruct (decide (md_digest x = d)) as [Hx|Hx].
  - rewrite (bool_decide_eq_true_2 _ Hx). cbn [ht_find].
    assert (Hd : md_digest (if last_listed x <? t then set_last_listed t x else x)
                 = md_digest x) by (by destruct (last_listed x <? t)).
    rewrite Hd. destruct (decide (md_digest x = d')) as [Hx'|Hx'].
    + rewrite (bool_decide_eq_true_2 _ Hx'). simpl.
      rewrite bool_decide_eq_true_2 by congruence. done.
    + (* the raise stops here: the rest is unchanged *)
      rewrite (bool_decide_eq_false_2 _ Hx').
      destruct (ht_find l d') as [y|] eqn:Hy; simpl; [|done].
      rewrite bool_decide_eq_false_2; [done|]. apply ht_find_digest in Hy as [Hy _]. congruence.
  - rewrite (bool_decide_eq_false_2 _ Hx). cbn [ht_find].
    destruct (decide (md_digest x = d')) as [Hx'|Hx'].
    + rewrite (bool_decide_eq_true_2 _ Hx'). simpl.
      rewrite bool_decide_eq_false_2 by congruence. done.
    + rewrite (bool_decide_eq_false_2 _ Hx'). apply IH.
Qed.

Lemma ht_find_raise_relisted l d t d' md0 :
  ht_find l d' = Some md0 ->
  exists md1, ht_find (ht_raise_last_listed l d t) d' = Some md1 /\ relisted md0 md1
    /\ (d' = d -> t <= last_listed md1).
Proof.
  intros H. rewrite ht_find_raise, H. simpl. eexists. split; [done|].
  case_bool_decide as Hd.
  - split; [apply relisted_raise|]. intros _.
    destruct (last_listed md0 <? t) eqn:Ht; simpl; [lia|]. apply Z.ltb_ge in Ht. lia.
  - split; [apply relisted_refl | done].
Qed.

Lemma dump_microdescriptor_md E out md sz al md1 out1 :
  dump_microdescriptor E out md = (sz, al, md1, out1) ->
  exists o, md1 = set_off o md \/ md1 = md.
Proof.
  unfold dump_microdescriptor.
  destruct (if negb (last_listed md =? 0) then fputs_outcome E (md_digest md) else WriteOk).
  - simpl. destruct (fwrite_outcome E (md_digest md)); intros [= <- <- <- <-]; eauto.
  - intros [= <- <- <- <-]. exists 0. by right.
Qed.

Lemma dump_microdescriptor_fails E out md sz al md1 out1 :
  dump_microdescriptor E out md = (sz, al, md1, out1) ->
  (sz <? 0) = true -> dump_succeeds E md = false.
Proof.
  unfold dump_microdescriptor, dump_succeeds.
  destruct (if negb (last_listed md =? 0) then fputs_outcome E (md_digest md) else WriteOk);
    [|done].
  simpl. destruct (fwrite_outcome E (md_digest md)); [|done].
  intros [= <- <- <- <-] H. apply Z.ltb_lt in H.
  unfold strlen in H. lia.
Qed.

Lemma entered_as_inserted w ns md md1 :
  (exists o, md1 = set_off o md \/ md1 = md) ->
  entered_as w ns md (inserted (stored_at w ns) ns md1).
Proof.
  intros [o [-> | ->]]; repeat split; simpl; lia.
Qed.

Lemma entered_as_relisted w ns md a b :
  entered_as w ns md a -> relisted a b -> entered_as w ns md b.
Proof.
  intros (H1 & H2 & H3 & H4 & H5 & H6 & H7 & H8) [Hl Hr].
  rewrite <- Hr in *. simpl in *. repeat split; try done. lia.
Qed.

Ltac add_loop_cases md f Hf Hd Hs :=
  cbn [add_list_loop];
  destruct (ht_find _ (md_digest md)) as [?md2|] eqn:Hf;
  [ | destruct f;
      [ destruct (dump_microdescriptor _ _ md) as [[[?sz ?al] ?md1] ?out'] eqn:Hd;
        destruct (_ <? 0) eqn:Hs | ] ].

(** The map of the cache after the step taken for a descriptor that is
    already there. *)
Lemma map_after_found E w size l (cache : microdesc_cache_t) :
  map (if negb (saved_location_eqb w SAVED_NOWHERE)
       then mk_cache (map (set_map l cache)) (cache_content (set_map l cache))
                     (journal_len (set_map l cache))
                     (size_add_signed E (bytes_dropped (set_map l cache)) size)
                     (total_len_seen (set_map l cache)) (n_seen (set_map l cache))
                     (cache_file (set_map l cache)) (journal_file (set_map l cache))
       else set_map l cache) = l.
Proof. by destruct (negb _). Qed.

Lemma add_list_loop_keeps E w ns f descriptors :
  forall cache added size out ab c1 added1 out1,
  add_list_loop E w ns f descriptors cache added size out = (ab, c1, added1, out1) ->
  forall d md0, ht_find (map cache) d = Some md0 ->
  exists md1, ht_find (map c1) d = Some md1 /\ relisted md0 md1.
Proof.
  induction descriptors as [|md rest IH]; intros cache added size out ab c1 added1 out1.
  - intros [= <- <- <- <-] d md0 H. exists md0. split; [done | apply relisted_refl].
  - add_loop_cases md f Hf Hd Hs.
    + intros H d md0 H0.
      destruct (ht_find_raise_relisted _ (md_digest md) (last_listed md) _ _ H0)
        as (md' & H1 & H2 & _).
      eapply IH in H; [| rewrite map_after_found; exact H1].
      destruct H as (md1 & H3 & H4). exists md1. split; [done|].
      by eapply relisted_trans.
    + intros [= <- <- <- <-] d md0 H. exists md0. split; [done | apply relisted_refl].
    + intros H d md0 H0. eapply IH in H; [exact H|].
      cbn [map]. by rewrite ht_find_app, H0.
    + intros H d md0 H0. eapply IH in H; [exact H|].
      cbn [map]. by rewrite ht_find_app, H0.
Qed.

Lemma add_list_loop_digests E w ns f descriptors :
  forall cache added size out ab c1 added1 out1,
  add_list_loop E w ns f descriptors cache added size out = (ab, c1, added1, out1) ->
  exists new,
    md_digest <$> map c1 = (md_digest <$> map cache) ++ new
    /\ (ab = false -> added1 = added ++ new)
    /\ (distinct_digests (map cache) -> distinct_digests (map c1)).
Proof.
  induction descriptors as [|md rest IH]; intros cache added size out ab c1 added1 out1.
  - intros [= <- <- <- <-]. exists []. by rewrite !app_nil_r.
  - add_loop_cases md f Hf Hd Hs.
    + intros H. apply IH in H as (new & H1 & H2 & H3).
      rewrite map_after_found, ht_raise_digests in H1.
      exists new. split; [done|]. split; [done|].
      intros Hn. apply H3. unfold distinct_digests.
      by rewrite map_after_found, ht_raise_digests.
    + intros [= <- <- <- <-]. exists []. by rewrite !app_nil_r.
    + intros H. apply IH in H as (new & H1 & H2 & H3). cbn [map] in *.
      destruct (dump_microdescriptor_md _ _ _ _ _ _ _ Hd) as [o Hmd].
      assert (Hdig : md_digest md1 = md_digest md) by (by destruct Hmd as [-> | ->]).
      rewrite fmap_app in H1. simpl in H1. rewrite Hdig, <- app_assoc in H1.
      exists (md_digest md :: new). split; [done|]. split.
      * intros Hab. rewrite (H2 Hab). simpl. by rewrite Hdig, <- app_assoc.
      * intros Hn. apply H3. unfold distinct_digests in *. rewrite fmap_app. simpl.
        apply NoDup_app. split; [done|]. split; [|apply NoDup_singleton].
        intros x Hx Hx'. apply list_elem_of_singleton in Hx'. subst x.
        apply ht_find_None in Hf. rewrite Hdig in Hx. done.
    + intros H. apply IH in H as (new & H1 & H2 & H3). cbn [map] in *.
      rewrite fmap_app in H1. simpl in H1. rewrite <- app_assoc in H1.
      exists (md_digest md :: new). split; [done|]. split.
      * intros Hab. rewrite (H2 Hab). simpl. by rewrite <- app_assoc.
      * intros Hn. apply H3. unfold distinct_digests in *. rewrite fmap_app. simpl.
        apply NoDup_app. split; [done|]. split; [|apply NoDup_singleton].
        intros x Hx Hx'. apply list_elem_of_singleton in Hx'. subst x.
        apply ht_find_None in Hf. done.
Qed.

Lemma journal_opened_stored_at w ns :
  journal_opened w ns = true -> stored_at w ns = SAVED_IN_JOURNAL.
Proof. unfold stored_at. by intros ->. Qed.

Lemma journal_closed_stored_at w ns :
  journal_opened w ns = false -> stored_at w ns = w.
Proof. unfold stored_at. by intros ->. Qed.

Lemma add_list_loop_entered E w ns descriptors :
  forall cache added size out ab c1 added1 out1,
  add_list_loop E w ns (journal_opened w ns) descriptors cache added size out
  = (ab, c1, added1, out1) ->
  forall d md1, ht_find (map cache) d = None -> ht_find (map c1) d = Some md1 ->
  exists md, md ∈ descriptors /\ entered_as w ns md md1.
Proof.
  induction descriptors as [|md rest IH]; intros cache added size out ab c1 added1 out1.
  - intros [= <- <- <- <-] d md1 H1 H2. congruence.
  - cbn [add_list_loop].
    destruct (ht_find _ (md_digest md)) as [md2|] eqn:Hf;
      [ | destruct (journal_opened w ns) eqn:Hjo;
          [ destruct (dump_microdescriptor _ _ md) as [[[sz al] md1'] out'] eqn:Hd;
            destruct (_ <? 0) eqn:Hs | ] ].
    + intros H d md1 H1 H2.
      eapply IH in H as (md' & Hin & He); [| | exact H2].
      * exists md'. split; [by apply list_elem_of_further | done].
      * rewrite map_after_found, ht_find_raise, H1. done.
    + intros [= <- <- <- <-] d md1 H1 H2. congruence.
    + intros H d m H1 H2. cbn [map] in *.
      destruct (decide (md_digest md = d)) as [Hdd|Hdd].
      * pose proof (add_list_loop_keeps _ _ _ _ _ _ _ _ _ _ _ _ _ H d
                      (inserted SAVED_IN_JOURNAL ns md1')) as Hk.
        cbn [map] in Hk. rewrite ht_find_app, H1 in Hk.
        destruct (dump_microdescriptor_md _ _ _ _ _ _ _ Hd) as [o Hmd].
        assert (Hdig : md_digest md1' = md_digest md) by (by destruct Hmd as [-> | ->]).
        simpl in Hk. rewrite Hdig, (bool_decide_eq_true_2 _ Hdd) in Hk.
        destruct (Hk eq_refl) as (m' & Hm' & Hrel). rewrite H2 in Hm'. injection Hm' as <-.
        exists md. split; [apply list_elem_of_here|].
        eapply entered_as_relisted; [|exact Hrel].
        rewrite <- (journal_opened_stored_at w ns Hjo). apply entered_as_inserted. eauto.
      * eapply IH in H as (md' & Hin & He); [| | exact H2].
        -- exists md'. split; [by apply list_elem_of_further | done].
        -- cbn [map]. rewrite ht_find_app, H1. simpl.
           destruct (dump_microdescriptor_md _ _ _ _ _ _ _ Hd) as [o Hmd].
           assert (Hdig : md_digest md1' = md_digest md) by (by destruct Hmd as [-> | ->]).
           rewrite Hdig. by rewrite (bool_decide_eq_false_2 _ Hdd).
    + intros H d m H1 H2. cbn [map] in *.
      destruct (decide (md_digest md = d)) as [Hdd|Hdd].
      * pose proof (add_list_loop_keeps _ _ _ _ _ _ _ _ _ _ _ _ _ H d
                      (inserted w ns md)) as Hk.
        cbn [map] in Hk. rewrite ht_find_app, H1 in Hk.
        simpl in Hk. rewrite (bool_decide_eq_true_2 _ Hdd) in Hk.
        destruct (Hk eq_refl) as (m' & Hm' & Hrel). rewrite H2 in Hm'. injection Hm' as <-.
        exists md. split; [apply list_elem_of_here|].
        eapply entered_as_relisted; [|exact Hrel].
        rewrite <- (journal_closed_stored_at w ns Hjo) at 2. apply entered_as_inserted.
        exists 0. by right.
      * eapply IH in H as (md' & Hin & He); [| | exact H2].
        -- exists md'. split; [by apply list_elem_of_further | done].
        -- cbn [map]. rewrite ht_find_app, H1. simpl.
           by rewrite (bool_decide_eq_false_2 _ Hdd).
Qed.

Lemma add_list_loop_all_found E w ns f descriptors :
  forall cache added size out c1 added1 out1,
  add_list_loop E w ns f descriptors cache added size out = (false, c1, added1, out1) ->
  forall md, md ∈ descriptors ->
  exists md1, ht_find (map c1) (md_digest md) = Some md1 /\ last_listed md <= last_listed md1.
Proof.
  induction descriptors as [|md rest IH]; intros cache added size out c1 added1 out1.
  - intros _ md Hin. by apply elem_of_nil in Hin.
  - add_loop_cases md f Hf Hd Hs.
    + intros H m Hin. apply elem_of_cons in Hin as [-> | Hin]; [|by eapply IH].
      destruct (ht_find_raise_relisted _ (md_digest md) (last_listed md) _ _ Hf)
        as (md' & H1 & _ & H2).
      eapply add_list_loop_keeps in H as (md1 & H3 & [H4 _]);
        [| rewrite map_after_found; exact H1].
      exists md1. split; [done|]. specialize (H2 eq_refl). lia.
    + intros [=].
    + intros H m Hin. apply elem_of_cons in Hin as [-> | Hin]; [|by eapply IH].
      destruct (dump_microdescriptor_md _ _ _ _ _ _ _ Hd) as [o Hmd].
      pose proof (add_list_loop_keeps _ _ _ _ _ _ _ _ _ _ _ _ _ H (md_digest md)
                    (inserted SAVED_IN_JOURNAL ns md1)) as Hk.
      cbn [map] in Hk. rewrite ht_find_app, Hf in Hk. simpl in Hk.
      rewrite bool_decide_eq_true_2 in Hk by (by destruct Hmd as [-> | ->]).
      destruct (Hk eq_refl) as (m1 & H1 & [H2 _]). exists m1. split; [done|].
      simpl in H2. by destruct Hmd as [-> | ->].
    + intros H m Hin. apply elem_of_cons in Hin as [-> | Hin]; [|by eapply IH].
      pose proof (add_list_loop_keeps _ _ _ _ _ _ _ _ _ _ _ _ _ H (md_digest md)
                    (inserted w ns md)) as Hk.
      cbn [map] in Hk. rewrite ht_find_app, Hf in Hk. simpl in Hk.
      rewrite bool_decide_eq_true_2 in Hk by done.
      destruct (Hk eq_refl) as (m1 & H1 & [H2 _]). exists m1. split; [done|].
      by simpl in H2.
Qed.

Lemma add_list_loop_aborted E w ns f descriptors :
  forall cache added size out c1 added1 out1,
  add_list_loop E w ns f descriptors cache added size out = (true, c1, added1, out1) ->
  f = true /\ added1 = [] /\ ~ all_dumps_succeed E descriptors.
Proof.
  unfold all_dumps_succeed.
  induction descriptors as [|md rest IH]; intros cache added size out c1 added1 out1.
  - intros [=].
  - add_loop_cases md f Hf Hd Hs.
    + intros H. apply IH in H as (H1 & H2 & H3). split; [done|]. split; [done|].
      intros HF. apply H3. by apply Forall_cons in HF as [_ ?].
    + intros [= <- <- <-]. split; [done|]. split; [done|].
      intros HF. apply Forall_cons in HF as [HF _].
      rewrite (dump_microdescriptor_fails _ _ _ _ _ _ _ Hd Hs) in HF. done.
    + intros H. apply IH in H as (H1 & H2 & H3). split; [done|]. split; [done|].
      intros HF. apply H3. by apply Forall_cons in HF as [_ ?].
    + intros H. apply IH in H as (H1 & H2 & H3). done.
Qed.

Lemma size_add_signed_0 E (x : N) : (x < 2 ^ size_bits E)%N -> size_add_signed E x 0 = x.
Proof.
  intros H. unfold size_add_signed. rewrite Z.add_0_r.
  rewrite Z.mod_small; [apply N2Z.id|].
  split; [lia|]. apply N2Z.inj_lt in H. by rewrite N2Z.inj_pow in H.
Qed.

Lemma add_list_loop_fields E w ns f descriptors :
  (f = true -> w = SAVED_NOWHERE) ->
  forall cache added size out ab c1 added1 out1,
  (w <> SAVED_NOWHERE -> size = 0) ->
  add_list_loop E w ns f descriptors cache added size out = (ab, c1, added1, out1) ->
  cache_content c1 = cache_content cache
  /\ cache_file c1 = cache_file cache
  /\ journal_file c1 = journal_file cache
  /\ ((bytes_dropped cache < 2 ^ size_bits E)%N -> bytes_dropped c1 = bytes_dropped cache)
  /\ (f = false -> journal_len c1 = journal_len cache /\ out1 = out)
  /\ (n_seen c1 mod 2 ^ 32
      = (n_seen cache + N.of_nat (length (map c1) - length (map cache))) mod 2 ^ 32)%N
  /\ (length (map cache) <= length (map c1))%nat.
Proof.
  intros Hfw.
  induction descriptors as [|md rest IH]; intros cache added size out ab c1 added1 out1 Hsz.
  - intros [= <- <- <- <-]. split_and!; try done.
    by rewrite Nat.sub_diag, N.add_0_r.
  - add_loop_cases md f Hf Hd Hs.
    + intros H. apply IH in H; [|done].
      destruct H as (H1 & H2 & H3 & H4 & H5 & H6 & H7).
      rewrite map_after_found, ht_raise_length in H6, H7.
      assert (Hbd : (bytes_dropped cache < 2 ^ size_bits E)%N ->
                bytes_dropped (if negb (saved_location_eqb w SAVED_NOWHERE)
       then mk_cache (map (set_map (ht_raise_last_listed (map cache) (md_digest md)
                                      (last_listed md)) cache))
                     (cache_content (set_map (ht_raise_last_listed (map cache) (md_digest md)
                                      (last_listed md)) cache))
                     (journal_len (set_map (ht_raise_last_listed (map cache) (md_digest md)
                                      (last_listed md)) cache))
                     (size_add_signed E (bytes_dropped (set_map (ht_raise_last_listed (map cache) (md_digest md)
                                      (last_listed md)) cache)) size)
                     (total_len_seen (set_map (ht_raise_last_listed (map cache) (md_digest md)
                                      (last_listed md)) cache)) (n_seen (set_map (ht_raise_last_listed (map cache) (md_digest md)
                                      (last_listed md)) cache))
                     (cache_file (set_map (ht_raise_last_listed (map cache) (md_digest md)
                                      (last_listed md)) cache)) (journal_file (set_map (ht_raise_last_listed (map cache) (md_digest md)
                                      (last_listed md)) cache))
       else set_map (ht_raise_last_listed (map cache) (md_digest md)
                                      (last_listed md)) cache) = bytes_dropped cache).
      { intros Hb. destruct w; simpl; try done.
        - rewrite Hsz by done. by apply size_add_signed_0.
        - rewrite Hsz by done. by apply size_add_signed_0. }
      destruct (negb (saved_location_eqb w SAVED_NOWHERE)); simpl in *.
      * split_and!; try done. intros Hb. rewrite H4; [by apply Hbd|]. by rewrite Hbd.
      * split_and!; try done.
    + intros [= <- <- <- <-]. split_and!; try done.
      by rewrite Nat.sub_diag, N.add_0_r.
    + intros H. apply IH in H; [|intros Hw; by rewrite Hfw in Hw].
      destruct H as (H1 & H2 & H3 & H4 & H5 & H6 & H7). cbn [map cache_content cache_file journal_file bytes_dropped journal_len n_seen] in *.
      rewrite length_app in H6, H7. simpl in H6, H7.
      split_and!; try done; [|lia].
      rewrite H6. rewrite N.Div0.add_mod_idemp_l. f_equal. lia.
    + intros H. apply IH in H; [|done].
      destruct H as (H1 & H2 & H3 & H4 & H5 & H6 & H7). cbn [map cache_content cache_file journal_file bytes_dropped journal_len n_seen] in *.
      rewrite length_app in H6, H7. simpl in H6, H7.
      split_and!; try done; [|lia].
      rewrite H6. rewrite N.Div0.add_mod_idemp_l. f_equal. lia.
Qed.

(** The two ways through [microdescs_add_list_to_cache]. *)
Lemma add_list_cases E env ds cache descriptors w ns :
  let res := microdescs_add_list_to_cache E env ds cache descriptors w ns in
  (journal_opened w ns = true /\ start_writing_to_stdio_file E = false
   /\ res = (None, cache, []))
  \/ exists ab c1 added out,
       add_list_loop E w ns (journal_opened w ns) descriptors cache [] 0
                     (default EmptyString (journal_file cache)) = (ab, c1, added, out)
       /\ (journal_opened w ns = true -> start_writing_to_stdio_file E = true)
       /\ res.1.1 = Some added
       /\ map res.1.2 = map c1
       /\ cache_content res.1.2 = cache_content c1
       /\ journal_len res.1.2 = journal_len c1
       /\ bytes_dropped res.1.2 = bytes_dropped c1
       /\ n_seen res.1.2 = n_seen c1
       /\ cache_file res.1.2 = cache_file c1
       /\ journal_file res.1.2
          = (if journal_opened w ns then Some out else journal_file c1)
       /\ res.2
          = (if ab then []
             else
               let calls :=
                 match current_consensus env ds with
                 | Some c =>
                   if flavor_eqb (flavor c) FLAV_MICRODESC
                   then NodelistAddMicrodesc <$> added else []
                 | None => []
                 end in
               if bool_decide (added = []) then calls else calls ++ [RouterDirInfoChanged]).
Proof.
  unfold microdescs_add_list_to_cache. fold (journal_opened w ns).
  destruct (journal_opened w ns) eqn:Hjo; simpl.
  - destruct (start_writing_to_stdio_file E) eqn:Hst; simpl; [|by left].
    right.
    destruct (add_list_loop _ _ _ _ _ _ _ _ _) as [[[ab c1] added] out].
    exists ab, c1, added, out. by destruct ab.
  - right.
    destruct (add_list_loop _ _ _ _ _ _ _ _ _) as [[[ab c1] added] out].
    exists ab, c1, added, out. by destruct ab.
Qed.

(** X20. microdescs_add_list_to_cache never removes or replaces a cached
    descriptor: a digest found before the call is found after it, with the
    same entry except that last_listed may have grown. Every digest that
    is found only after the call belongs to a descriptor of the list
    given, stored with its body, the no_save flag given, held_in_map set,
    and saved_location SAVED_IN_JOURNAL when the journal was opened and
    the location given otherwise. The table never gets two entries with
    the same digest. *)
Theorem add_list_keeps_what_is_cached (E : IoEnv) (env : Env) (ds : dir_state)
    (cache : microdesc_cache_t) (descriptors : list microdesc_t)
    (where_ : saved_location_t) (no_save0 : bool) :
  let cache1 :=
    (microdescs_add_list_to_cache E env ds cache descriptors where_ no_save0).1.2 in
  (forall d md0,
     microdesc_cache_lookup_by_digest256 cache d = Some md0 ->
     exists md1, microdesc_cache_lookup_by_digest256 cache1 d = Some md1 /\ relisted md0 md1)
  /\ (forall d md1,
        microdesc_cache_lookup_by_digest256 cache d = None ->
        microdesc_cache_lookup_by_digest256 cache1 d = Some md1 ->
        exists md, md ∈ descriptors /\ entered_as where_ no_save0 md md1)
  /\ (distinct_digests (map cache) -> distinct_digests (map cache1)).
Proof.
  unfold microdesc_cache_lookup_by_digest256.
  destruct (add_list_cases E env ds cache descriptors where_ no_save0)
    as [(_ & _ & ->) | (ab & c1 & added & out & Hl & _ & _ & -> & _)]; simpl.
  - split_and!; [|congruence|done].
    intros d md0 H. exists md0. split; [done | apply relisted_refl].
  - split_and!.
    + by eapply add_list_loop_keeps.
    + by eapply add_list_loop_entered.
    + by destruct (add_list_loop_digests _ _ _ _ _ _ _ _ _ _ _ _ _ Hl) as (? & _ & _ & ?).
Qed.

(** X21. If the journal need not be opened, or it opens and no dump fails,
    microdescs_add_list_to_cache returns the entries it added: exactly the
    digests of the list that were not cached before, each once, appended
    to the table. Every descriptor of the list is found in the cache
    afterwards with last_listed at least its own, nodelist_add_microdesc
    is called for each added entry when the consensus in use is of the
    microdesc flavor, and router_dir_info_changed is called exactly when
    something was added. *)
Theorem add_list_enters_every_descriptor (E : IoEnv) (env : Env) (ds : dir_state)
    (cache : microdesc_cache_t) (descriptors : list microdesc_t)
    (where_ : saved_location_t) (no_save0 : bool) :
  distinct_digests (map cache) ->
  (journal_opened where_ no_save0 = true ->
   start_writing_to_stdio_file E = true /\ all_dumps_succeed E descriptors) ->
  let res := microdescs_add_list_to_cache E env ds cache descriptors where_ no_save0 in
  exists added,
    res.1.1 = Some added
    /\ md_digest <$> map res.1.2 = (md_digest <$> map cache) ++ added
    /\ NoDup added
    /\ (forall d, d ∈ added <->
                  microdesc_cache_lookup_by_digest256 cache d = None
                  /\ d ∈ md_digest <$> descriptors)
    /\ (forall md, md ∈ descriptors ->
          exists md1, microdesc_cache_lookup_by_digest256 res.1.2 (md_digest md) = Some md1
                      /\ last_listed md <= last_listed md1)
    /\ res.2
       = match current_consensus env ds with
         | Some c =>
           if flavor_eqb (flavor c) FLAV_MICRODESC then NodelistAddMicrodesc <$> added else []
         | None => []
         end ++ (if bool_decide (added = []) then [] else [RouterDirInfoChanged]).
Proof.
  intros Hdist Hok res. unfold microdesc_cache_lookup_by_digest256.
  destruct (add_list_cases E env ds cache descriptors where_ no_save0)
    as [(Hjo & Hst & _) | (ab & c1 & added & out & Hl & _ & Hr & Hm & _ & _ & _ & _ & _ & _ & Hc)].
  { destruct (Hok Hjo) as [? _]. congruence. }
  fold res in Hr, Hm, Hc.
  assert (Hab : ab = false).
  { destruct ab; [|done]. apply add_list_loop_aborted in Hl as (Hf & _ & Hn).
    destruct (Hok Hf) as [_ ?]. done. }
  subst ab.
  destruct (add_list_loop_digests _ _ _ _ _ _ _ _ _ _ _ _ _ Hl) as (new & Hd & Ha & Hn).
  specialize (Ha eq_refl). simpl in Ha. subst new. specialize (Hn Hdist).
  unfold distinct_digests in Hn. rewrite Hd in Hn. apply NoDup_app in Hn as (_ & Hdisj & Hnd).
  pose proof (add_list_loop_all_found _ _ _ _ _ _ _ _ _ _ _ _ Hl) as Hall.
  exists added. rewrite Hm. split_and!; try done.
  - intros d. split.
    + intros Hin. assert (Hnone : ht_find (map cache) d = None).
      { apply ht_find_None. intros Hin'. by apply (Hdisj d). }
      split; [done|].
      assert (Hs : is_Some (ht_find (map c1) d)).
      { apply ht_find_is_Some. rewrite Hd. apply elem_of_app. by right. }
      destruct Hs as [md1 Hs].
      destruct (add_list_loop_entered _ _ _ _ _ _ _ _ _ _ _ _ Hl d md1 Hnone Hs)
        as (md & Hmd & He).
      apply ht_find_digest in Hs as [<- _]. destruct He as [-> _].
      by apply list_elem_of_fmap_2.
    + intros [Hnone Hin]. apply list_elem_of_fmap in Hin as (md & -> & Hin).
      destruct (Hall md Hin) as (md1 & Hs & _).
      assert (Hs' : md_digest md ∈ md_digest <$> map c1).
      { apply ht_find_is_Some. eauto. }
      rewrite Hd in Hs'. apply elem_of_app in Hs' as [Hs' | Hs']; [|done].
      apply ht_find_None in Hnone. done.
  - rewrite Hc. simpl. case_bool_decide; [by rewrite app_nil_r | done].
Qed.

(** X22. microdescs_add_list_to_cache never changes a bytes_dropped that
    fits size_t: the statement that adds size to it for a duplicate runs
    only when where is not SAVED_NOWHERE, and then size is still 0. The
    mapped cache file is untouched too, the journal (length and file) is
    untouched when the journal is not opened, the table only grows, and
    n_seen grows by the number of new entries (modulo 2^32). *)
Theorem add_list_never_counts_dropped_bytes (E : IoEnv) (env : Env) (ds : dir_state)
    (cache : microdesc_cache_t) (descriptors : list microdesc_t)
    (where_ : saved_location_t) (no_save0 : bool) :
  (bytes_dropped cache < 2 ^ size_bits E)%N ->
  let cache1 :=
    (microdescs_add_list_to_cache E env ds cache descriptors where_ no_save0).1.2 in
  bytes_dropped cache1 = bytes_dropped cache
  /\ cache_content cache1 = cache_content cache
  /\ cache_file cache1 = cache_file cache
  /\ (journal_opened where_ no_save0 = false ->
      journal_len cache1 = journal_len cache /\ journal_file cache1 = journal_file cache)
  /\ (length (map cache) <= length (map cache1))%nat
  /\ (n_seen cache1 mod 2 ^ 32
      = (n_seen cache + N.of_nat (length (map cache1) - length (map cache))) mod 2 ^ 32)%N.
Proof.
  intros Hb. cbv zeta.
  destruct (add_list_cases E env ds cache descriptors where_ no_save0)
    as [(_ & _ & ->) | (ab & c1 & added & out & Hl & _ & _ & -> & -> & -> & -> & -> & -> & -> & _)];
    simpl.
  - split_and!; try done. by rewrite Nat.sub_diag, N.add_0_r.
  - apply add_list_loop_fields in Hl as (H1 & H2 & H3 & H4 & H5 & H6 & H7); [| |done].
    + split_and!; try done; [by apply H4|].
      intros Hjo. rewrite Hjo. split; [by apply H5 | done].
    + unfold journal_opened. destruct where_; simpl; done.
Qed.

Lemma cache_two_distinct : distinct_digests (map MicrodescExamples.cache_two).
Proof.
  unfold distinct_digests. simpl. apply NoDup_cons. split.
  - intros H. apply list_elem_of_singleton in H. discriminate H.
  - apply NoDup_singleton.
Defined.

Lemma add_list_enters_every_descriptor_witness :
  exists added,
    (microdescs_add_list_to_cache MicrodescExamples.io_ok Examples.env_with_cert initial_state
       MicrodescExamples.cache_two MicrodescMoreExamples.fetched SAVED_NOWHERE false).1.1
    = Some added
    /\ NoDup added.
Proof.
  destruct (add_list_enters_every_descriptor MicrodescExamples.io_ok Examples.env_with_cert
              initial_state MicrodescExamples.cache_two MicrodescMoreExamples.fetched
              SAVED_NOWHERE false cache_two_distinct) as (added & H1 & _ & H3 & _).
  - intros _. split; [reflexivity|]. repeat constructor.
  - exists added. split; [exact H1 | exact H3].
Defined.

Lemma add_list_never_counts_dropped_bytes_witness :
  bytes_dropped
    (microdescs_add_list_to_cache MicrodescExamples.io_ok Examples.env_with_cert initial_state
       MicrodescExamples.cache_two MicrodescMoreExamples.fetched SAVED_IN_CACHE false).1.2
  = bytes_dropped MicrodescExamples.cache_two.
Proof.
  refine (proj1 (add_list_never_counts_dropped_bytes MicrodescExamples.io_ok
                   Examples.env_with_cert initial_state MicrodescExamples.cache_two
                   MicrodescMoreExamples.fetched SAVED_IN_CACHE false _)).
  vm_compute. reflexivity.
Defined.

Lemma add_list_found_iff E env ds cache descriptors w ns0 :
  (journal_opened w ns0 = true ->
   start_writing_to_stdio_file E = true /\ all_dumps_succeed E descriptors) ->
  forall d,
    is_Some (ht_find (map (microdescs_add_list_to_cache E env ds cache descriptors w ns0).1.2) d)
    <-> is_Some (ht_find (map cache) d) \/ d ∈ md_digest <$> descriptors.
Proof.
  intros Hok d.
  destruct (add_list_cases E env ds cache descriptors w ns0)
    as [(Hjo & Hst & _) | (ab & c1 & added & out & Hl & _ & _ & -> & _)].
  { destruct (Hok Hjo) as [? _]. congruence. }
  assert (Hab : ab = false).
  { destruct ab; [|done]. apply add_list_loop_aborted in Hl as (Hf & _ & Hn).
    destruct (Hok Hf) as [_ ?]. done. }
  subst ab. split.
  - intros [md1 H1]. destruct (ht_find (map cache) d) as [md0|] eqn:H0; [left; eauto|].
    right. destruct (add_list_loop_entered _ _ _ _ _ _ _ _ _ _ _ _ Hl d md1 H0 H1)
      as (md & Hin & He).
    apply ht_find_digest in H1 as [<- _]. destruct He as [-> _].
    by apply list_elem_of_fmap_2.
  - intros [[md0 H0] | Hin].
    + destruct (add_list_loop_keeps _ _ _ _ _ _ _ _ _ _ _ _ _ Hl d md0 H0) as (md1 & H1 & _).
      eauto.
    + apply list_elem_of_fmap in Hin as (md & -> & Hin).
      destruct (add_list_loop_all_found _ _ _ _ _ _ _ _ _ _ _ _ Hl md Hin) as (md1 & H1 & _).
      eauto.
Qed.

(** X23. After microdescs_add_list_to_cache has run without a failed dump,
    microdesc_list_missing_digest256 reports, for the same consensus and
    arguments, exactly the digests it reported before minus those of the
    descriptors given: what was fetched is not asked for again and nothing
    new becomes missing. *)
Theorem missing_list_shrinks_by_the_added (E : IoEnv) (env : Env) (ds : dir_state)
    (cache : microdesc_cache_t) (descriptors : list microdesc_t)
    (where_ : saved_location_t) (no_save0 : bool)
    (c : networkstatus_t) (routerstatus_list : list md_routerstatus_t)
    (downloadable_only : bool) (skip : option (gset string)) :
  (journal_opened where_ no_save0 = true ->
   start_writing_to_stdio_file E = true /\ all_dumps_succeed E descriptors) ->
  let cache1 :=
    (microdescs_add_list_to_cache E env ds cache descriptors where_ no_save0).1.2 in
  microdesc_list_missing_digest256 c routerstatus_list cache1 downloadable_only skip
  = filter (fun d => d ∉ md_digest <$> descriptors)
      <$> microdesc_list_missing_digest256 c routerstatus_list cache downloadable_only skip.
Proof.
  intros Hok cache1. unfold microdesc_list_missing_digest256.
  destruct (negb (flavor_eqb (flavor c) FLAV_MICRODESC)); [done|]. simpl. f_equal.
  pose proof (add_list_found_iff E env ds cache descriptors where_ no_save0 Hok) as Hiff.
  fold cache1 in Hiff. clearbody cache1.
  induction routerstatus_list as [|rs rest IH]; [done|].
  cbn [list_missing_loop]. unfold microdesc_cache_lookup_by_digest256.
  set (d := rs_descriptor_digest rs).
  destruct (decide (is_Some (ht_find (map cache) d))) as [H0|H0].
  - rewrite (bool_decide_eq_true_2 _ H0).
    rewrite bool_decide_eq_true_2 by (apply Hiff; by left). exact IH.
  - rewrite (bool_decide_eq_false_2 _ H0).
    destruct (decide (d ∈ md_digest <$> descriptors)) as [Hin|Hin].
    + rewrite bool_decide_eq_true_2 by (apply Hiff; by right).
      destruct (downloadable_only && negb (rs_dl_ready rs)); [exact IH|].
      destruct (match skip with Some m => digestmap_get m d | None => false end); [exact IH|].
      destruct (tor_mem_is_zero d); [exact IH|].
      rewrite filter_cons_False by (intros Hn; by apply Hn). exact IH.
    + rewrite bool_decide_eq_false_2 by (rewrite Hiff; intros [?|?]; done).
      destruct (downloadable_only && negb (rs_dl_ready rs)); [exact IH|].
      destruct (match skip with Some m => digestmap_get m d | None => false end); [exact IH|].
      destruct (tor_mem_is_zero d); [exact IH|].
      rewrite filter_cons_True by done. by rewrite IH.
Qed.

Lemma missing_list_shrinks_by_the_added_witness :
  microdesc_list_missing_digest256 MicrodescMoreExamples.md_consensus
    MicrodescMoreExamples.listed
    (microdescs_add_list_to_cache MicrodescExamples.io_ok Examples.env_with_cert initial_state
       MicrodescExamples.cache_two MicrodescMoreExamples.fetched SAVED_NOWHERE false).1.2
    false None
  = Some ["digest-4"].
Proof.
  rewrite (missing_list_shrinks_by_the_added MicrodescExamples.io_ok Examples.env_with_cert
             initial_state MicrodescExamples.cache_two MicrodescMoreExamples.fetched
             SAVED_NOWHERE false MicrodescMoreExamples.md_consensus
             MicrodescMoreExamples.listed false None).
  - vm_compute. reflexivity.
  - intros _. split; [reflexivity|]. repeat constructor.
Defined.

Lemma ht_find_filter (P : microdesc_t -> Prop) `{forall x, Decision (P x)} l d md :
  ht_find l d = Some md -> P md -> ht_find (filter P l) d = Some md.
Proof.
  induction l as [|x l IH]; [done|]. cbn [ht_find].
  destruct (decide (md_digest x = d)) as [Hx|Hx].
  - rewrite (bool_decide_eq_true_2 _ Hx). intros [= ->] Hp.
    rewrite filter_cons_True by done. cbn [ht_find]. by rewrite (bool_decide_eq_true_2 _ Hx).
  - rewrite (bool_decide_eq_false_2 _ Hx). intros Hf Hp.
    destruct (decide (P x)).
    + rewrite filter_cons_True by done. cbn [ht_find].
      rewrite (bool_decide_eq_false_2 _ Hx). by apply IH.
    + rewrite filter_cons_False by done. by apply IH.
Qed.

Lemma microdesc_cache_clean_map E ds cache cutoff force :
  map (microdesc_cache_clean E ds cache cutoff force) = map cache
  \/ map (microdesc_cache_clean E ds cache cutoff force)
     = filter (listed_since (clean_cutoff E cutoff)) (map cache).
Proof.
  unfold microdesc_cache_clean, clean_cutoff.
  destruct (negb force && _); [by left|]. right.
  set (limit := if cutoff <=? 0 then _ else cutoff).
  pose proof (clean_loop_spec E limit (map cache)) as Hs.
  destruct (clean_loop E limit (map cache)) as [[kept dropped] bytes]. simpl in *.
  by destruct Hs as (-> & _).
Qed.

Lemma foldl_raise_relisted t (rsl : list md_routerstatus_t) :
  forall l d md,
  ht_find l d = Some md ->
  exists md1,
    ht_find (foldl (fun l rs => ht_raise_last_listed l (rs_descriptor_digest rs) t) l rsl) d
    = Some md1
    /\ relisted md md1
    /\ (d ∈ rs_descriptor_digest <$> rsl -> t <= last_listed md1).
Proof.
  induction rsl as [|rs rsl IH]; intros l d md H.
  - exists md. split; [done|]. split; [apply relisted_refl|].
    intros Hin. by apply elem_of_nil in Hin.
  - cbn [foldl].
    destruct (ht_find_raise_relisted l (rs_descriptor_digest rs) t d md H)
      as (md' & H1 & H2 & H3).
    destruct (IH _ _ _ H1) as (md1 & H4 & H5 & H6).
    exists md1. split; [done|]. split; [by eapply relisted_trans|].
    rewrite fmap_cons. intros Hin. apply elem_of_cons in Hin as [Hin | Hin].
    + specialize (H3 Hin). destruct H5 as [H5 _]. lia.
    + by apply H6.
Qed.

(** X24. A cached descriptor that the reasonably live microdesc consensus
    lists survives a cleaning that follows
    update_microdescs_from_networkstatus, provided the cleaning cutoff is
    not later than valid_after of that consensus: it is still found under
    its digest, unchanged except that last_listed is now at least
    valid_after. *)
Theorem listed_descriptors_survive_cleaning (E : IoEnv)
    (routerstatus_list : networkstatus_t -> list md_routerstatus_t)
    (ds : dir_state) (t : Z) (cache : microdesc_cache_t) (c : networkstatus_t)
    (cutoff : Z) (force : bool) (d : string) (md : microdesc_t) :
  networkstatus_get_reasonably_live_consensus ds t FLAV_MICRODESC = Some c ->
  flavor c = FLAV_MICRODESC ->
  clean_cutoff E cutoff <= valid_after c ->
  d ∈ rs_descriptor_digest <$> routerstatus_list c ->
  microdesc_cache_lookup_by_digest256 cache d = Some md ->
  exists cache1 md1,
    update_microdescs_from_networkstatus routerstatus_list ds t cache = Some cache1
    /\ microdesc_cache_lookup_by_digest256 (microdesc_cache_clean E ds cache1 cutoff force) d
       = Some md1
    /\ relisted md md1
    /\ valid_after c <= last_listed md1.
Proof.
  intros Hc Hfl Hcut Hin Hmd.
  unfold update_microdescs_from_networkstatus, microdesc_cache_lookup_by_digest256 in *.
  rewrite Hc, Hfl. simpl.
  destruct (foldl_raise_relisted (valid_after c) (routerstatus_list c) _ _ _ Hmd)
    as (md1 & H1 & H2 & H3).
  specialize (H3 Hin).
  eexists _, md1. split; [done|]. split; [|done].
  destruct (microdesc_cache_clean_map E ds
              (set_map (foldl (fun l rs => ht_raise_last_listed l (rs_descriptor_digest rs)
                                             (valid_after c))
                              (map cache) (routerstatus_list c)) cache) cutoff force)
    as [-> | ->]; [done|].
  apply ht_find_filter; [done|]. unfold listed_since. lia.
Qed.

Lemma listed_descriptors_survive_cleaning_witness :
  exists cache1 md1,
    update_microdescs_from_networkstatus (fun _ => MicrodescMoreExamples.listed)
      MicrodescMoreExamples.st_md_live 1000000 MicrodescExamples.cache_two = Some cache1
    /\ microdesc_cache_lookup_by_digest256
         (microdesc_cache_clean MicrodescExamples.io_ok MicrodescMoreExamples.st_md_live
            cache1 0 false) "digest-2" = Some md1
    /\ relisted (MicrodescExamples.md_journal "digest-2" 0) md1
    /\ 999000 <= last_listed md1.
Proof.
  apply (listed_descriptors_survive_cleaning MicrodescExamples.io_ok
           (fun _ => MicrodescMoreExamples.listed) MicrodescMoreExamples.st_md_live 1000000
           MicrodescExamples.cache_two MicrodescMoreExamples.md_consensus 0 false "digest-2"
           (MicrodescExamples.md_journal "digest-2" 0)).
  - reflexivity.
  - reflexivity.
  - vm_compute. discriminate.
  - simpl. apply list_elem_of_further, list_elem_of_here.
  - reflexivity.
Defined.

End MicrodescAddExtras.
(** * Further properties of the configuration and of consensus parameters *)

Section ConfigExtras.
Import MicrodescConfig.

(** X25. Whatever the options, a node fetches the kind of descriptor that
    goes with the consensus flavor it builds circuits from:
    microdescriptors when usable_consensus_flavor is microdesc, router
    descriptors when it is ns. A directory cache or a node with
    FetchUselessDescriptors fetches both kinds, any other node exactly
    one; with UseMicrodescriptors on auto, a server and a node with a
    bridge that lacks microdescriptor support use the ns flavor. *)
Theorem a_node_fetches_the_descriptors_it_uses (options : md_options) :
  (usable_consensus_flavor options = FLAV_MICRODESC ->
   truthy (we_fetch_microdescriptors options) = true)
  /\ (usable_consensus_flavor options = FLAV_NS ->
      truthy (we_fetch_router_descriptors options) = true)
  /\ (directory_caches_dir_info options = true \/ FetchUselessDescriptors options = true ->
      truthy (we_fetch_microdescriptors options) = true
      /\ truthy (we_fetch_router_descriptors options) = true)
  /\ (directory_caches_dir_info options = false -> FetchUselessDescriptors options = false ->
      truthy (we_fetch_microdescriptors options)
      = negb (truthy (we_fetch_router_descriptors options)))
  /\ (UseMicrodescriptors options = -1 ->
      server_mode options = true
      \/ (UseBridges options = true
          /\ any_bridges_dont_support_microdescriptors options = true) ->
      usable_consensus_flavor options = FLAV_NS).
Proof.
  unfold usable_consensus_flavor, we_fetch_microdescriptors, we_fetch_router_descriptors.
  split_and!.
  - destruct (directory_caches_dir_info options); [done|].
    destruct (FetchUselessDescriptors options); [done|].
    by destruct (truthy (we_use_microdescriptors_for_circuits options)).
  - destruct (directory_caches_dir_info options); [done|].
    destruct (FetchUselessDescriptors options); [done|].
    by destruct (truthy (we_use_microdescriptors_for_circuits options)).
  - intros [-> | ->]; [done|]. by destruct (directory_caches_dir_info options).
  - intros -> ->. by destruct (truthy (we_use_microdescriptors_for_circuits options)).
  - intros Hauto Hno. unfold we_use_microdescriptors_for_circuits. rewrite Hauto. simpl.
    destruct Hno as [-> | [-> ->]]; simpl; [|done].
    by destruct (UseBridges options && any_bridges_dont_support_microdescriptors options).
Qed.

End ConfigExtras.

Section ParamsExtras.
Import Params ParamsProps.

Lemma prefix_app (a b : string) : String.prefix a (a +:+ b) = true.
Proof.
  induction a as [|x a IH].
  - rewrite string_app_nil. by destruct b.
  - rewrite string_app_cons. simpl. by destruct (Ascii.ascii_dec x x).
Qed.

Lemma get_app_length (a : string) c (b : string) :
  String.get (String.length a) (a +:+ String c b) = Some c.
Proof. induction a as [|x a IH]; [done|]. rewrite string_app_cons. exact IH. Qed.

Lemma substring_after_name (a : string) c (b : string) :
  String.substring (String.length a + 1)
    (String.length (a +:+ String c b) - (String.length a + 1)) (a +:+ String c b) = b.
Proof.
  induction a as [|x a IH].
  - rewrite string_app_nil. simpl. rewrite Nat.sub_0_r. apply substring_0_all.
  - rewrite string_app_cons. exact IH.
Qed.

Lemma prefix_get_entry (name p : string) c :
  String.prefix name p = true -> String.get (String.length name) p = Some c ->
  p = name +:+ String c (String.substring (String.length name + 1)
                           (String.length p - (String.length name + 1)) p).
Proof.
  revert p. induction name as [|x name IH]; intros p.
  - intros _. rewrite string_app_nil. destruct p as [|y p]; [done|]. simpl.
    intros [= ->]. rewrite Nat.sub_0_r. by rewrite substring_0_all.
  - destruct p as [|y p]; [done|]. simpl.
    destruct (Ascii.ascii_dec x y) as [->|]; [|done].
    intros Hp Hg. rewrite string_app_cons. f_equal. by apply IH.
Qed.

Lemma net_param_loop_skips tor_parse_long pre rest name res :
  (forall p value, p ∈ pre -> p = param_entry name value -> tor_parse_long value = None) ->
  net_param_loop tor_parse_long (pre ++ rest) name res
  = net_param_loop tor_parse_long rest name res.
Proof.
  induction pre as [|p pre IH]; intros Hpre; [done|].
  rewrite <- app_comm_cons. cbn [net_param_loop].
  assert (IH' : net_param_loop tor_parse_long (pre ++ rest) name res
                = net_param_loop tor_parse_long rest name res).
  { apply IH. intros q value Hq. apply Hpre. by apply list_elem_of_further. }
  destruct (String.prefix name p) eqn:Hp; [|exact IH'].
  destruct (decide (String.get (String.length name) p = Some equals_sign)) as [Hg|Hg].
  - rewrite (bool_decide_eq_true_2 _ Hg). simpl.
    rewrite (Hpre p _ (list_elem_of_here _ _) (prefix_get_entry _ _ _ Hp Hg)). exact IH'.
  - rewrite (bool_decide_eq_false_2 _ Hg). exact IH'.
Qed.

Lemma get_net_param_from_list_clamped tor_parse_long params name default_val min_val max_val :
  min_val < max_val -> min_val <= default_val <= max_val ->
  get_net_param_from_list tor_parse_long params name default_val min_val max_val
  = Some (clamped min_val max_val (net_param_loop tor_parse_long params name default_val)).
Proof.
  intros Hmm [Hd1 Hd2]. unfold get_net_param_from_list, clamped.
  rewrite (proj2 (Z.ltb_lt _ _) Hmm), (proj2 (Z.leb_le _ _) Hd1), (proj2 (Z.leb_le _ _) Hd2).
  simpl. f_equal.
  destruct (_ <? min_val) eqn:H1; [apply Z.ltb_lt in H1; lia|]. apply Z.ltb_ge in H1.
  destruct (max_val <? _) eqn:H2; [apply Z.ltb_lt in H2; lia|]. apply Z.ltb_ge in H2. lia.
Qed.

(** X26. When min_val < max_val and min_val <= default_val <= max_val,
    networkstatus_get_param returns (no assertion fails) a value between
    min_val and max_val, whatever the consensus, its parameter list and
    the parser say, and also when there is no consensus or no parameter
    list. *)
Theorem consensus_param_stays_in_range (tor_parse_long : string -> option Z)
    (net_params : networkstatus_t -> option (list string))
    (E : Env) (st : dir_state) (ns : option networkstatus_t) (param_name : string)
    (default_val min_val max_val : Z) :
  min_val < max_val -> min_val <= default_val <= max_val ->
  exists r,
    networkstatus_get_param tor_parse_long net_params E st ns param_name
      default_val min_val max_val = Some r
    /\ min_val <= r <= max_val.
Proof.
  intros Hmm Hd. unfold networkstatus_get_param.
  destruct (match ns with Some c => Some c | None => current_consensus E st end) as [c|];
    [|by exists default_val].
  destruct (net_params c) as [params|]; [|by exists default_val].
  rewrite get_net_param_from_list_clamped by done.
  eexists. split; [done|]. unfold clamped. lia.
Qed.

Lemma consensus_param_stays_in_range_witness :
  exists r,
    networkstatus_get_param ParamsExamples.parse_long ParamsExamples.params_of
      Examples.env_with_cert initial_state (Some Examples.consensus_one) "cbtnummodes" 3 1 20
    = Some r
    /\ 1 <= r <= 20.
Proof.
  apply (consensus_param_stays_in_range ParamsExamples.parse_long ParamsExamples.params_of
           Examples.env_with_cert initial_state (Some Examples.consensus_one) "cbtnummodes"
           3 1 20); lia.
Defined.

(** X27. get_net_param_from_list takes the value of the first entry of the
    form name=value whose value parses, cast to int32_t and brought into
    the range from min_val to max_val; entries with another name (also a
    longer name that starts with the same letters) and entries whose value
    does not parse are passed over, and a list with no usable entry gives
    the default. *)
Theorem param_is_the_first_parsable_value (tor_parse_long : string -> option Z)
    (pre post : list string) (param_name value : string) (v default_val min_val max_val : Z) :
  min_val < max_val -> min_val <= default_val <= max_val ->
  (forall p value', p ∈ pre -> p = param_entry param_name value' ->
                    tor_parse_long value' = None) ->
  tor_parse_long value = Some v ->
  get_net_param_from_list tor_parse_long (pre ++ param_entry param_name value :: post)
    param_name default_val min_val max_val
  = Some (clamped min_val max_val (to_int32 v))
  /\ get_net_param_from_list tor_parse_long pre param_name default_val min_val max_val
     = Some default_val.
Proof.
  intros Hmm Hd Hpre Hv. rewrite !get_net_param_from_list_clamped by done. split.
  - rewrite net_param_loop_skips by done. cbn [net_param_loop]. unfold param_entry.
    rewrite prefix_app, get_app_length, bool_decide_eq_true_2 by done. simpl.
    by rewrite substring_after_name, Hv.
  - rewrite <- (app_nil_r pre), net_param_loop_skips by done. simpl.
    unfold clamped. f_equal. lia.
Qed.

Lemma param_is_the_first_parsable_value_witness :
  get_net_param_from_list ParamsExamples.parse_long
    (["bwweightscale=10000"; "cbtnum=x"] ++ ParamsProps.param_entry "cbtnum" "7"
       :: ["cbtnummodes=30"]) "cbtnum" 3 1 20
  = Some 7.
Proof.
  refine (proj1 (param_is_the_first_parsable_value ParamsExamples.parse_long
                   ["bwweightscale=10000"; "cbtnum=x"] ["cbtnummodes=30"] "cbtnum" "7" 7
                   3 1 20 _ _ _ _)); [lia | lia | | reflexivity].
  intros p value' Hin ->.
  apply elem_of_cons in Hin as [Hin | Hin].
  - vm_compute in Hin. discriminate Hin.
  - apply list_elem_of_singleton in Hin.
    assert (Hv : value' = "x") by (vm_compute in Hin; congruence).
    by rewrite Hv.
Defined.

End ParamsExtras.
(** * Further properties of reading the cached consensuses *)

Section ReloadExtras.
Import Reload ReloadProps.

(** A call that carries both [NSSET_FROM_CACHE] and
    [NSSET_DONT_DOWNLOAD_CERTS]. *)
Lemma quiet_call_frame E consensus flavname flags r st st1 :
  flag_set flags NSSET_FROM_CACHE = true ->
  flag_set flags NSSET_DONT_DOWNLOAD_CERTS = true ->
  networkstatus_set_current_consensus E consensus flavname flags st = Some (r, st1) ->
  datadir st1 ⊆ datadir st /\ emits_only (fun e => is_cert_fetch e = false) st st1.
Proof.
  intros Hfc Hdl.
  unfold networkstatus_set_current_consensus. rewrite Hfc, Hdl. simpl.
  destruct (networkstatus_parse_flavor_name flavname) as [flav0|] eqn:Hn.
  2:{ intros [= <- <-]. split; [done | apply emits_only_refl]. }
  assert (emits_only (fun e => is_cert_fetch e = false) st (emit (EvParseConsensus consensus) st)) as H0
    by (by apply emits_only_emit).
  destruct (networkstatus_parse_vote_from_string E consensus) as [c|] eqn:Hp.
  2:{ by intros [= <- <-]. }
  destruct (consensus_gates E c flav0 flavname flags _) as [r0|flav fn cf uf cva] eqn:Hg.
  { by intros [= <- <-]. }
  intros H. apply bind_Some in H as (chk & Hchk & H).
  destruct (Quorum.verdict chk <? 0).
  - destruct (Quorum.verdict chk =? -1).
    + destruct (_ || _); injection H as <- <-.
      * split; [by destruct flav|].
        eapply emits_only_trans; [exact H0|]. apply emits_only_same_trace.
        by rewrite trace_set_waiting.
      * split.
        -- destruct (flag_set flags NSSET_WAS_WAITING_FOR_CERTS); simpl; [|done].
           apply delete_subseteq.
        -- eapply emits_only_trans; [exact H0|]. apply emits_only_when. intros _.
           by apply emits_only_same_trace.
    + injection H as <- <-. split.
      * destruct (_ && _); simpl; [|done]. apply delete_subseteq.
      * eapply emits_only_trans; [exact H0|]. apply emits_only_when. intros _.
        by apply emits_only_same_trace.
  - apply bind_Some in H as (st2 & Hi & H). injection H as <- <-. split.
    + apply install_consensus_datadir in Hi as (d & [->| ->] & ->); [done|].
      apply delete_subseteq.
    + eapply emits_only_trans; [exact H0|]. by eapply install_consensus_no_cert_fetch.
Qed.

Lemma load_consensus_frame E s flavname flags st st1 :
  flag_set flags NSSET_FROM_CACHE = true ->
  flag_set flags NSSET_DONT_DOWNLOAD_CERTS = true ->
  load_consensus E s flavname flags st = Some st1 ->
  datadir st1 ⊆ datadir st /\ emits_only (fun e => is_cert_fetch e = false) st st1.
Proof.
  intros Hfc Hdl. unfold load_consensus. destruct s as [s|].
  - intros H. apply bind_Some in H as ([r st2] & Hc & [= <-]).
    by eapply quiet_call_frame.
  - intros [= <-]. split; [done | apply emits_only_refl].
Qed.

Lemma reload_flavor_frame E flav st st1 :
  reload_flavor E flav st = Some st1 ->
  datadir st1 ⊆ datadir st /\ emits_only (fun e => is_cert_fetch e = false) st st1.
Proof.
  unfold reload_flavor. intros H. apply bind_Some in H as (st2 & H1 & H2).
  apply load_consensus_frame in H1 as [Hd1 He1]; [|done..].
  apply load_consensus_frame in H2 as [Hd2 He2]; [|done..].
  split; [by etrans | by eapply emits_only_trans].
Qed.

Lemma update_certificate_downloads_spec t st :
  update_certificate_downloads t st
  = mk_state (current_ns_consensus st) (current_md_consensus st) (waiting_ns st)
             (waiting_md st) (next_download_ns st) (next_download_md st) (datadir st)
             (trace st ++ cert_fetches t st).
Proof.
  unfold update_certificate_downloads, cert_fetches.
  destruct st as [cn cm [c1 b1 s1 f1] [c2 b2 s2 f2] dn dm dd tr].
  destruct c1, c2, cn, cm; unfold emit; simpl;
    rewrite <- ?app_assoc, ?app_nil_r; reflexivity.
Qed.

(** X28. When router_reload_consensus_networkstatus returns, it has
    created or overwritten no file of the data directory (files can only
    have been removed), it has asked for no certificate while loading the
    files, and its last outgoing calls are one request for missing
    certificates for each consensus that is then parked or current,
    followed by routers_update_all_from_networkstatus and
    update_microdescs_from_networkstatus. *)
Theorem reload_reads_but_never_writes (E : Env) (fallback : fallback_file)
    (st st1 : dir_state) :
  router_reload_consensus_networkstatus E fallback st = Some st1 ->
  datadir st1 ⊆ datadir st
  /\ exists evs,
       trace st1
       = trace st ++ evs ++ cert_fetches (now E) st1
           ++ [EvCall "routers_update_all_from_networkstatus";
               EvCall "update_microdescs_from_networkstatus"]
       /\ Forall (fun e => is_cert_fetch e = false) evs.
Proof.
  unfold router_reload_consensus_networkstatus. intros H.
  apply bind_Some in H as (st_a & Ha & H). apply bind_Some in H as (st_b & Hb & H).
  apply bind_Some in H as (st_c & Hc & H). injection H as <-.
  apply reload_flavor_frame in Ha as [Hda Hea]. apply reload_flavor_frame in Hb as [Hdb Heb].
  assert (datadir st_c ⊆ datadir st_b /\ emits_only (fun e => is_cert_fetch e = false) st_b st_c) as [Hdc Hec].
  { destruct (match current_consensus E st_b with None => true | Some _ => _ end).
    - by apply load_consensus_frame in Hc.
    - injection Hc as <-. split; [done | apply emits_only_refl]. }
  rewrite update_certificate_downloads_spec. simpl. split.
  - etrans; [exact Hdc|]. by etrans.
  - destruct (emits_only_trans _ _ _ _ Hea (emits_only_trans _ _ _ _ Heb Hec))
      as (evs & Ht & HF).
    exists evs. split; [|done]. rewrite Ht.
    unfold cert_fetches. simpl. by rewrite <- !app_assoc.
Qed.

Lemma reload_reads_but_never_writes_witness :
  exists st1,
    router_reload_consensus_networkstatus Examples.env_store ReloadExamples.no_fallback
      ReloadExamples.st_unverified_on_disk = Some st1
    /\ datadir st1 ⊆ datadir ReloadExamples.st_unverified_on_disk.
Proof.
  eexists. split; [reflexivity|].
  exact (proj1 (reload_reads_but_never_writes Examples.env_store ReloadExamples.no_fallback
                  ReloadExamples.st_unverified_on_disk _ eq_refl)).
Defined.

End ReloadExtras.
(** * Further properties of the v2 status downloads *)

Section V2DownloadExtras.
Import V2Download V2DownloadProps.

Lemma authority_fetch_loop_spec E servers :
  forall reqs,
  exists new,
    authority_fetch_loop E servers reqs = reqs ++ new
    /\ (length new <= length servers)%nat
    /\ Forall (fun r => exists ds, ds ∈ servers
                 /\ ds_v2_dirinfo ds = true
                 /\ dl_router_digest_is_me E (ds_digest ds) = false
                 /\ r = FetchFromAuthority (ds_digest ds)
                          ("fp/" +:+ base16_encode E (ds_digest ds) +:+ ".z")) new.
Proof.
  induction servers as [|ds rest IH]; intros reqs.
  - exists []. by rewrite app_nil_r.
  - assert (Hskip : forall new,
              authority_fetch_loop E rest reqs = reqs ++ new
              /\ (length new <= length rest)%nat
              /\ Forall (fun r => exists ds, ds ∈ rest
                           /\ ds_v2_dirinfo ds = true
                           /\ dl_router_digest_is_me E (ds_digest ds) = false
                           /\ r = FetchFromAuthority (ds_digest ds)
                                    ("fp/" +:+ base16_encode E (ds_digest ds) +:+ ".z")) new ->
              authority_fetch_loop E rest reqs = reqs ++ new
              /\ (length new <= length (ds :: rest))%nat
              /\ Forall (fun r => exists ds0, ds0 ∈ ds :: rest
                           /\ ds_v2_dirinfo ds0 = true
                           /\ dl_router_digest_is_me E (ds_digest ds0) = false
                           /\ r = FetchFromAuthority (ds_digest ds0)
                                    ("fp/" +:+ base16_encode E (ds_digest ds0) +:+ ".z")) new).
    { intros new (H1 & H2 & H3). split; [done|]. split; [simpl; lia|].
      eapply Forall_impl; [exact H3|]. intros r (ds0 & Hin & ?).
      exists ds0. split; [by apply list_elem_of_further | done]. }
    cbn [authority_fetch_loop].
    destruct (ds_v2_dirinfo ds) eqn:Hv2; simpl.
    2:{ destruct (IH reqs) as (new & H). exists new. by apply Hskip. }
    destruct (dl_router_digest_is_me E (ds_digest ds)) eqn:Hme.
    { destruct (IH reqs) as (new & H). exists new. by apply Hskip. }
    destruct (connection_get_by_type_addr_port_purpose E reqs (ds_addr ds) (ds_dir_port ds)).
    { destruct (IH reqs) as (new & H). exists new. by apply Hskip. }
    destruct (IH (reqs ++ [FetchFromAuthority (ds_digest ds)
                             ("fp/" +:+ base16_encode E (ds_digest ds) +:+ ".z")]))
      as (new & H1 & H2 & H3).
    eexists (_ :: new). rewrite H1, <- app_assoc. split; [done|]. split; [simpl; lia|].
    constructor.
    + exists ds. split; [apply list_elem_of_here | done].
    + eapply Forall_impl; [exact H3|]. intros r (ds0 & Hin & ?).
      exists ds0. split; [by apply list_elem_of_further | done].
Qed.

(** X29. update_v2_networkstatus_cache_downloads is rate limited: a call
    either changes nothing or records its time as the last attempt; a
    repeated call at the same or an earlier time changes nothing, and
    after an attempt at time t no call up to t plus the interval (10
    minutes for a v2 authority, 60 minutes for a cache) launches anything.
    An authority only asks v2 directory servers other than itself, each
    for its own status; a cache launches at most one request, for all.z. *)
Theorem v2_status_downloads_are_rate_limited (E : DownloadEnv) (t : Z) (st : dl_state) :
  let st1 := update_v2_networkstatus_cache_downloads E t st in
  (st1 = st \/ last_networkstatus_download_attempted st1 = t)
  /\ (forall t', t' <= t ->
        update_v2_networkstatus_cache_downloads E t' st1 = st1)
  /\ (last_networkstatus_download_attempted st1 = t ->
      forall t', t' <= t + cache_interval E ->
        update_v2_networkstatus_cache_downloads E t' st1 = st1)
  /\ exists new,
       requests st1 = requests st ++ new
       /\ (if authdir_mode_v2 E then Forall (asks_v2_server E) new
           else new = [] \/ new = [FetchFromAny "all.z"]).
Proof.
  intros st1.
  assert (Hint : 0 <= cache_interval E).
  { unfold cache_interval, AUTHORITY_NS_CACHE_INTERVAL, NONAUTHORITY_NS_CACHE_INTERVAL.
    destruct (authdir_mode_v2 E); lia. }
  assert (Hquiet : forall s t', t' <= last_networkstatus_download_attempted s + cache_interval E ->
                     update_v2_networkstatus_cache_downloads E t' s = s).
  { intros s t' Ht'. unfold update_v2_networkstatus_cache_downloads.
    destruct (_ >=? t') eqn:Hg; [done|]. lia. }
  assert (Hcases : (st1 = st /\ t <= last_networkstatus_download_attempted st + cache_interval E)
                   \/ last_networkstatus_download_attempted st1 = t).
  { unfold st1, update_v2_networkstatus_cache_downloads.
    destruct (_ >=? t) eqn:Hg; [left; split; [done|lia]|right].
    destruct (authdir_mode_v2 E); [done|]. by destruct (negb _). }
  split_and!.
  - destruct Hcases as [[? _]|?]; [by left | by right].
  - intros t' Ht'. apply Hquiet. destruct Hcases as [[Heq ?] | Heq]; rewrite Heq; lia.
  - intros Hl t' Ht'. apply Hquiet. lia.
  - unfold st1, update_v2_networkstatus_cache_downloads.
    destruct (_ >=? t).
    { exists []. rewrite app_nil_r. split; [done|]. destruct (authdir_mode_v2 E); auto. }
    destruct (authdir_mode_v2 E).
    + destruct (authority_fetch_loop_spec E (router_get_trusted_dir_servers E) (requests st))
        as (new & H1 & _ & H3).
      exists new. split; [done|]. exact H3.
    + destruct (negb _); simpl.
      * eexists. split; [done|]. by right.
      * exists []. rewrite app_nil_r. split; [done|]. by left.
Qed.

End V2DownloadExtras.
